(** * The event handler base class (eventhandler/baseclass.py)

    A shallow embedding of [DecidedEvent], [EventhandlerRunner], [new] and
    the [timeout] decorator, and the properties of the decision-and-execution
    pipeline proved about them.

    Python objects are modelled as follows.
    - Scalar values are [pyval]; [bytes] is [list byte]; [int] is [Z].
    - [str] is [string], its text in UTF-8.  On ASCII text [str.isdigit] and
      [int] are computed here; on text with a character outside ASCII, and
      for the number of digits [int] accepts, they are what the interpreter
      says ([Python]).
    - A [dict] is an association list in insertion order; [d[k]] reads the
      first binding of [k] and [d[k] = v] overwrites it in place or appends.
    - The raw event is a mutable dict that the caller, the runner and the
      decided event all reference: dicts that are shared live in a store
      [heap] and are named by a location.
    - A runner instance has its own attributes and those of its class; a
      method is an attribute of the class that a value of the same name can
      shadow.
    - Exceptions are kept as their class name, their [str()] text, and
      whether the class derives from [Exception]: [except Exception] catches
      no other.
    - The decider, the [run] method of the concrete runner, the subprocess
      and the host environment are parameters ([Env]).  A method is a
      function from the store and the instance to its result, the new store
      and instance, and the effects of the base class in order.
    - For the [timeout] decorator, time is counted in whole seconds and the
      process has one SIGALRM handler and at most one pending alarm. *)

From Stdlib Require Import ZArith Ascii String List Lia Bool.
From stdpp Require Import gmap strings functions.

Local Open Scope string_scope.
Local Open Scope Z_scope.

(** ** Values *)

Inductive pyval : Type :=
| VNone
| VBool (b : bool)
| VInt (n : Z)
| VStr (s : string)
| VBytes (b : list Byte.byte).

(** Truth value testing ([if v:], [not v]). *)
Definition truthy (v : pyval) : bool :=
  match v with
  | VNone => false
  | VBool b => b
  | VInt n => negb (n =? 0)
  | VStr s => negb (String.eqb s "")
  | VBytes b => match b with [] => false | _ => true end
  end.

(** [x if x else ""], as the log lines of [run_decided] print the captured
    output. *)
Definition or_empty (v : pyval) : pyval := if truthy v then v else VStr "".

Definition type_name (v : pyval) : string :=
  match v with
  | VNone => "NoneType"
  | VBool _ => "bool"
  | VInt _ => "int"
  | VStr _ => "str"
  | VBytes _ => "bytes"
  end.

(** ** Exceptions and results *)

(** An exception: its class, its [str()], and whether the class derives
    from [Exception] (for [SystemExit], [KeyboardInterrupt] and the like it
    does not, and [except Exception] lets them pass). *)
Record exn : Type := mkExn {
  exn_class : string;
  exn_str : string;
  is_Exception : bool
}.

(** An instance of a subclass of [Exception]. *)
Definition Exn (class text : string) : exn := mkExn class text true.

Inductive res (A : Type) : Type :=
| Ok (a : A)
| Raised (e : exn).
Arguments Ok {A} a.
Arguments Raised {A} e.

Definition AttributeError (type_name attr : string) : exn :=
  Exn "AttributeError"
    ("'" +:+ type_name +:+ "' object has no attribute '" +:+ attr +:+ "'").

Definition TypeError (text : string) : exn := Exn "TypeError" text.

Definition ValueError (text : string) : exn := Exn "ValueError" text.

(** Calling a value that is no function. *)
Definition not_callable (v : pyval) : exn :=
  TypeError ("'" +:+ type_name v +:+ "' object is not callable").

(** The double quote character, for the texts that quote a type name. *)
Definition dquote : string := String (ascii_of_nat 34) EmptyString.

(** [except ImportError] also catches its built-in subclass. *)
Definition is_ImportError (e : exn) : bool :=
  String.eqb (exn_class e) "ImportError" ||
  String.eqb (exn_class e) "ModuleNotFoundError".

(** ** Strings: [str.isdigit], [int(str)], [str.endswith], [s[:-n]] *)

Definition is_digit_char (c : ascii) : bool :=
  (48 <=? nat_of_ascii c)%nat && (nat_of_ascii c <=? 57)%nat.

Fixpoint all_digits (s : string) : bool :=
  match s with
  | EmptyString => true
  | String c r => is_digit_char c && all_digits r
  end.

(** [s.isdigit()] on ASCII text: every character is one of '0'..'9' and
    there is at least one. *)
Definition isdigit (s : string) : bool :=
  negb (String.eqb s "") && all_digits s.

Definition digit_value (c : ascii) : Z := Z.of_nat (nat_of_ascii c) - 48.

Fixpoint int_from (acc : Z) (s : string) : Z :=
  match s with
  | EmptyString => acc
  | String c r => int_from (10 * acc + digit_value c) r
  end.

(** [int(s)] for a string of ASCII digits that [int] accepts. *)
Definition int (s : string) : Z := int_from 0 s.

(** The decimal reading of a digit string, most significant digit first:
    the value [int] is compared with. *)
Fixpoint decimal_value (s : string) : Z :=
  match s with
  | EmptyString => 0
  | String c r => digit_value c * 10 ^ Z.of_nat (String.length r) + decimal_value r
  end.

(** Whether the text is ASCII: in UTF-8 every other character has a byte
    from 128 on. *)
Fixpoint is_ascii (s : string) : bool :=
  match s with
  | EmptyString => true
  | String c r => (nat_of_ascii c <? 128)%nat && is_ascii r
  end.

Definition endswith (s suffix : string) : bool :=
  (String.length suffix <=? String.length s)%nat &&
  String.eqb
    (substring (String.length s - String.length suffix) (String.length suffix) s)
    suffix.

(** [s[:-n]] for [n > 0]. *)
Definition drop_last (n : nat) (s : string) : string :=
  substring 0 (String.length s - n) s.

(** ** Dicts *)

Definition pydict : Type := list (string * pyval).

Fixpoint dict_get (d : pydict) (k : string) : option pyval :=
  match d with
  | [] => None
  | (k', v) :: r => if String.eqb k' k then Some v else dict_get r k
  end.

Fixpoint dict_set (d : pydict) (k : string) (v : pyval) : pydict :=
  match d with
  | [] => [(k, v)]
  | (k', v') :: r =>
      if String.eqb k' k then (k', v) :: r else (k', v') :: dict_set r k v
  end.

(** [k in d] *)
Definition dict_contains (d : pydict) (k : string) : bool :=
  match dict_get d k with Some _ => true | None => false end.

(** The keys [for k in d] visits, in order. *)
Definition dict_keys (d : pydict) : list string := map fst d.

(** ** The interpreter *)

(** What the program takes from the interpreter and this file does not
    compute: [str()] of a dict; [str.isdigit] and [int] on text that is not
    ASCII (the Arabic-Indic three passes [isdigit] and [int] gives 3, the
    superscript two passes [isdigit] and [int] gives no number: it raises
    ValueError); and the number of digits [int] accepts
    ([sys.get_int_max_str_digits()], 4300 unless changed; [None] where there
    is no limit). *)
Record Python : Type := mkPython {
  str_dict : pydict -> string;
  unicode_isdigit : string -> bool;
  unicode_int : string -> option Z;
  int_max_str_digits : option nat
}.

(** [s.isdigit()] *)
Definition str_isdigit (P : Python) (s : string) : bool :=
  if is_ascii s then isdigit s else unicode_isdigit P s.

Definition invalid_literal (s : string) : exn :=
  ValueError ("invalid literal for int() with base 10: '" +:+ s +:+ "'").

(** [int(s)] for a string that passed [isdigit]: the number, or the
    ValueError of [int]. *)
Definition int_str (P : Python) (s : string) : res Z :=
  if is_ascii s then
    match int_max_str_digits P with
    | Some limit =>
        if (limit <? String.length s)%nat
        then Raised (ValueError "Exceeds the limit for integer string conversion")
        else Ok (int s)
    | None => Ok (int s)
    end
  else
    match unicode_int P s with
    | Some n => Ok n
    | None => Raised (invalid_literal s)
    end.

(** ** The store of shared dicts *)

Definition loc : Type := nat.
Definition heap : Type := loc -> pydict.

Definition heap_setitem (h : heap) (l : loc) (k : string) (v : pyval) : heap :=
  <[l := dict_set (h l) k v]> h.

(** ** DecidedEvent *)

(** The fields of the object.  A payload is a dict or [None];
    [_is_heartbeat] is [None] here as long as the object has no such
    attribute. *)
Record DecidedEvent : Type := mkDecidedEvent {
  _eventopts : loc;
  _payload : option pydict;
  _summary : pyval;
  _runneropts : pydict;
  _discarded : bool;
  _discarded_silently : bool;
  _is_heartbeat : option pyval
}.

(** What the loop of the constructor does to one value:
    [int(v) if isinstance(v, str) and v.isdigit() else v], or the ValueError
    of [int]. *)
Definition coerced (P : Python) (v : pyval) : res pyval :=
  match v with
  | VStr s =>
      if str_isdigit P s then
        match int_str P s with
        | Ok n => Ok (VInt n)
        | Raised e => Raised e
        end
      else Ok v
  | _ => Ok v
  end.

(** The value the loop leaves at a key where it found [v] and went on. *)
Definition coerced_value (P : Python) (v : pyval) : pyval :=
  match coerced P v with
  | Ok v' => v'
  | Raised _ => v
  end.

(** The body of the loop of [DecidedEvent.__init__]:
    [if isinstance(d[k], str) and d[k].isdigit(): d[k] = int(d[k])]
    on the dict stored at [l]. *)
Definition coerce_item (P : Python) (l : loc) (h : heap) (k : string) : res heap :=
  match dict_get (h l) k with
  | Some (VStr s) =>
      if str_isdigit P s then
        match int_str P s with
        | Ok n => Ok (heap_setitem h l k (VInt n))
        | Raised e => Raised e
        end
      else Ok h
  | _ => Ok h
  end.

(** The loop over the keys: it stops at the first key where [int] raises,
    with the values before that key coerced in the store. *)
Fixpoint coerce_loop (P : Python) (l : loc) (ks : list string) (h : heap)
  : option exn * heap :=
  match ks with
  | [] => (None, h)
  | k :: ks =>
      match coerce_item P l h k with
      | Ok h' => coerce_loop P l ks h'
      | Raised e => (Some e, h)
      end
  end.

(** [DecidedEvent(eventopts)]: the new object, or the exception of the
    loop, and the store it leaves. *)
Definition DecidedEvent_init (P : Python) (eventopts : loc) (h : heap)
  : res DecidedEvent * heap :=
  match coerce_loop P eventopts (dict_keys (h eventopts)) h with
  | (None, h') =>
      (Ok {| _eventopts := eventopts;
             _payload := None;
             _summary := VStr (str_dict P (h' eventopts));
             _runneropts := [];
             _discarded := false;
             _discarded_silently := true;
             _is_heartbeat := None |}, h')
  | (Some e, h') => (Raised e, h')
  end.

(** The [eventopts] property: the mapping the event holds, read through the
    store. *)
Definition eventopts (self : DecidedEvent) (h : heap) : pydict :=
  h (_eventopts self).

Definition is_complete (self : DecidedEvent) : bool :=
  match _payload self, _summary self with
  | None, _ => false
  | _, VNone => false
  | _, _ => true
  end.

Definition set_payload (self : DecidedEvent) (payload : option pydict) : DecidedEvent :=
  mkDecidedEvent (_eventopts self) payload (_summary self) (_runneropts self)
    (_discarded self) (_discarded_silently self) (_is_heartbeat self).

Definition set_summary (self : DecidedEvent) (summary : pyval) : DecidedEvent :=
  mkDecidedEvent (_eventopts self) (_payload self) summary (_runneropts self)
    (_discarded self) (_discarded_silently self) (_is_heartbeat self).

Definition set_runneropts (self : DecidedEvent) (runneropts : pydict) : DecidedEvent :=
  mkDecidedEvent (_eventopts self) (_payload self) (_summary self) runneropts
    (_discarded self) (_discarded_silently self) (_is_heartbeat self).

Definition set_is_heartbeat (self : DecidedEvent) (value : pyval) : DecidedEvent :=
  mkDecidedEvent (_eventopts self) (_payload self) (_summary self) (_runneropts self)
    (_discarded self) (_discarded_silently self) (Some value).

(** [discard(self, silently=True)] *)
Definition discard (self : DecidedEvent) (silently : pyval) : DecidedEvent :=
  mkDecidedEvent (_eventopts self) (_payload self) (_summary self) (_runneropts self)
    true (if truthy silently then true else false) (_is_heartbeat self).

(** The [is_heartbeat] property: [__init__] does not set [_is_heartbeat],
    so reading it before the setter ran raises. *)
Definition get_is_heartbeat (self : DecidedEvent) : res pyval :=
  match _is_heartbeat self with
  | Some v => Ok v
  | None => Raised (AttributeError "DecidedEvent" "_is_heartbeat")
  end.

(** What a decider can do to an event through the setters and [discard]. *)
Inductive event_op : Type :=
| SetPayload (payload : option pydict)
| SetSummary (summary : pyval)
| SetRunneropts (runneropts : pydict)
| SetIsHeartbeat (value : pyval)
| Discard (silently : pyval).

Definition apply_op (self : DecidedEvent) (op : event_op) : DecidedEvent :=
  match op with
  | SetPayload payload => set_payload self payload
  | SetSummary summary => set_summary self summary
  | SetRunneropts runneropts => set_runneropts self runneropts
  | SetIsHeartbeat value => set_is_heartbeat self value
  | Discard silently => discard self silently
  end.

Definition apply_ops (self : DecidedEvent) (ops : list event_op) : DecidedEvent :=
  fold_left apply_op ops self.

Definition is_Discard (op : event_op) : bool :=
  match op with Discard _ => true | _ => false end.

Definition is_SetIsHeartbeat (op : event_op) : bool :=
  match op with SetIsHeartbeat _ => true | _ => false end.

Definition is_SetSummary (op : event_op) : bool :=
  match op with SetSummary _ => true | _ => false end.

(** ** Log messages *)

Inductive level : Type := DEBUG | INFO | CRITICAL.

(** A log message is the format string cut at its [{}] fields, with the
    values that fill them. *)
Inductive fragment : Type :=
| Lit (s : string)
| Arg (v : pyval).

Definition message : Type := list fragment.

(** ** The runner instance *)

(** What an attribute lookup finds: a value, or a method of the class. *)
Inductive attribute : Type :=
| Value (v : pyval)
| Method (name : string).

(** The concrete runner class: its name and what it defines itself, such as
    its [run] method and its class-level values.  It is taken to inherit the
    methods of [EventhandlerRunner] as they are, and to define values and
    methods only (no properties or slots). *)
Record pyclass : Type := mkClass {
  class_name : string;
  class_attrs : gmap string attribute
}.

(** The methods of the class [EventhandlerRunner]. *)
Definition EventhandlerRunner_methods : list string :=
  ["__init__"; "new_decider"; "decide_and_prepare_event"; "handle";
   "overwrite_attributes"; "run_decided"; "no_more_logging"; "connect"; "disconnect";
   "__del__"].

(** The other attributes every runner has, whose values are not modelled:
    [__metaclass__] of [EventhandlerRunner], and what every instance of a
    class has without defining it (Python 3.11 and later). *)
Definition object_members : list string :=
  ["__metaclass__";
   "__class__"; "__delattr__"; "__dict__"; "__dir__"; "__doc__"; "__eq__"; "__format__";
   "__ge__"; "__getattribute__"; "__getstate__"; "__gt__"; "__hash__"; "__init__";
   "__init_subclass__"; "__le__"; "__lt__"; "__module__"; "__ne__"; "__new__";
   "__reduce__"; "__reduce_ex__"; "__repr__"; "__setattr__"; "__sizeof__"; "__str__";
   "__subclasshook__"; "__weakref__"].

(** The instance.  [baseclass_logs_summary] is set by [__init__] and is not
    deleted afterwards, so it is a field; every other attribute of the
    instance itself is in [attrs]. *)
Record Runner : Type := mkRunner {
  runner_class : pyclass;
  baseclass_logs_summary : pyval;
  attrs : gmap string pyval
}.

(** The instance's own attributes ([vars(self)]). *)
Definition instance_attr (self : Runner) (k : string) : option pyval :=
  if String.eqb k "baseclass_logs_summary" then Some (baseclass_logs_summary self)
  else attrs self !! k.

(** [getattr(self, k)] for a name that is not one of [object_members]: the
    instance's attribute, else what its class defines, else the method of
    [EventhandlerRunner]. *)
Definition getattr (self : Runner) (k : string) : option attribute :=
  match instance_attr self k with
  | Some v => Some (Value v)
  | None =>
      match class_attrs (runner_class self) !! k with
      | Some a => Some a
      | None =>
          if existsb (String.eqb k) EventhandlerRunner_methods
          then Some (Method k) else None
      end
  end.

(** [hasattr(self, k)] *)
Definition hasattr (self : Runner) (k : string) : bool :=
  match getattr self k with
  | Some _ => true
  | None => existsb (String.eqb k) object_members
  end.

(** Storing into the instance. *)
Definition set_instance_attr (self : Runner) (k : string) (v : pyval) : Runner :=
  if String.eqb k "baseclass_logs_summary"
  then mkRunner (runner_class self) v (attrs self)
  else mkRunner (runner_class self) (baseclass_logs_summary self) (<[k := v]> (attrs self)).

(** The names [setattr] guards: they take no value of [pyval]. *)
Definition guarded_name (k : string) : bool :=
  String.eqb k "__class__" || String.eqb k "__dict__" || String.eqb k "__weakref__".

Definition setattr_error (k : string) (v : pyval) : exn :=
  if String.eqb k "__class__" then
    TypeError ("__class__ must be set to a class, not '" +:+ type_name v +:+ "' object")
  else if String.eqb k "__dict__" then
    TypeError ("__dict__ must be set to a dictionary, not a '" +:+ type_name v +:+ "'")
  else
    Exn "AttributeError"
      "attribute '__weakref__' of 'EventhandlerRunner' objects is not writable".

(** [setattr(self, k, v)]: a guarded name raises, any other name is stored
    into the instance. *)
Definition setattr (self : Runner) (k : string) (v : pyval) : res Runner :=
  if guarded_name k then Raised (setattr_error k v)
  else Ok (set_instance_attr self k v).

(** The loop of [__init__]: [for opt in opts: setattr(self, opt, opts[opt])]. *)
Fixpoint init_loop (opts : pydict) (ks : list string) (self : Runner) : res Runner :=
  match ks with
  | [] => Ok self
  | opt :: ks =>
      match dict_get opts opt with
      | Some v =>
          match setattr self opt v with
          | Ok self => init_loop opts ks self
          | Raised e => Raised e
          end
      | None => init_loop opts ks self
      end
  end.

(** [EventhandlerRunner.__init__(self, opts)] for an instance of [cls]. *)
Definition EventhandlerRunner_init (cls : pyclass) (opts : pydict) : res Runner :=
  init_loop opts (dict_keys opts) (mkRunner cls (VBool true) ∅).

(** The loop of [overwrite_attributes]:
    [for k in payload: if hasattr(self, k): setattr(self, k, payload[k])].
    It stops where [setattr] raises, the earlier keys being set. *)
Fixpoint overwrite_loop (payload : pydict) (ks : list string) (self : Runner)
  : option exn * Runner :=
  match ks with
  | [] => (None, self)
  | k :: ks =>
      if hasattr self k then
        match dict_get payload k with
        | Some v =>
            match setattr self k v with
            | Ok self => overwrite_loop payload ks self
            | Raised e => (Some e, self)
            end
        | None => overwrite_loop payload ks self
        end
      else overwrite_loop payload ks self
  end.

(** [overwrite_attributes(self, payload)]: the exception, if it raises, and
    the instance as it leaves it. *)
Definition overwrite_attributes (self : Runner) (payload : pydict) : option exn * Runner :=
  overwrite_loop payload (dict_keys payload) self.

Definition no_more_logging (self : Runner) : Runner :=
  mkRunner (runner_class self) (VBool false) (attrs self).

Definition attribute_type (a : attribute) : string :=
  match a with
  | Value v => type_name v
  | Method _ => "method"
  end.

(** ["_" + tag] for a [tag] that is not a string. *)
Definition concat_error (tag : attribute) : exn :=
  TypeError ("can only concatenate str (not " +:+ dquote +:+ attribute_type tag +:+ dquote
             +:+ ") to str").

Definition no_attribute (self : Runner) (k : string) : exn :=
  AttributeError (class_name (runner_class self)) k.

(** The value handed to the decider as its [runner] attribute:
    [self.runner_name[:-len("_"+self.tag)]
       if hasattr(self, "tag") and self.runner_name.endswith("_"+self.tag)
       else self.runner_name]. *)
Definition runner_label (self : Runner) : res attribute :=
  match getattr self "tag" with
  | None =>
      match getattr self "runner_name" with
      | Some a => Ok a
      | None => Raised (no_attribute self "runner_name")
      end
  | Some tag =>
      match getattr self "runner_name" with
      | None => Raised (no_attribute self "runner_name")
      | Some (Value (VStr runner_name)) =>
          match tag with
          | Value (VStr tag) =>
              if endswith runner_name ("_" +:+ tag)
              then Ok (Value (VStr (drop_last (String.length ("_" +:+ tag)) runner_name)))
              else Ok (Value (VStr runner_name))
          | _ => Raised (concat_error tag)
          end
      | Some (Value (VBytes _)) =>
          match tag with
          | Value (VStr _) =>
              Raised (TypeError "endswith first arg must be bytes or a tuple of bytes, not str")
          | _ => Raised (concat_error tag)
          end
      | Some a => Raised (AttributeError (attribute_type a) "endswith")
      end
  end.

(** ** Effects *)

(** What the base class does to the outside, in order: a log record, the
    call of the runner's [run] (with the instance as it is at the call), the
    start of a subprocess. *)
Inductive effect : Type :=
| Log (lv : level) (msg : message)
| Run (self : Runner) (decided_event : DecidedEvent)
| Popen (command : pyval).

Definition level_eqb (a b : level) : bool :=
  match a, b with
  | DEBUG, DEBUG => true
  | INFO, INFO => true
  | CRITICAL, CRITICAL => true
  | _, _ => false
  end.

(** The messages logged at one level, in order. *)
Fixpoint logged (lv : level) (t : list effect) : list message :=
  match t with
  | [] => []
  | Log lv' msg :: r =>
      if level_eqb lv' lv then msg :: logged lv r else logged lv r
  | _ :: r => logged lv r
  end.

(** Whether a command is built ([run]) or executed ([Popen]). *)
Definition is_command (e : effect) : bool :=
  match e with
  | Run _ _ | Popen _ => true
  | Log _ _ => false
  end.

Definition no_command (t : list effect) : Prop := forallb (fun e => negb (is_command e)) t = true.

Definition is_Run (e : effect) : bool :=
  match e with Run _ _ => true | _ => false end.

(** ** The plug-ins and the environment *)

(** A decider instance: [decide_and_prepare] gets the [runner] attribute
    and the event, and leaves the event and the store as it changed them,
    also when it raises. *)
Record Decider : Type := mkDecider {
  decider_class : string;
  module_file : string;
  decide_and_prepare : attribute -> DecidedEvent -> heap -> res unit * DecidedEvent * heap
}.

Record Env : Type := mkEnv {
  python :> Python;
  (** [os.environ.get("OMD_SITE")], [socket.gethostname()],
      [socket.getfqdn()], [int(time.time())] *)
  environ_OMD_SITE : option string;
  gethostname : string;
  getfqdn : string;
  time_time : Z;
  (** importing the decider module of that name and instantiating its class *)
  load_decider : string -> res Decider;
  (** the [run] method of the concrete runner: the command or an exception,
      and the instance, the event and the store as it leaves them *)
  run : Runner -> DecidedEvent -> heap -> res pyval * Runner * DecidedEvent * heap;
  (** [Popen(command, shell=True, ...)], [communicate()] and [wait()] *)
  subprocess : pyval -> res (list Byte.byte * list Byte.byte * Z)
}.

(** ** A monad for the methods: store and instance, exceptions, effects *)

Record world : Type := mkWorld { w_heap : heap; w_self : Runner }.

Definition M (A : Type) : Type := world -> res A * world * list effect.

Definition ret {A : Type} (a : A) : M A := fun w => (Ok a, w, []).

Definition raise {A : Type} (e : exn) : M A := fun w => (Raised e, w, []).

Definition bind {A B : Type} (m : M A) (f : A -> M B) : M B := fun w =>
  match m w with
  | (Ok a, w', t) => let '(r, w'', t') := f a w' in (r, w'', (t ++ t')%list)
  | (Raised e, w', t) => (Raised e, w', t)
  end.

(** [try: body except Exception as e: handler]: an exception whose class
    does not derive from [Exception] passes. *)
Definition try_except {A : Type} (body : M A) (handler : exn -> M A) : M A := fun w =>
  match body w with
  | (Ok a, w', t) => (Ok a, w', t)
  | (Raised e, w', t) =>
      if is_Exception e
      then let '(r, w'', t') := handler e w' in (r, w'', (t ++ t')%list)
      else (Raised e, w', t)
  end.

Definition lift {A : Type} (r : res A) : M A := fun w => (r, w, []).

Definition emit (e : effect) : M unit := fun w => (Ok tt, w, [e]).

Definition logger (lv : level) (msg : message) : M unit := emit (Log lv msg).

Definition get_self : M Runner := fun w => (Ok (w_self w), w, []).

Definition get_heap : M heap := fun w => (Ok (w_heap w), w, []).

(** [self.name(...)] for a method of [EventhandlerRunner]: a value of that
    name on the instance or in its class shadows the method, and calling the
    value raises. *)
Definition method {A : Type} (name : string) (body : M A) : M A := fun w =>
  match getattr (w_self w) name with
  | Some (Value v) => (Raised (not_callable v), w, [])
  | _ => body w
  end.

(** Whether [self.name] still is the method. *)
Definition is_method (self : Runner) (name : string) : bool :=
  match getattr self name with
  | Some (Value _) => false
  | _ => true
  end.

Declare Scope py_scope.
Delimit Scope py_scope with py.
Notation "x <- c1 ;; c2" := (bind c1 (fun x => c2))
  (at level 100, c1 at next level, right associativity) : py_scope.
Notation "c1 ;; c2" := (bind c1 (fun _ => c2))
  (at level 100, right associativity) : py_scope.
Local Open Scope py_scope.

(** The three components of a run of a method. *)
Definition value {A : Type} (x : res A * world * list effect) : res A := fst (fst x).
Definition final {A : Type} (x : res A * world * list effect) : world := snd (fst x).
Definition effects {A : Type} (x : res A * world * list effect) : list effect := snd x.

(** Whether a log message has the value in one of its fields. *)
Definition mentions (v : pyval) (msg : message) : Prop := In (Arg v) msg.

(** The log lines of [handle] and [run_decided]. *)
Definition policy_error_line : message :=
  [Lit "a decided event "; Arg (VStr "DecidedEvent");
   Lit " must have the attributes payload and summary"].

Definition failed_stderr_line (stdout stderr summary : pyval) : message :=
  [Lit "run failed: stdout "; Arg (or_empty stdout);
   Lit ", stderr "; Arg (or_empty stderr);
   Lit ", event "; Arg summary].

Definition failed_exception_line (decide_exception_msg summary : pyval) : message :=
  [Lit "run failed: exception <"; Arg decide_exception_msg;
   Lit ">, event was <"; Arg summary; Lit ">"].

Definition failed_exitcode_line (stdout stderr : pyval) (exit_code : Z) (summary : pyval)
  : message :=
  [Lit "run failed: stdout "; Arg (or_empty stdout);
   Lit ", stderr "; Arg (or_empty stderr);
   Lit ", exitcode "; Arg (VInt exit_code);
   Lit ", event "; Arg summary].

(** ** EventhandlerRunner: the pipeline *)

(** The module-level [logger] is the one [new] installs; the methods below
    are those of an instance that [new] returned. *)

Section Runner.

Variable E : Env.

(** The line of the [except Exception] clause of [new_decider]. *)
Definition decider_instantiation_line (e : exn) : message :=
  [Lit "unknown error error in decider instantiation: "; Arg (VStr (exn_str e))].

(** The two [except] clauses of [new_decider]. *)
Definition new_decider_except (module_name : pyval) (e : exn) : M (option Decider) :=
  if is_ImportError e then
    logger CRITICAL [Lit "found no decider module "; Arg module_name] ;;
    ret None
  else if is_Exception e then
    logger CRITICAL (decider_instantiation_line e) ;;
    ret None
  else raise e.

(** [new_decider(self)]: the instance, or [None] after one critical line. *)
Definition new_decider : M (option Decider) :=
  self <- get_self ;;
  match getattr self "decider_name" with
  | Some (Value (VStr module_name)) =>
      match load_decider E module_name with
      | Ok instance => ret (Some instance)
      | Raised e => new_decider_except (VStr module_name) e
      end
  | Some (Value (VBytes b)) =>
      new_decider_except (VBytes b) (TypeError "a bytes-like object is required, not 'str'")
  | Some a =>
      new_decider_except VNone (AttributeError (attribute_type a) "split")
  | None =>
      new_decider_except VNone (no_attribute self "decider_name")
  end.

(** [self.new_decider()] *)
Definition self_new_decider : M (option Decider) := method "new_decider" new_decider.

(** [DecidedEvent(raw_event)] on the store. *)
Definition new_DecidedEvent (raw_event : loc) : M DecidedEvent := fun w =>
  let '(decided_event, h) := DecidedEvent_init E raw_event (w_heap w) in
  (decided_event, mkWorld h (w_self w), []).

(** [instance.decide_and_prepare(decided_event)]; the event is the object
    the decider worked on. *)
Definition call_decider (instance : Decider) (runner : attribute) (decided_event : DecidedEvent)
  : M DecidedEvent := fun w =>
  let '(r, decided_event', h) := decide_and_prepare instance runner decided_event (w_heap w) in
  (match r with Ok _ => Ok decided_event' | Raised e => Raised e end,
   mkWorld h (w_self w), []).

(** The fields [decide_and_prepare_event] writes into the raw event before
    the decider sees it. *)
Definition stamp (raw_event : loc) (h : heap) : heap :=
  let h := if dict_contains (h raw_event) "omd_site" then h
           else heap_setitem h raw_event "omd_site"
                  (VStr (default "get https://omd.consol.de/docs/omd" (environ_OMD_SITE E))) in
  let h := heap_setitem h raw_event "omd_originating_host" (VStr (gethostname E)) in
  let h := heap_setitem h raw_event "omd_originating_fqdn" (VStr (getfqdn E)) in
  let h := heap_setitem h raw_event "omd_originating_timestamp" (VInt (time_time E)) in
  heap_setitem h raw_event "omd_originating_timestamp" (VInt (time_time E)).

Definition do_stamp (raw_event : loc) : M unit := fun w =>
  (Ok tt, mkWorld (stamp raw_event (w_heap w)) (w_self w), []).

(** The line of the [except] clause of [decide_and_prepare_event]. *)
Definition decider_error_line (raw_event : pydict) (instance : Decider) (e : exn) : message :=
  [Lit "when deciding based on this "; Arg (VStr (str_dict E raw_event));
   Lit " with this "; Arg (VStr (decider_class instance +:+ "@" +:+ module_file instance));
   Lit " there was an error <"; Arg (VStr (exn_str e)); Lit ">"].

(** The line of the [except NameError] clause of [handle]. *)
Definition raw_event_error_line (raw_event : pydict) (e : exn) : message :=
  [Lit "raw event "; Arg (VStr (str_dict E raw_event));
   Lit " caused error "; Arg (VStr (exn_str e))].

(** The line for an event that was discarded, but not silently. *)
Definition discarded_line (summary : pyval) : message :=
  [Lit "discarded: "; Arg summary].

Definition decide_and_prepare_event (raw_event : loc) : M (option DecidedEvent) :=
  instance <- self_new_decider ;;
  do_stamp raw_event ;;
  try_except
    (decided_event <- new_DecidedEvent raw_event ;;
     self <- get_self ;;
     runner <- lift (runner_label self) ;;
     match instance with
     | None => raise (AttributeError "NoneType" "runner")
     | Some instance =>
         decided_event <- call_decider instance runner decided_event ;;
         ret (Some decided_event)
     end)
    (fun e =>
       h <- get_heap ;;
       match instance with
       | None => raise (AttributeError "NoneType" "__module_file__")
       | Some instance =>
           logger CRITICAL (decider_error_line (h raw_event) instance e) ;;
           ret None
       end).

(** [self.decide_and_prepare_event(raw_event)] *)
Definition self_decide_and_prepare_event (raw_event : loc) : M (option DecidedEvent) :=
  method "decide_and_prepare_event" (decide_and_prepare_event raw_event).

(** The [if]/[elif] of [handle], entered once [decided_event] is bound. *)
Definition inspect_decided (raw_event : loc) (decided_event : option DecidedEvent)
  : M (option DecidedEvent) :=
  match decided_event with
  | None => raise (AttributeError "NoneType" "is_discarded")
  | Some ev =>
      if _discarded ev then
        (if negb (_discarded_silently ev) then
           h <- get_heap ;;
           let ev := if negb (truthy (_summary ev))
                     then set_summary ev (VStr (str_dict E (h raw_event)))
                     else ev in
           logger INFO (discarded_line (_summary ev))
         else ret tt) ;;
        ret None
      else if negb (is_complete ev) then
        logger CRITICAL policy_error_line ;;
        ret None
      else ret (Some ev)
  end.

(** The body of [overwrite_attributes] as a step of [handle]; iterating over
    [None] raises. *)
Definition do_overwrite_attributes (payload : option pydict) : M unit :=
  match payload with
  | None => raise (TypeError "'NoneType' object is not iterable")
  | Some payload =>
      fun w =>
        match overwrite_attributes (w_self w) payload with
        | (None, self) => (Ok tt, mkWorld (w_heap w) self, [])
        | (Some e, self) => (Raised e, mkWorld (w_heap w) self, [])
        end
  end.

(** [self.overwrite_attributes(payload)] *)
Definition self_overwrite_attributes (payload : option pydict) : M unit :=
  method "overwrite_attributes" (do_overwrite_attributes payload).

(** The local variables [run_decided] has after its [try] statement. *)
Record locals : Type := mkLocals {
  success : bool;
  stdout : pyval;
  stderr : pyval;
  exit_code : Z;
  decide_exception_msg : pyval
}.

(** The [except Exception as e] clause of [run_decided]. *)
Definition excepted (e : exn) : locals :=
  mkLocals false VNone VNone 0 (VStr (exn_str e)).

(** [self.run(decided_event)]: what it returns or raises, the event and the
    world as it leaves them, and its effect.  [run] is looked up like any
    attribute; the method of the class is called on the instance as it is
    then. *)
Definition self_run (decided_event : DecidedEvent) (w : world)
  : res pyval * DecidedEvent * world * list effect :=
  match getattr (w_self w) "run" with
  | Some (Method _) =>
      let '(r, self, decided_event', h) := run E (w_self w) decided_event (w_heap w) in
      (r, decided_event', mkWorld h self, [Run (w_self w) decided_event])
  | Some (Value v) => (Raised (not_callable v), decided_event, w, [])
  | None => (Raised (no_attribute (w_self w) "run"), decided_event, w, [])
  end.

Definition call_run (decided_event : DecidedEvent) : M (res pyval * DecidedEvent) := fun w =>
  let '(r, decided_event', w', t) := self_run decided_event w in
  (Ok (r, decided_event'), w', t).

Definition call_subprocess (command : pyval)
  : M (res (list Byte.byte * list Byte.byte * Z)) := fun w =>
  (Ok (subprocess E command), w, [Popen command]).

(** Entering the [except Exception as e] clause of [run_decided], or
    passing the exception on. *)
Definition except_Exception (e : exn) (decided_event : DecidedEvent)
  : M (locals * option DecidedEvent) :=
  if is_Exception e then ret (excepted e, Some decided_event) else raise e.

(** The [try] statement of [run_decided]. *)
Definition attempt (decided_event : option DecidedEvent) : M (locals * option DecidedEvent) :=
  match decided_event with
  | None => ret (mkLocals true VNone VNone 0 VNone, None)
  | Some ev =>
      r <- call_run ev ;;
      match r with
      | (Raised e, ev) => except_Exception e ev
      | (Ok command, ev) =>
          if negb (truthy command)
          then ret (excepted (Exn "Exception" "runner did not return a command"), Some ev)
          else
            logger DEBUG [Lit "command is "; Arg command] ;;
            r <- call_subprocess command ;;
            match r with
            | Raised e => except_Exception e ev
            | Ok (out, err, code) =>
                ret (mkLocals (code =? 0) (VBytes out) (VBytes err) code VNone, Some ev)
            end
      end
  end.

(** [decided_event.summary] *)
Definition summary_of (decided_event : option DecidedEvent) : M pyval :=
  match decided_event with
  | Some ev => ret (_summary ev)
  | None => raise (AttributeError "NoneType" "summary")
  end.

Definition run_decided (decided_event : option DecidedEvent) : M pyval :=
  r <- attempt decided_event ;;
  let '(l, decided_event) := r in
  self <- get_self ;;
  if success l then
    (if truthy (baseclass_logs_summary self) then
       summary <- summary_of decided_event ;;
       logger INFO [Arg summary] ;;
       logger DEBUG [Lit "stdout "; Arg (or_empty (stdout l));
                     Lit ", stderr "; Arg (or_empty (stderr l))]
     else ret tt) ;;
    ret (VBool true)
  else
    (if truthy (stderr l) then
       summary <- summary_of decided_event ;;
       logger CRITICAL (failed_stderr_line (stdout l) (stderr l) summary)
     else if truthy (decide_exception_msg l) then
       summary <- summary_of decided_event ;;
       logger CRITICAL (failed_exception_line (decide_exception_msg l) summary)
     else if truthy (baseclass_logs_summary self) then
       summary <- summary_of decided_event ;;
       logger CRITICAL (failed_exitcode_line (stdout l) (stderr l) (exit_code l) summary)
     else ret tt) ;;
    ret (VBool false).

(** [self.run_decided(decided_event)] *)
Definition self_run_decided (decided_event : option DecidedEvent) : M pyval :=
  method "run_decided" (run_decided decided_event).

(** [handle(self, raw_event)], first its [try] statement.  The name
    [decided_event] is unbound only while [decide_and_prepare_event] runs: an
    exception from there takes the [except NameError] branch and is logged,
    one from the [if]/[elif] is not.  Either way [decided_event] ends as
    [None]. *)
Definition decide_phase (raw_event : loc) : M (option DecidedEvent) :=
  try_except
    (decided_event <- self_decide_and_prepare_event raw_event ;;
     try_except (inspect_decided raw_event decided_event) (fun _ => ret None))
    (fun e =>
       h <- get_heap ;;
       logger CRITICAL (raw_event_error_line (h raw_event) e) ;;
       ret None).

(** The two calls after the [try] statement are not guarded.  The method
    has no [return] statement: it returns [None]. *)
Definition handle (raw_event : loc) : M pyval :=
  decided_event <- decide_phase raw_event ;;
  match decided_event with
  | Some ev =>
      self_overwrite_attributes (_payload ev) ;;
      success <- self_run_decided (Some ev) ;;
      ret VNone
  | None => ret VNone
  end.

End Runner.

(** ** The timeout decorator *)

Module Signal.

(** A SIGALRM handler: the two dispositions of the system, or a Python
    callable, which returns or raises. *)
Inductive sighandler : Type :=
| SIG_DFL
| SIG_IGN
| Handler (raises : option exn).

(** The state of the process the decorator touches: the installed handler
    and the seconds left on the pending alarm (0: none pending).  The wrapper
    runs in the main thread, where [signal.signal] is allowed. *)
Record sigstate : Type := mkSig { sigalrm : sighandler; pending : nat }.

(** The steps of one wrapped call, in order. *)
Inductive step : Type :=
| SetHandler (h : sighandler)
| Alarm (seconds : Z)
| Call.

(** [signal.signal(signal.SIGALRM, h)] returns the previous handler. *)
Definition signal_signal (h : sighandler) (s : sigstate) : sighandler * sigstate :=
  (sigalrm s, mkSig h (pending s)).

Definition OverflowError : exn :=
  Exn "OverflowError" "Python int too large to convert to C int".

(** [signal.alarm(n)] for an int [n]: outside the range of a C int it raises
    and changes nothing; else it replaces the pending alarm by [n] taken as
    an unsigned int ([n = 0] cancels it) and returns the seconds that were
    left. *)
Definition signal_alarm (n : Z) (s : sigstate) : res nat * sigstate :=
  if (n <? - 2 ^ 31) || (2 ^ 31 <=? n) then (Raised OverflowError, s)
  else (Ok (pending s), mkSig (sigalrm s) (Z.to_nat (n mod 2 ^ 32))).

Inductive outcome : Type :=
| Returned (v : pyval)
| Raises (e : exn)
| Terminated.

Definition outcome_of (r : res pyval) : outcome :=
  match r with
  | Ok v => Returned v
  | Raised e => Raises e
  end.

(** The wrapped function on its arguments: the seconds it needs and how it
    ends when nothing interrupts it, and how it ends when an exception is
    raised in it by a signal handler (it may let it pass, catch it and
    return, or raise another). *)
Record call : Type := mkCall {
  duration : nat;
  completes : res pyval;
  interrupted : exn -> res pyval
}.

Definition undisturbed (func : call) : outcome := outcome_of (completes func).

(** Running the call: a pending alarm that expires before the call is done
    delivers SIGALRM to the installed handler; an exception the handler
    raises is raised in the call. *)
Definition run_call (func : call) (s : sigstate) : outcome * sigstate :=
  if (0 <? pending s)%nat && (pending s <=? duration func)%nat then
    match sigalrm s with
    | Handler (Some e) => (outcome_of (interrupted func e), mkSig (sigalrm s) 0)
    | Handler None => (undisturbed func, mkSig (sigalrm s) 0)
    | SIG_IGN => (undisturbed func, mkSig (sigalrm s) 0)
    | SIG_DFL => (Terminated, mkSig (sigalrm s) 0)
    end
  else (undisturbed func, mkSig (sigalrm s) (pending s - duration func)).

Definition RunnerTimeoutError (error_message : string) : exn :=
  Exn "RunnerTimeoutError" error_message.

(** The [wrapper] that [timeout(seconds, error_message)] puts around a
    body, on one call.  [signal.alarm(seconds)] is before the [try]
    statement: when it raises, the body is not run and the [finally] clause
    is not entered. *)
Definition timeout_around
  (seconds : Z) (error_message : string)
  (body : sigstate -> outcome * sigstate) (s : sigstate)
  : outcome * sigstate * list step :=
  let handler := Handler (Some (RunnerTimeoutError error_message)) in
  let '(original_handler, s) := signal_signal handler s in
  match signal_alarm seconds s with
  | (Raised e, s) => (Raises e, s, [SetHandler handler; Alarm seconds])
  | (Ok _, s) =>
      match body s with
      | (Terminated, s) => (Terminated, s, [SetHandler handler; Alarm seconds; Call])
      | (result, s) =>
          let '(_, s) := signal_signal original_handler s in
          let '(_, s) := signal_alarm 0 s in
          (result, s,
           [SetHandler handler; Alarm seconds; Call; SetHandler original_handler; Alarm 0])
      end
  end.

(** The wrapper around a function that does not touch the signal state
    itself. *)
Definition timeout (seconds : Z) (error_message : string) (func : call) (s : sigstate)
  : outcome * sigstate * list step :=
  timeout_around seconds error_message (run_call func) s.

(** The steps after the wrapped call. *)
Fixpoint after_call (t : list step) : list step :=
  match t with
  | [] => []
  | Call :: r => r
  | _ :: r => after_call r
  end.

(** A body that works for a while, then calls a function wrapped with its
    own timeout and, when that returns, goes on with [rest]. *)
Definition nested
  (before : call) (inner_seconds : Z) (inner_message : string) (inner rest : call)
  (s : sigstate) : outcome * sigstate :=
  match run_call before s with
  | (Returned _, s) =>
      match timeout inner_seconds inner_message inner s with
      | (Returned _, s, _) => run_call rest s
      | (result, s, _) => (result, s)
      end
  | (result, s) => (result, s)
  end.

End Signal.

(** ** Names of modules and classes ([new], [new_decider]) *)

(** [c in s] for a character. *)
Fixpoint contains_char (c : ascii) (s : string) : bool :=
  match s with
  | EmptyString => false
  | String c' r => Ascii.eqb c' c || contains_char c r
  end.

(** [s.split(sep)] for a separator of one character. *)
Fixpoint split (sep : ascii) (s : string) : list string :=
  match s with
  | EmptyString => [EmptyString]
  | String c r =>
      if Ascii.eqb c sep then EmptyString :: split sep r
      else match split sep r with
           | piece :: pieces => String c piece :: pieces
           | [] => [String c EmptyString]
           end
  end.

(** [s.rsplit(sep, 1)] when it has two parts: [s] cut at the last [sep]. *)
Fixpoint rsplit1 (sep : ascii) (s : string) : option (string * string) :=
  match s with
  | EmptyString => None
  | String c r =>
      match rsplit1 sep r with
      | Some (before, after) => Some (String c before, after)
      | None => if Ascii.eqb c sep then Some (EmptyString, r) else None
      end
  end.

Definition is_upper (c : ascii) : bool :=
  (65 <=? nat_of_ascii c)%nat && (nat_of_ascii c <=? 90)%nat.

Definition is_lower (c : ascii) : bool :=
  (97 <=? nat_of_ascii c)%nat && (nat_of_ascii c <=? 122)%nat.

Definition to_upper (c : ascii) : ascii :=
  if is_lower c then ascii_of_nat (nat_of_ascii c - 32) else c.

Definition to_lower (c : ascii) : ascii :=
  if is_upper c then ascii_of_nat (nat_of_ascii c + 32) else c.

(** [s.title()] for a name in ASCII: a letter after a letter is made lower
    case, any other letter upper case. *)
Fixpoint title_from (previous_is_cased : bool) (s : string) : string :=
  match s with
  | EmptyString => EmptyString
  | String c r =>
      String (if previous_is_cased then to_lower c else to_upper c)
             (title_from (is_upper c || is_lower c) r)
  end.

Definition title (s : string) : string := title_from false s.

(** ["".join([x.title() for x in name.split("_")]) + suffix] *)
Definition class_name_of (name suffix : string) : string :=
  String.concat "" (map title (split "_" name)) +:+ suffix.

(** The module and the class [new] looks for. *)
Definition runner_module_and_class (target_name : string) : res (string * string) :=
  if contains_char "." target_name then
    match rsplit1 "." target_name with
    | Some (module_name, class_name) => Ok (module_name, class_name)
    | None => Raised (ValueError "not enough values to unpack (expected 2, got 1)")
    end
  else Ok (target_name, class_name_of target_name "Runner").

(** ** new *)

(** [logging.DEBUG] and [logging.INFO]. *)
Definition logging_DEBUG : Z := 10.
Definition logging_INFO : Z := 20.

(** The arguments of the call of [setup_logging]. *)
Record LogSetup : Type := mkLogSetup {
  logdir : string;
  logfile : string;
  scrnloglevel : Z;
  txtloglevel : Z
}.

(** What [getattr(runner_module, class_name)] found, a callable: how it
    prints, the file of its module, what calling it with the options gives,
    whether it is a class, and whether that class is a subclass of
    [EventhandlerRunner]. *)
Record RunnerClass : Type := mkRunnerClass {
  class_repr : string;
  runner_module_file : string;
  construct : pydict -> res Runner;
  is_class : bool;
  is_EventhandlerRunner : bool
}.

Record Host : Type := mkHost {
  (** [os.environ["OMD_ROOT"]] *)
  environ_OMD_ROOT : option string;
  (** [coshsh.util.setup_logging] *)
  setup_logging : LogSetup -> res unit;
  (** [import_module] of the module path and [getattr] of the class name *)
  import_runner : string -> string -> res RunnerClass
}.

(** [tag] as [if tag] reads it: neither [None] nor empty. *)
Definition tag_given (tag : option string) : option string :=
  match tag with
  | Some t => if String.eqb t "" then None else Some t
  | None => None
  end.

Definition new_runner_name (target_name : string) (tag : option string) : string :=
  target_name +:+ match tag_given tag with Some t => "_" +:+ t | None => "" end.

Definition new_log_levels (verbose debug : bool) : Z * Z :=
  let scrnloglevel := if verbose then logging_INFO else 100 in
  if debug then (logging_DEBUG, logging_DEBUG) else (scrnloglevel, logging_INFO).

(** The attributes [new] sets on the instance it got. *)
Definition new_attributes
  (instance : Runner) (file target_name : string) (tag : option string) (decider : pyval)
  : Runner :=
  let instance := set_instance_attr instance "__module_file__" (VStr file) in
  let instance := set_instance_attr instance "name" (VStr target_name) in
  let instance := match tag_given tag with
                  | Some t => set_instance_attr instance "tag" (VStr t)
                  | None => instance
                  end in
  let instance := set_instance_attr instance "runner_name" (VStr (new_runner_name target_name tag)) in
  set_instance_attr instance "decider_name" decider.

(** The [try] block of [new]. *)
Definition new_try
  (H : Host) (target_name : string) (tag : option string) (decider : pyval) (runneropts : pydict)
  : res (RunnerClass * Runner) :=
  match runner_module_and_class target_name with
  | Raised e => Raised e
  | Ok (module_name, class_name) =>
      match import_runner H ("eventhandler." +:+ module_name +:+ ".runner") class_name with
      | Raised e => Raised e
      | Ok runner_class =>
          match construct runner_class runneropts with
          | Raised e => Raised e
          | Ok instance =>
              Ok (runner_class,
                  new_attributes instance (runner_module_file runner_class)
                    target_name tag decider)
          end
      end
  end.

(** The [else] clause of the [try] statement of [new], and its [return]. *)
Definition new_else (runner_class : RunnerClass) (instance : Runner) : res Runner :=
  if is_class runner_class then
    if is_EventhandlerRunner runner_class then Ok instance
    else
      Raised (Exn "ImportError"
                ("We currently don't have " +:+ class_repr runner_class +:+
                 ", but you are welcome to send in the request for it!"))
  else Raised (TypeError "issubclass() arg 1 must be a class").

(** [new(target_name, tag, decider, verbose, debug, runneropts)]: the
    logging it set up, if it came that far, and the instance or the
    exception. *)
Definition new
  (H : Host) (target_name : string) (tag : option string) (decider : pyval)
  (verbose debug : bool) (runneropts : pydict) : option LogSetup * res Runner :=
  let runner_name := new_runner_name target_name tag in
  let '(scrn, txt) := new_log_levels verbose debug in
  let logger_name := "eventhandler_" +:+ runner_name in
  match environ_OMD_ROOT H with
  | None => (None, Raised (Exn "KeyError" "'OMD_ROOT'"))
  | Some root =>
      let setup := mkLogSetup (root +:+ "/var/log") (logger_name +:+ ".log") scrn txt in
      match setup_logging H setup with
      | Raised e => (None, Raised e)
      | Ok _ =>
          match new_try H target_name tag decider runneropts with
          | Raised e =>
              if is_Exception e then
                (Some setup,
                 Raised (Exn "ImportError"
                           (target_name +:+ " is not part of our runner collection!")))
              else (Some setup, Raised e)
          | Ok (runner_class, instance) => (Some setup, new_else runner_class instance)
          end
      end
  end.

(** ** Inputs the properties are tried on *)

(** The superscript two and the Arabic-Indic digit three, in UTF-8. *)
Definition superscript_two : string :=
  String (ascii_of_nat 194) (String (ascii_of_nat 178) EmptyString).

Definition arabic_three : string :=
  String (ascii_of_nat 217) (String (ascii_of_nat 163) EmptyString).

(** An interpreter with the default limit on digits, as far as the examples
    need it: of the text outside ASCII it knows these two characters, both
    digits for [isdigit], and only the second a number for [int]. *)
Definition cpython : Python :=
  mkPython
    (fun _ => "{...}")
    (fun s => String.eqb s superscript_two || String.eqb s arabic_three)
    (fun s => if String.eqb s arabic_three then Some 3 else None)
    (Some 4300%nat).

(** The raw event of the end-to-end scenario, stored at location 0. *)
Definition cpu_event : pydict :=
  [("service_description", VStr "CPU"); ("state", VStr "2"); ("output", VStr "CRIT")].

Definition cpu_heap : heap := fun _ => cpu_event.

Definition cpu_decided : DecidedEvent :=
  mkDecidedEvent 0%nat (Some [("contact", VStr "oncall")])
    (VStr "CPU CRIT -> paging oncall") [] false true None.

(** Raw events that differ in their state. *)
Definition event_in_state (state : string) : pydict :=
  [("service_description", VStr "CPU"); ("state", VStr state); ("output", VStr "CRIT")].

(** A decider that pages on state 2, discards state 0 and still asks for
    its summary line, leaves state 1 undecided, and fails on anything else. *)
Definition paging_decider : Decider :=
  mkDecider "PagingDecider" "/omd/eventhandler/paging/decider.py"
    (fun runner ev h =>
       match dict_get (eventopts ev h) "state" with
       | Some (VInt 2) =>
           (Ok tt,
            set_summary (set_payload ev (Some [("contact", VStr "oncall"); ("pager", VInt 7)]))
              (VStr "CPU CRIT -> paging oncall"),
            h)
       | Some (VInt 0) => (Ok tt, discard ev (VBool false), h)
       | Some (VInt 1) => (Ok tt, ev, h)
       | _ => (Raised (Exn "KeyError" "'state'"), ev, h)
       end).

(** A decider that ends the process with [sys.exit(1)]. *)
Definition exiting_decider : Decider :=
  mkDecider "ExitingDecider" "/omd/eventhandler/exiting/decider.py"
    (fun runner ev h => (Raised (mkExn "SystemExit" "1" false), ev, h)).

(** A decider whose payload has a key with the name of a method of the
    runner. *)
Definition shadowing_decider : Decider :=
  mkDecider "ShadowingDecider" "/omd/eventhandler/shadowing/decider.py"
    (fun runner ev h =>
       (Ok tt,
        set_summary (set_payload ev (Some [("run_decided", VStr "x")])) (VStr "CPU CRIT"),
        h)).

(** A runner class with a [run] method. *)
Definition NotifyRunner : pyclass := mkClass "NotifyRunner" {[ "run" := Method "run" ]}.

(** A runner that notifies its [contact]; the command fails for contacts
    other than [oncall]. *)
Definition notify_env : Env :=
  mkEnv cpython
    None "mon01" "mon01.example.org" 1700000000
    (fun name =>
       if String.eqb name "paging" then Ok paging_decider
       else if String.eqb name "exiting" then Ok exiting_decider
       else if String.eqb name "shadowing" then Ok shadowing_decider
       else Raised (Exn "ModuleNotFoundError" "No module named 'eventhandler'"))
    (fun self ev h =>
       (match instance_attr self "contact" with
        | Some (VStr contact) => Ok (VStr ("notify.sh " +:+ contact))
        | _ => Ok VNone
        end, self, ev, h))
    (fun command =>
       match command with
       | VStr "notify.sh oncall" => Ok ([], [], 0)
       | VStr "notify.sh nobody" =>
           Ok (list_byte_of_string "tried", list_byte_of_string "no such contact", 1)
       | VStr _ => Ok ([], [], 3)
       | _ => Raised (TypeError "expected str, bytes or os.PathLike object")
       end).

(** The instance [new] gives for the target [notify], the decider named,
    and the option [contact]. *)
Definition notify_with (decider : string) : Runner :=
  new_attributes
    (set_instance_attr (mkRunner NotifyRunner (VBool true) ∅) "contact" (VStr "nobody"))
    "/omd/eventhandler/notify/runner.py" "notify" None (VStr decider).

Definition notify_runner : Runner := notify_with "paging".

(** An instance that did not come from [new]: it has the decider's name and
    no [runner_name]. *)
Definition unnamed_runner : Runner :=
  set_instance_attr (mkRunner NotifyRunner (VBool true) ∅) "decider_name" (VStr "paging").

Definition world_in_state (state : string) : world :=
  mkWorld (fun _ => event_in_state state) notify_runner.

(** A runner whose [run] writes its own log and calls [no_more_logging];
    its command exits with 3 and prints nothing. *)
Definition quiet_env : Env :=
  mkEnv cpython
    None "mon01" "mon01.example.org" 1700000000
    (fun name => Ok paging_decider)
    (fun self ev h => (Ok (VStr "exit 3"), no_more_logging self, ev, h))
    (fun command => Ok ([], [], 3)).

(** A host and what it finds in the runner module. *)
Definition notify_class : RunnerClass :=
  mkRunnerClass "<class 'eventhandler.notify.runner.NotifyRunner'>"
    "/omd/eventhandler/notify/runner.py"
    (EventhandlerRunner_init NotifyRunner)
    true true.

(** A factory function in a runner module: it is called like the class, and
    is none. *)
Definition notify_factory : RunnerClass :=
  mkRunnerClass "<function NotifyRunner at 0x7f0000000000>"
    "/omd/eventhandler/factory/runner.py"
    (EventhandlerRunner_init NotifyRunner)
    false false.

Definition omd_host : Host :=
  mkHost (Some "/omd/sites/mon")
    (fun _ => Ok tt)
    (fun module_path class_name =>
       if String.eqb module_path "eventhandler.notify.runner" && String.eqb class_name "NotifyRunner"
       then Ok notify_class
       else if String.eqb module_path "eventhandler.factory.runner"
       then Ok notify_factory
       else Raised (Exn "ModuleNotFoundError" "No module named 'eventhandler'")).

(** * Properties *)

(** ** Dicts and digit strings *)

Lemma dict_get_set_eq (d : pydict) (k : string) (v : pyval) :
  dict_get (dict_set d k v) k = Some v.
Proof.
  induction d as [|[k' v'] r IH]; simpl.
  - now rewrite String.eqb_refl.
  - destruct (String.eqb k' k) eqn:Hk; simpl; rewrite Hk; auto.
Qed.

Lemma dict_get_set_ne (d : pydict) (k k' : string) (v : pyval) :
  k <> k' -> dict_get (dict_set d k v) k' = dict_get d k'.
Proof.
  intros Hne. induction d as [|[k0 v0] r IH]; simpl.
  - destruct (String.eqb k k') eqn:Hk; auto.
    apply String.eqb_eq in Hk. contradiction.
  - destruct (String.eqb k0 k) eqn:Hk; simpl.
    + apply String.eqb_eq in Hk. subst k0.
      destruct (String.eqb k k') eqn:Hk'; auto.
      apply String.eqb_eq in Hk'. contradiction.
    + now rewrite IH.
Qed.

Lemma dict_get_set (d : pydict) (k k' : string) (v : pyval) :
  dict_get (dict_set d k v) k' = if String.eqb k k' then Some v else dict_get d k'.
Proof.
  destruct (String.eqb k k') eqn:Hk.
  - apply String.eqb_eq in Hk. subst. apply dict_get_set_eq.
  - apply String.eqb_neq in Hk. now apply dict_get_set_ne.
Qed.

Lemma dict_keys_set_present (d : pydict) (k : string) (v : pyval) :
  dict_contains d k = true -> dict_keys (dict_set d k v) = dict_keys d.
Proof.
  unfold dict_contains, dict_keys.
  induction d as [|[k0 v0] r IH]; simpl; [discriminate|].
  destruct (String.eqb k0 k) eqn:Hk; simpl; auto.
  intros H. now rewrite IH.
Qed.

Lemma dict_get_in_keys (d : pydict) (k : string) (v : pyval) :
  dict_get d k = Some v -> existsb (fun k0 => String.eqb k0 k) (dict_keys d) = true.
Proof.
  induction d as [|[k0 v0] r IH]; simpl; [discriminate|].
  destruct (String.eqb k0 k); simpl; auto.
Qed.

Lemma int_from_decimal (s : string) (acc : Z) :
  int_from acc s = acc * 10 ^ Z.of_nat (String.length s) + decimal_value s.
Proof.
  revert acc. induction s as [|c r IH]; intros acc; simpl String.length; simpl int_from;
    simpl decimal_value.
  - rewrite Z.pow_0_r. lia.
  - rewrite IH, Nat2Z.inj_succ, Z.pow_succ_r by lia. ring.
Qed.

Lemma int_decimal (s : string) : int s = decimal_value s.
Proof. unfold int. rewrite int_from_decimal. lia. Qed.

Example isdigit_examples :
  isdigit "2" = true /\ isdigit "0042" = true /\ int "0042" = 42 /\
  isdigit "" = false /\ isdigit "4x" = false /\ isdigit "-1" = false.
Proof. repeat split; reflexivity. Qed.

Example str_isdigit_examples :
  str_isdigit cpython "2" = true /\ int_str cpython "2" = Ok 2 /\
  str_isdigit cpython arabic_three = true /\ int_str cpython arabic_three = Ok 3 /\
  str_isdigit cpython superscript_two = true /\
  (exists text, int_str cpython superscript_two = Raised (ValueError text)).
Proof. repeat split; try reflexivity. eexists. reflexivity. Qed.

(** ** The constructor of DecidedEvent *)

Lemma heap_setitem_same (h : heap) (l : loc) (k : string) (v : pyval) :
  heap_setitem h l k v l = dict_set (h l) k v.
Proof. unfold heap_setitem. apply fn_lookup_insert. Qed.

Lemma heap_setitem_other (h : heap) (l l' : loc) (k : string) (v : pyval) :
  l <> l' -> heap_setitem h l k v l' = h l'.
Proof. intros Hl. unfold heap_setitem. now apply fn_lookup_insert_ne. Qed.

Section Constructor.

Variable P : Python.

Lemma coerced_value_Ok (v v' : pyval) : coerced P v = Ok v' -> coerced_value P v = v'.
Proof. unfold coerced_value. now intros ->. Qed.

(** A value that went through the loop is left as it is by a second round. *)
Lemma coerced_Ok_fixed (v v' : pyval) : coerced P v = Ok v' -> coerced P v' = Ok v'.
Proof.
  destruct v as [| | |s|]; simpl; try (intros [= <-]; reflexivity).
  destruct (str_isdigit P s) eqn:Hs.
  - destruct (int_str P s); intros [= <-]. reflexivity.
  - intros [= <-]. simpl. now rewrite Hs.
Qed.

Lemma coerced_value_idem (v : pyval) :
  coerced_value P (coerced_value P v) = coerced_value P v.
Proof.
  unfold coerced_value at 2 3. destruct (coerced P v) as [v'|e] eqn:Hc.
  - apply coerced_value_Ok. now apply coerced_Ok_fixed with v.
  - unfold coerced_value. now rewrite Hc.
Qed.

Lemma coerced_Ok_not_digit_string (v : pyval) (s : string) :
  coerced P v = Ok (VStr s) -> str_isdigit P s = false.
Proof.
  destruct v as [| | |s0|]; simpl; try discriminate.
  destruct (str_isdigit P s0) eqn:Hs.
  - destruct (int_str P s0); discriminate.
  - now intros [= <-].
Qed.

(** One round of the loop in terms of [coerced]. *)
Lemma coerce_item_Ok (l : loc) (h h' : heap) (k0 : string) :
  coerce_item P l h k0 = Ok h' ->
  (forall v, dict_get (h l) k0 = Some v -> coerced P v = Ok (coerced_value P v)) /\
  (forall k, dict_get (h' l) k =
             if String.eqb k0 k then coerced_value P <$> dict_get (h l) k
             else dict_get (h l) k) /\
  dict_keys (h' l) = dict_keys (h l) /\
  (forall l', l <> l' -> h' l' = h l').
Proof.
  unfold coerce_item.
  destruct (dict_get (h l) k0) as [v|] eqn:Hg.
  - assert (forall k, k0 <> k -> (if String.eqb k0 k then coerced_value P <$> dict_get (h l) k
                                  else dict_get (h l) k) = dict_get (h l) k) as Hne.
    { intros k Hk. apply String.eqb_neq in Hk. now rewrite Hk. }
    assert (coerced P v = Ok v -> coerced_value P v = v) as Hsame by apply coerced_value_Ok.
    destruct v as [| | |s|];
      try (intros [= <-]; repeat split; auto;
           [intros v [= <-]; reflexivity
           |intros k; destruct (String.eqb k0 k) eqn:Hk; auto;
            apply String.eqb_eq in Hk; subst k; now rewrite Hg]).
    destruct (str_isdigit P s) eqn:Hs.
    + destruct (int_str P s) as [n|e] eqn:Hi; [|discriminate].
      intros [= <-].
      assert (coerced P (VStr s) = Ok (VInt n)) as Hc by (simpl; now rewrite Hs, Hi).
      repeat split.
      * intros v [= <-]. now rewrite (coerced_value_Ok _ _ Hc).
      * intros k. rewrite heap_setitem_same, dict_get_set.
        destruct (String.eqb k0 k) eqn:Hk; auto.
        apply String.eqb_eq in Hk. subst k. rewrite Hg. simpl.
        now rewrite (coerced_value_Ok _ _ Hc).
      * rewrite heap_setitem_same. apply dict_keys_set_present.
        unfold dict_contains. now rewrite Hg.
      * intros l' Hl. now apply heap_setitem_other.
    + intros [= <-].
      assert (coerced P (VStr s) = Ok (VStr s)) as Hc by (simpl; now rewrite Hs).
      repeat split; auto.
      * intros v [= <-]. now rewrite (coerced_value_Ok _ _ Hc).
      * intros k. destruct (String.eqb k0 k) eqn:Hk; auto.
        apply String.eqb_eq in Hk. subst k. rewrite Hg. simpl.
        now rewrite (coerced_value_Ok _ _ Hc).
  - intros [= <-]. repeat split; auto.
    + discriminate.
    + intros k. destruct (String.eqb k0 k) eqn:Hk; auto.
      apply String.eqb_eq in Hk. subst k. now rewrite Hg.
Qed.

Lemma coerce_item_Raised (l : loc) (h : heap) (k0 : string) (e : exn) :
  coerce_item P l h k0 = Raised e <->
  exists v, dict_get (h l) k0 = Some v /\ coerced P v = Raised e.
Proof.
  unfold coerce_item. split.
  - destruct (dict_get (h l) k0) as [[| | |s|]|]; try discriminate.
    intros H. exists (VStr s). split; [reflexivity|]. simpl.
    destruct (str_isdigit P s); [|discriminate].
    destruct (int_str P s); [discriminate|congruence].
  - intros (v & -> & Hc). destruct v as [| | |s|]; try discriminate.
    simpl in Hc. destruct (str_isdigit P s); [|discriminate].
    destruct (int_str P s); [discriminate|congruence].
Qed.

(** The whole loop: the keys and the other mappings stay in any case. *)
Lemma coerce_loop_keys (l : loc) (ks : list string) (h : heap) :
  dict_keys (snd (coerce_loop P l ks h) l) = dict_keys (h l).
Proof.
  revert h. induction ks as [|k0 ks IH]; intros h; simpl; auto.
  destruct (coerce_item P l h k0) as [h1|e] eqn:Hi; auto.
  rewrite IH. now apply coerce_item_Ok in Hi.
Qed.

Lemma coerce_loop_frame (l l' : loc) (ks : list string) (h : heap) :
  l <> l' -> snd (coerce_loop P l ks h) l' = h l'.
Proof.
  intros Hl. revert h. induction ks as [|k0 ks IH]; intros h; simpl; auto.
  destruct (coerce_item P l h k0) as [h1|e] eqn:Hi; auto.
  rewrite IH. apply coerce_item_Ok in Hi. now apply Hi.
Qed.

(** The loop when it comes to its end. *)
Lemma coerce_loop_None (l : loc) (ks : list string) (h h' : heap) :
  coerce_loop P l ks h = (None, h') ->
  (forall k v, existsb (fun k0 => String.eqb k0 k) ks = true ->
               dict_get (h l) k = Some v -> coerced P v = Ok (coerced_value P v)) /\
  (forall k, dict_get (h' l) k =
             if existsb (fun k0 => String.eqb k0 k) ks
             then coerced_value P <$> dict_get (h l) k
             else dict_get (h l) k).
Proof.
  revert h. induction ks as [|k0 ks IH]; intros h; simpl.
  - intros [= <-]. split; [discriminate|reflexivity].
  - destruct (coerce_item P l h k0) as [h1|e] eqn:Hi; [|discriminate].
    intros Hloop. destruct (IH _ Hloop) as (IH1 & IH2).
    destruct (coerce_item_Ok _ _ _ _ Hi) as (Hv & Hget & _ & _).
    split.
    + intros k v Hin Hg.
      destruct (String.eqb k0 k) eqn:Hk.
      * apply String.eqb_eq in Hk. subst k0. now apply Hv.
      * simpl in Hin. apply (IH1 k v Hin). now rewrite Hget, Hk.
    + intros k. rewrite IH2, Hget.
      destruct (String.eqb k0 k); simpl; auto.
      destruct (existsb _ ks); auto.
      destruct (dict_get (h l) k); simpl; auto. now rewrite coerced_value_idem.
Qed.

(** The loop stops with an exception exactly when [int] raises on a value. *)
Lemma coerce_loop_Some (l : loc) (ks : list string) (h h' : heap) (e : exn) :
  coerce_loop P l ks h = (Some e, h') ->
  exists k v, In k ks /\ dict_get (h l) k = Some v /\ coerced P v = Raised e.
Proof.
  revert h. induction ks as [|k0 ks IH]; intros h; simpl; [discriminate|].
  destruct (coerce_item P l h k0) as [h1|e0] eqn:Hi.
  - intros Hloop. destruct (IH _ Hloop) as (k & v & Hin & Hg & Hc).
    destruct (coerce_item_Ok _ _ _ _ Hi) as (Hv & Hget & _ & _).
    rewrite Hget in Hg.
    destruct (String.eqb k0 k) eqn:Hk.
    + apply String.eqb_eq in Hk. subst k0.
      destruct (dict_get (h l) k) as [v0|] eqn:Hg0; [|discriminate].
      injection Hg as <-.
      pose proof (Hv v0 eq_refl) as Hv0.
      apply coerced_Ok_fixed in Hv0. congruence.
    + exists k, v. auto.
  - intros [= <- <-]. apply coerce_item_Raised in Hi. destruct Hi as (v & Hg & Hc).
    exists k0, v. auto.
Qed.

Lemma coerce_loop_raises (l : loc) (ks : list string) (h : heap) (k : string) (v : pyval) (e : exn) :
  In k ks -> dict_get (h l) k = Some v -> coerced P v = Raised e ->
  exists e' h', coerce_loop P l ks h = (Some e', h').
Proof.
  revert h. induction ks as [|k0 ks IH]; intros h; simpl; [contradiction|].
  intros Hin Hg Hc.
  destruct (coerce_item P l h k0) as [h1|e0] eqn:Hi; [|eauto].
  destruct (coerce_item_Ok _ _ _ _ Hi) as (Hv & Hget & _ & _).
  destruct (String.eqb k0 k) eqn:Hk.
  - apply String.eqb_eq in Hk. subst k0. rewrite (Hv v Hg) in Hc. discriminate.
  - destruct Hin as [->|Hin]; [now rewrite String.eqb_refl in Hk|].
    apply IH; auto. now rewrite Hget, Hk.
Qed.

Lemma DecidedEvent_init_Ok (raw : loc) (h h' : heap) (ev : DecidedEvent) :
  DecidedEvent_init P raw h = (Ok ev, h') ->
  ev = mkDecidedEvent raw None (VStr (str_dict P (h' raw))) [] false true None /\
  (forall k v, dict_get (h raw) k = Some v -> coerced P v = Ok (coerced_value P v)) /\
  (forall k, dict_get (h' raw) k = coerced_value P <$> dict_get (h raw) k).
Proof.
  unfold DecidedEvent_init.
  destruct (coerce_loop P raw (dict_keys (h raw)) h) as [[e|] h1] eqn:Hloop; [discriminate|].
  intros [= <- <-]. destruct (coerce_loop_None _ _ _ _ Hloop) as (H1 & H2).
  split; [reflexivity|]. split.
  - intros k v Hg. apply (H1 k v); auto. now apply dict_get_in_keys with v.
  - intros k. rewrite H2. destruct (dict_get (h raw) k) eqn:Hg; simpl.
    + now rewrite (dict_get_in_keys _ _ _ Hg).
    + now destruct (existsb _ _).
Qed.

(** The only exception of the constructor is the ValueError of [int]. *)
Lemma int_str_Raised (s : string) (e : exn) :
  int_str P s = Raised e -> exn_class e = "ValueError" /\ is_Exception e = true.
Proof.
  unfold int_str. destruct (is_ascii s).
  - destruct (int_max_str_digits P) as [limit|]; [|discriminate].
    destruct (limit <? String.length s)%nat; [|discriminate].
    intros [= <-]. split; reflexivity.
  - destruct (unicode_int P s); [discriminate|].
    intros [= <-]. split; reflexivity.
Qed.

Lemma coerced_Raised (v : pyval) (e : exn) :
  coerced P v = Raised e -> exn_class e = "ValueError" /\ is_Exception e = true.
Proof.
  destruct v as [| | |s|]; simpl; try discriminate.
  destruct (str_isdigit P s); [|discriminate].
  destruct (int_str P s) as [n|e0] eqn:Hi; [discriminate|].
  intros [= <-]. now apply int_str_Raised with s.
Qed.

Lemma DecidedEvent_init_Raised (raw : loc) (h h' : heap) (e : exn) :
  DecidedEvent_init P raw h = (Raised e, h') ->
  exn_class e = "ValueError" /\ is_Exception e = true.
Proof.
  unfold DecidedEvent_init.
  destruct (coerce_loop P raw (dict_keys (h raw)) h) as [[e0|] h1] eqn:Hloop; [|discriminate].
  intros [= <- <-].
  destruct (coerce_loop_Some _ _ _ _ _ Hloop) as (k & v & _ & _ & Hc).
  now apply coerced_Raised with v.
Qed.

Lemma DecidedEvent_init_snd (raw : loc) (h : heap) :
  snd (DecidedEvent_init P raw h) = snd (coerce_loop P raw (dict_keys (h raw)) h).
Proof.
  unfold DecidedEvent_init. now destruct (coerce_loop _ _ _ _) as [[e|] h1].
Qed.

Lemma In_dict_keys (d : pydict) (k : string) (v : pyval) :
  dict_get d k = Some v -> In k (dict_keys d).
Proof.
  induction d as [|[k0 v0] r IH]; simpl; [discriminate|].
  destruct (String.eqb k0 k) eqn:Hk; auto.
  apply String.eqb_eq in Hk. auto.
Qed.

End Constructor.

(** C6.  The constructor does not normalize every raw event.  Where the raw
    event holds, at some key, a string that [isdigit] accepts and [int]
    rejects (a digit that is no decimal digit, such as the superscript two,
    or more digits than the interpreter converts), [DecidedEvent(raw)] raises
    the exception of [int] at the first such key and no event is made. *)
Theorem DecidedEvent_init_raises
  (P : Python) (raw : loc) (h : heap) (k : string) (s : string) (e : exn) :
  dict_get (h raw) k = Some (VStr s) ->
  str_isdigit P s = true ->
  int_str P s = Raised e ->
  exists e' h',
    DecidedEvent_init P raw h = (Raised e', h') /\
    exists k' s',
      dict_get (h raw) k' = Some (VStr s') /\ str_isdigit P s' = true /\
      int_str P s' = Raised e'.
Proof.
  intros Hg Hs Hi.
  assert (coerced P (VStr s) = Raised e) as Hc by (simpl; now rewrite Hs, Hi).
  destruct (coerce_loop_raises P raw (dict_keys (h raw)) h k _ e
              (In_dict_keys _ _ _ Hg) Hg Hc) as (e' & h' & Hloop).
  exists e', h'. split.
  - unfold DecidedEvent_init. now rewrite Hloop.
  - destruct (coerce_loop_Some _ _ _ _ _ _ Hloop) as (k' & v & _ & Hg' & Hc').
    destruct v as [| | |s'|]; try discriminate.
    simpl in Hc'. destruct (str_isdigit P s') eqn:Hs'; [|discriminate].
    destruct (int_str P s') as [n|e0] eqn:Hi'; [discriminate|].
    injection Hc' as ->. exists k', s'. auto.
Qed.

Lemma DecidedEvent_init_raises_witness :
  exists e' h',
    DecidedEvent_init cpython 0%nat (fun _ => [("perfdata", VStr superscript_two)])
      = (Raised e', h') /\
    exn_class e' = "ValueError" /\
    h' 0%nat = [("perfdata", VStr superscript_two)].
Proof.
  destruct (DecidedEvent_init_raises cpython 0%nat
              (fun _ => [("perfdata", VStr superscript_two)]) "perfdata" superscript_two
              (invalid_literal superscript_two)
              eq_refl eq_refl eq_refl) as (e' & h' & Heq & _).
  exists e', h'. split; [exact Heq|].
  vm_compute in Heq. injection Heq as <- <-. split; reflexivity.
Defined.

(** A value of more digits than the interpreter converts stops the
    constructor as well. *)
Example DecidedEvent_init_digit_limit :
  fst (DecidedEvent_init cpython 0%nat
         (fun _ => [("output", VStr (String.concat "" (repeat "7" 4301)))]))
  = Raised (ValueError "Exceeds the limit for integer string conversion").
Proof. vm_compute. reflexivity. Qed.

Example DecidedEvent_init_cpu :
  snd (DecidedEvent_init cpython 0%nat cpu_heap) 0%nat =
  [("service_description", VStr "CPU"); ("state", VInt 2); ("output", VStr "CRIT")].
Proof. reflexivity. Qed.

(** C9, as the code has it.  [DecidedEvent(raw)] keeps a reference to the
    caller's mapping, not a copy: [eventopts] is the caller's object and the
    coercion of digit strings is done in place on it, so that the caller's
    mapping holds the coerced values when the constructor returns; its keys
    stay, and no other mapping of the store changes, whether the constructor
    returns or raises. *)
Theorem DecidedEvent_init_in_place
  (P : Python) (raw : loc) (h : heap) (k : string) (l : loc) :
  let r := fst (DecidedEvent_init P raw h) in
  let h' := snd (DecidedEvent_init P raw h) in
  (forall ev, r = Ok ev ->
     _eventopts ev = raw /\
     eventopts ev h' = h' raw /\
     dict_get (h' raw) k = coerced_value P <$> dict_get (h raw) k /\
     forall v, dict_get (h raw) k = Some v -> coerced P v = Ok (coerced_value P v)) /\
  dict_keys (h' raw) = dict_keys (h raw) /\
  h' l = if Nat.eqb l raw then h' raw else h l.
Proof.
  cbv zeta. split; [|split].
  - intros ev Hr.
    destruct (DecidedEvent_init P raw h) as [r h'] eqn:Hinit. cbn [fst snd] in *. subst r.
    destruct (DecidedEvent_init_Ok P _ _ _ _ Hinit) as (-> & Hv & Hget).
    repeat split; auto. intros v. apply Hv.
  - rewrite DecidedEvent_init_snd. apply coerce_loop_keys.
  - rewrite DecidedEvent_init_snd.
    destruct (Nat.eqb l raw) eqn:Hl.
    + apply Nat.eqb_eq in Hl. now subst.
    + apply Nat.eqb_neq in Hl. apply coerce_loop_frame. congruence.
Qed.

(** C9 as stated fails: constructing the event for the raw event
    [{"state": "2", ...}] changes the caller's mapping. *)
Lemma DecidedEvent_init_changes_caller_mapping :
  dict_get (cpu_heap 0%nat) "state" = Some (VStr "2") /\
  dict_get (snd (DecidedEvent_init cpython 0%nat cpu_heap) 0%nat) "state"
    = Some (VInt 2) /\
  snd (DecidedEvent_init cpython 0%nat cpu_heap) 0%nat <> cpu_heap 0%nat.
Proof. repeat split. vm_compute. discriminate. Qed.

(** ** discard *)

(** C7, as the code has it.  [discard(silently)] sets [is_discarded] and
    sets [is_discarded_silently] to [silently] itself; the other fields
    keep their values. *)
Theorem discard_sets_flags (self : DecidedEvent) (silently : bool) :
  let ev := discard self (VBool silently) in
  _discarded ev = true /\
  _discarded_silently ev = silently /\
  _eventopts ev = _eventopts self /\ _payload ev = _payload self /\
  _summary ev = _summary self /\ _runneropts ev = _runneropts self /\
  _is_heartbeat ev = _is_heartbeat self.
Proof. simpl. destruct silently; repeat split. Qed.

(** C7 as stated fails: after [discard(True)] the flag is [True], not the
    negation of the argument. *)
Lemma discard_silently_not_negated :
  _discarded_silently (discard cpu_decided (VBool true)) <> negb true.
Proof. simpl. discriminate. Qed.

(** ** Traces *)

Lemma logged_app (lv : level) (t t' : list effect) :
  logged lv (t ++ t')%list = (logged lv t ++ logged lv t')%list.
Proof.
  induction t as [|e t IH]; simpl; auto.
  destruct e as [lv' msg| |]; auto.
  destruct (level_eqb lv' lv); simpl; now rewrite IH.
Qed.

Lemma no_command_app (t t' : list effect) :
  no_command (t ++ t')%list <-> no_command t /\ no_command t'.
Proof.
  unfold no_command. rewrite forallb_app. apply andb_true_iff.
Qed.

(** ** Attributes of the runner *)

Lemma instance_attr_set (self : Runner) (k k' : string) (v : pyval) :
  instance_attr (set_instance_attr self k v) k' =
  if String.eqb k k' then Some v else instance_attr self k'.
Proof.
  unfold instance_attr, set_instance_attr.
  destruct (String.eqb k k') eqn:Hk.
  - apply String.eqb_eq in Hk. subst k'.
    destruct (String.eqb k "baseclass_logs_summary"); simpl; auto.
    apply lookup_insert_eq.
  - apply String.eqb_neq in Hk.
    destruct (String.eqb k "baseclass_logs_summary") eqn:Hb; simpl.
    + apply String.eqb_eq in Hb. subst k.
      apply String.eqb_neq in Hk. rewrite String.eqb_sym. now rewrite Hk.
    + destruct (String.eqb k' "baseclass_logs_summary"); auto.
      now apply lookup_insert_ne.
Qed.

Lemma runner_class_set (self : Runner) (k : string) (v : pyval) :
  runner_class (set_instance_attr self k v) = runner_class self.
Proof. unfold set_instance_attr. now destruct (String.eqb k "baseclass_logs_summary"). Qed.

Lemma getattr_set (self : Runner) (k k' : string) (v : pyval) :
  getattr (set_instance_attr self k v) k' =
  if String.eqb k k' then Some (Value v) else getattr self k'.
Proof.
  unfold getattr. rewrite instance_attr_set, runner_class_set.
  now destruct (String.eqb k k').
Qed.

Lemma hasattr_set (self : Runner) (k k' : string) (v : pyval) :
  hasattr (set_instance_attr self k v) k' = String.eqb k k' || hasattr self k'.
Proof.
  unfold hasattr. rewrite getattr_set. now destruct (String.eqb k k').
Qed.

Lemma getattr_instance (self : Runner) (k : string) (v : pyval) :
  instance_attr self k = Some v -> getattr self k = Some (Value v).
Proof. unfold getattr. now intros ->. Qed.

Lemma hasattr_instance (self : Runner) (k : string) (v : pyval) :
  instance_attr self k = Some v -> hasattr self k = true.
Proof. intros H. unfold hasattr. now rewrite (getattr_instance _ _ _ H). Qed.

Lemma guarded_name_hasattr (self : Runner) (k : string) :
  guarded_name k = true -> hasattr self k = true.
Proof.
  unfold guarded_name. rewrite !orb_true_iff, !String.eqb_eq.
  intros [[->| ->]| ->]; unfold hasattr; destruct (getattr self _); reflexivity.
Qed.

(** The loop of [overwrite_attributes]: the class stays, and so does what
    [hasattr] says of any name. *)
Lemma overwrite_loop_class (payload : pydict) (ks : list string) (self : Runner) :
  runner_class (snd (overwrite_loop payload ks self)) = runner_class self.
Proof.
  revert self. induction ks as [|k0 ks IH]; intros self; simpl; auto.
  destruct (hasattr self k0); auto.
  destruct (dict_get payload k0) as [v|]; auto.
  unfold setattr. destruct (guarded_name k0); auto.
  rewrite IH. apply runner_class_set.
Qed.

Lemma overwrite_loop_hasattr (payload : pydict) (ks : list string) (self : Runner) (k : string) :
  hasattr (snd (overwrite_loop payload ks self)) k = hasattr self k.
Proof.
  revert self. induction ks as [|k0 ks IH]; intros self; simpl; auto.
  destruct (hasattr self k0) eqn:Hh; auto.
  destruct (dict_get payload k0) as [v|]; auto.
  unfold setattr. destruct (guarded_name k0); auto.
  rewrite IH, hasattr_set.
  destruct (String.eqb k0 k) eqn:Hk; auto.
  apply String.eqb_eq in Hk. subst k0. now rewrite Hh.
Qed.

(** A name the loop does not visit, or one that is no attribute, keeps
    what the instance holds for it. *)
Lemma overwrite_loop_other (payload : pydict) (ks : list string) (self : Runner) (k : string) :
  existsb (fun k0 => String.eqb k0 k) ks && hasattr self k = false ->
  instance_attr (snd (overwrite_loop payload ks self)) k = instance_attr self k.
Proof.
  revert self. induction ks as [|k0 ks IH]; intros self; simpl; auto.
  intros Hk.
  destruct (hasattr self k0) eqn:Hh.
  - destruct (dict_get payload k0) as [v|].
    + unfold setattr. destruct (guarded_name k0); auto.
      destruct (String.eqb k0 k) eqn:Hk0.
      * apply String.eqb_eq in Hk0. subst k0. rewrite Hh in Hk. discriminate.
      * rewrite IH.
        -- now rewrite instance_attr_set, Hk0.
        -- now rewrite hasattr_set, Hk0.
    + apply IH. destruct (String.eqb k0 k); auto.
      simpl in Hk. now rewrite Hk, andb_false_r.
  - apply IH. destruct (String.eqb k0 k) eqn:Hk0; auto.
    apply String.eqb_eq in Hk0. subst k0. rewrite Hh. apply andb_false_r.
Qed.

(** When the loop comes to its end, a name it visited that was an attribute
    holds the value of the payload. *)
Lemma overwrite_loop_None (payload : pydict) (ks : list string) (self self' : Runner) (k : string) (v : pyval) :
  overwrite_loop payload ks self = (None, self') ->
  existsb (fun k0 => String.eqb k0 k) ks = true ->
  hasattr self k = true ->
  dict_get payload k = Some v ->
  instance_attr self' k = Some v /\ guarded_name k = false.
Proof.
  revert self. induction ks as [|k0 ks IH]; intros self; simpl; [discriminate|].
  intros Hloop Hin Hh Hp.
  destruct (String.eqb k0 k) eqn:Hk0.
  - apply String.eqb_eq in Hk0. subst k0. rewrite Hh, Hp in Hloop.
    unfold setattr in Hloop. destruct (guarded_name k) eqn:Hg; [discriminate|].
    split; [|reflexivity].
    pose proof (IH _ Hloop) as IH'.
    destruct (existsb (fun k0 => String.eqb k0 k) ks) eqn:Hin'.
    + apply IH'; auto. now rewrite hasattr_set, String.eqb_refl.
    + pose proof (overwrite_loop_other payload ks (set_instance_attr self k v) k) as Ho.
      rewrite Hloop, Hin' in Ho. cbn [snd] in Ho. rewrite Ho by reflexivity.
      now rewrite instance_attr_set, String.eqb_refl.
  - simpl in Hin.
    destruct (hasattr self k0); [|now apply (IH _ Hloop)].
    destruct (dict_get payload k0) as [v0|]; [|now apply (IH _ Hloop)].
    unfold setattr in Hloop. destruct (guarded_name k0); [discriminate|].
    apply (IH _ Hloop); auto. now rewrite hasattr_set, Hk0.
Qed.

(** The loop stops exactly at a guarded name of the payload. *)
Lemma overwrite_loop_Some (payload : pydict) (ks : list string) (self self' : Runner) (e : exn) :
  overwrite_loop payload ks self = (Some e, self') ->
  exists k v, In k ks /\ guarded_name k = true /\ dict_get payload k = Some v /\
              e = setattr_error k v.
Proof.
  revert self. induction ks as [|k0 ks IH]; intros self; simpl; [discriminate|].
  destruct (hasattr self k0).
  - destruct (dict_get payload k0) as [v|] eqn:Hp.
    + unfold setattr. destruct (guarded_name k0) eqn:Hg.
      * intros [= <- <-]. exists k0, v. auto.
      * intros H. destruct (IH _ H) as (k & v' & ? & ?). exists k, v'. auto.
    + intros H. destruct (IH _ H) as (k & v' & ? & ?). exists k, v'. auto.
  - intros H. destruct (IH _ H) as (k & v' & ? & ?). exists k, v'. auto.
Qed.

Lemma overwrite_loop_no_guarded (payload : pydict) (ks : list string) (self : Runner) :
  forallb (fun k => negb (guarded_name k)) ks = true ->
  fst (overwrite_loop payload ks self) = None.
Proof.
  intros Hks.
  destruct (overwrite_loop payload ks self) as [[e|] self'] eqn:Hloop; [|reflexivity].
  destruct (overwrite_loop_Some _ _ _ _ _ Hloop) as (k & v & Hin & Hg & _).
  rewrite forallb_forall in Hks. specialize (Hks k Hin). now rewrite Hg in Hks.
Qed.

(** [overwrite_attributes] when it returns: what the instance holds then. *)
Lemma overwrite_attributes_None (self self' : Runner) (payload : pydict) (k : string) :
  overwrite_attributes self payload = (None, self') ->
  instance_attr self' k =
  if hasattr self k
  then match dict_get payload k with
       | Some v => Some v
       | None => instance_attr self k
       end
  else instance_attr self k.
Proof.
  unfold overwrite_attributes. intros Hloop.
  destruct (hasattr self k) eqn:Hh.
  - destruct (dict_get payload k) as [v|] eqn:Hp.
    + apply (overwrite_loop_None _ _ _ _ _ _ Hloop); auto.
      now apply dict_get_in_keys with v.
    + pose proof (overwrite_loop_other payload (dict_keys payload) self k) as Ho.
      rewrite Hloop in Ho. apply Ho.
      assert (existsb (fun k0 => String.eqb k0 k) (dict_keys payload) = false) as ->; auto.
      clear -Hp. induction payload as [|[k0 v0] r IH]; simpl in *; auto.
      destruct (String.eqb k0 k); [discriminate|auto].
  - pose proof (overwrite_loop_other payload (dict_keys payload) self k) as Ho.
    rewrite Hloop in Ho. apply Ho. now rewrite Hh, andb_false_r.
Qed.

Example overwrite_attributes_notify :
  exists self,
    overwrite_attributes notify_runner
      [("contact", VStr "oncall"); ("pager", VInt 7); ("connect", VBool false)] = (None, self) /\
    instance_attr self "contact" = Some (VStr "oncall") /\
    hasattr self "pager" = false /\
    getattr notify_runner "connect" = Some (Method "connect") /\
    instance_attr self "connect" = Some (VBool false) /\
    instance_attr self "runner_name" = Some (VStr "notify") /\
    instance_attr self "baseclass_logs_summary" = Some (VBool true).
Proof. eexists. split; [reflexivity|]. vm_compute. repeat split. Qed.

Example overwrite_attributes_guarded :
  exists e self,
    overwrite_attributes notify_runner [("contact", VStr "oncall"); ("__class__", VStr "x")]
      = (Some e, self) /\
    exn_class e = "TypeError" /\
    instance_attr self "contact" = Some (VStr "oncall").
Proof. do 2 eexists. split; [reflexivity|]. vm_compute. split; reflexivity. Qed.

(** ** run_decided *)

Example truthy_examples :
  truthy VNone = false /\ truthy (VStr "") = false /\ truthy (VStr "ls") = true /\
  truthy (VInt 0) = false /\ truthy (VInt 3) = true /\ truthy (VBool false) = false /\
  truthy (VBytes []) = false /\ truthy (VBytes (list_byte_of_string "x")) = true.
Proof. repeat split. Qed.

Section RunDecided.

Variable E : Env.

(** The [try] statement of [run_decided] in terms of what [run] and the
    subprocess do. *)
Lemma attempt_some (ev : DecidedEvent) (w : world) :
  attempt E (Some ev) w =
  let '(r, ev1, w1, t0) := self_run E ev w in
  let executed command :=
    (t0 ++ [Log DEBUG [Lit "command is "; Arg command]; Popen command])%list in
  match r with
  | Raised e =>
      if is_Exception e then (Ok (excepted e, Some ev1), w1, t0) else (Raised e, w1, t0)
  | Ok command =>
      if truthy command then
        match subprocess E command with
        | Raised e =>
            if is_Exception e then (Ok (excepted e, Some ev1), w1, executed command)
            else (Raised e, w1, executed command)
        | Ok (out, err, code) =>
            (Ok (mkLocals (code =? 0) (VBytes out) (VBytes err) code VNone, Some ev1), w1,
             executed command)
        end
      else
        (Ok (excepted (Exn "Exception" "runner did not return a command"), Some ev1), w1, t0)
  end.
Proof.
  unfold attempt, bind, call_run.
  destruct (self_run E ev w) as [[[r ev1] w1] t0].
  destruct r as [command|e]; cbv zeta.
  - destruct (truthy command); simpl.
    + unfold logger, emit, bind, call_subprocess, ret, except_Exception, raise.
      destruct (subprocess E command) as [[[out err] code]|e]; [reflexivity|].
      destruct (is_Exception e); reflexivity.
    + unfold ret. now rewrite app_nil_r.
  - unfold except_Exception, ret, raise.
    destruct (is_Exception e); now rewrite app_nil_r.
Qed.

(** The part of [run_decided] after the [try] statement. *)
Lemma run_decided_after_attempt
  (ev ev1 : DecidedEvent) (w w1 : world) (l : locals) (t1 : list effect) :
  attempt E (Some ev) w = (Ok (l, Some ev1), w1, t1) ->
  let x := run_decided E (Some ev) w in
  let logs_summary := truthy (baseclass_logs_summary (w_self w1)) in
  value x = Ok (VBool (success l)) /\
  final x = w1 /\
  logged INFO (effects x) =
    (logged INFO t1 ++
     if success l && logs_summary then [[Arg (_summary ev1)]] else [])%list /\
  logged CRITICAL (effects x) =
    (logged CRITICAL t1 ++
     if success l then []
     else if truthy (stderr l)
          then [failed_stderr_line (stdout l) (stderr l) (_summary ev1)]
     else if truthy (decide_exception_msg l)
          then [failed_exception_line (decide_exception_msg l) (_summary ev1)]
     else if logs_summary
          then [failed_exitcode_line (stdout l) (stderr l) (exit_code l) (_summary ev1)]
     else [])%list.
Proof.
  intros Ha. unfold run_decided, bind. rewrite Ha. cbn [get_self w_self].
  destruct (success l); cbn [andb];
    destruct (truthy (baseclass_logs_summary (w_self w1)));
    try destruct (truthy (stderr l));
    try destruct (truthy (decide_exception_msg l));
    cbn; rewrite ?logged_app, ?app_nil_r; cbn; auto.
Qed.

(** When the [try] statement lets an exception pass, so does
    [run_decided], and it logs nothing more. *)
Lemma run_decided_passes
  (ev : DecidedEvent) (w w1 : world) (e : exn) (t1 : list effect) :
  attempt E (Some ev) w = (Raised e, w1, t1) ->
  run_decided E (Some ev) w = (Raised e, w1, t1).
Proof. intros Ha. unfold run_decided, bind. now rewrite Ha. Qed.

(** What [self.run] leaves in the trace: the call of [run], if it came to
    it. *)
Lemma self_run_effects (ev : DecidedEvent) (w : world) :
  snd (self_run E ev w) = [Run (w_self w) ev] \/ snd (self_run E ev w) = [].
Proof.
  unfold self_run. destruct (getattr (w_self w) "run") as [[v|m]|]; auto.
  destruct (run E (w_self w) ev (w_heap w)) as [[[r self1] ev1] h1]. auto.
Qed.

(** The trace of [run_decided]: what [self.run] leaves, then lines and at
    most one start of a subprocess. *)
Lemma run_decided_effects (ev : DecidedEvent) (w : world) :
  exists t,
    effects (run_decided E (Some ev) w) = (snd (self_run E ev w) ++ t)%list /\
    forall x, In x t -> is_Run x = false.
Proof.
  pose proof (attempt_some ev w) as Ha.
  destruct (self_run E ev w) as [[[r ev1] w1] t0].
  cbv zeta in Ha. cbn [snd].
  assert (forall l w' t,
            attempt E (Some ev) w = (Ok (l, Some ev1), w', t) ->
            exists t', effects (run_decided E (Some ev) w) = (t ++ t')%list /\
                       forall x, In x t' -> is_Run x = false) as Hafter.
  { intros l w' t Hatt. unfold run_decided, bind. rewrite Hatt. cbn [get_self].
    destruct (success l); destruct (truthy (baseclass_logs_summary (w_self w')));
      try destruct (truthy (stderr l)); try destruct (truthy (decide_exception_msg l));
      cbn; eexists; (split; [reflexivity|]); cbn;
      intros x Hx; repeat (destruct Hx as [<-|Hx]; [reflexivity|]); contradiction. }
  assert (forall command t',
            (forall x, In x t' -> is_Run x = false) ->
            forall x,
              In x ([Log DEBUG [Lit "command is "; Arg command]; Popen command] ++ t')%list ->
              is_Run x = false) as Hexec.
  { intros command t' Hnot x Hx. cbn in Hx.
    repeat (destruct Hx as [<-|Hx]; [reflexivity|]). now apply Hnot. }
  destruct r as [command|e0].
  - destruct (truthy command).
    + destruct (subprocess E command) as [[[out err] code]|e0].
      * destruct (Hafter _ _ _ Ha) as (t' & Heq & Hnot). rewrite Heq, <- app_assoc.
        eexists. split; [reflexivity|]. now apply Hexec.
      * destruct (is_Exception e0).
        -- destruct (Hafter _ _ _ Ha) as (t' & Heq & Hnot). rewrite Heq, <- app_assoc.
           eexists. split; [reflexivity|]. now apply Hexec.
        -- rewrite (run_decided_passes _ _ _ _ _ Ha). cbn [effects snd].
           eexists. split; [reflexivity|].
           intros x Hx. apply (Hexec command [] (fun x H => match H with end)).
           now rewrite app_nil_r.
    + destruct (Hafter _ _ _ Ha) as (t' & Heq & Hnot). rewrite Heq. eauto.
  - destruct (is_Exception e0).
    + destruct (Hafter _ _ _ Ha) as (t' & Heq & Hnot). rewrite Heq. eauto.
    + rewrite (run_decided_passes _ _ _ _ _ Ha). cbn [effects snd].
      exists []. split; [now rewrite app_nil_r|]. intros x [].
Qed.

(** [run_decided] on an event returns a boolean, unless an exception passes
    that is not derived from [Exception]. *)
Lemma run_decided_returns (ev : DecidedEvent) (w : world) :
  (exists b, value (run_decided E (Some ev) w) = Ok (VBool b)) \/
  (exists e, value (run_decided E (Some ev) w) = Raised e /\ is_Exception e = false).
Proof.
  pose proof (attempt_some ev w) as Ha.
  destruct (self_run E ev w) as [[[r ev1] w1] t0].
  cbv zeta in Ha.
  assert (forall l w' t,
            attempt E (Some ev) w = (Ok (l, Some ev1), w', t) ->
            exists b, value (run_decided E (Some ev) w) = Ok (VBool b)) as Hafter.
  { intros l w' t Hatt.
    destruct (run_decided_after_attempt _ _ _ _ _ _ Hatt) as (Hv & _). eauto. }
  destruct r as [command|e0].
  - destruct (truthy command).
    + destruct (subprocess E command) as [[[out err] code]|e0].
      * left. apply (Hafter _ _ _ Ha).
      * destruct (is_Exception e0) eqn:He.
        -- left. apply (Hafter _ _ _ Ha).
        -- right. exists e0. now rewrite (run_decided_passes _ _ _ _ _ Ha).
    + left. apply (Hafter _ _ _ Ha).
  - destruct (is_Exception e0) eqn:He.
    + left. apply (Hafter _ _ _ Ha).
    + right. exists e0. now rewrite (run_decided_passes _ _ _ _ _ Ha).
Qed.

Lemma self_run_method (ev : DecidedEvent) (w : world) (m : string) :
  getattr (w_self w) "run" = Some (Method m) ->
  snd (self_run E ev w) = [Run (w_self w) ev].
Proof.
  intros Hm. unfold self_run. rewrite Hm.
  now destruct (run E (w_self w) ev (w_heap w)) as [[[r self1] ev1] h1].
Qed.

End RunDecided.

(** C3. [run_decided] on an event.  It returns [True] exactly when a command
    was executed and exited with 0, and [False] in every other case in which
    it returns.  On success it logs the summary in one INFO line if the base
    class still logs summaries, no INFO line if not, and no CRITICAL line.
    On failure it logs no INFO line and at most one CRITICAL line, chosen in
    this order: with output on stderr, the line with stdout, stderr and
    summary; else, with the text of an exception caught, the line with that
    text and the summary; else, if the base class still logs summaries, the
    line with stdout, stderr, exit code and summary; else none.  The summary
    and the logging switch are read after [run].  An exception that is not
    derived from [Exception] passes through [run_decided] without a line. *)
Theorem run_decided_reports (E : Env) (ev : DecidedEvent) (w : world) :
  let '(r, ev1, w1, _) := self_run E ev w in
  let summary := _summary ev1 in
  let logs_summary := truthy (baseclass_logs_summary (w_self w1)) in
  let x := run_decided E (Some ev) w in
  let failed_with (e : exn) :=
    if is_Exception e then
      value x = Ok (VBool false) /\
      logged INFO (effects x) = [] /\
      logged CRITICAL (effects x) =
        if String.eqb (exn_str e) "" then
          if logs_summary
          then [[Lit "run failed: stdout "; Arg (VStr "");
                 Lit ", stderr "; Arg (VStr "");
                 Lit ", exitcode "; Arg (VInt 0);
                 Lit ", event "; Arg summary]]
          else []
        else [[Lit "run failed: exception <"; Arg (VStr (exn_str e));
               Lit ">, event was <"; Arg summary; Lit ">"]]
    else
      value x = Raised e /\
      logged INFO (effects x) = [] /\
      logged CRITICAL (effects x) = [] in
  match r with
  | Raised e => failed_with e
  | Ok command =>
      if truthy command then
        match subprocess E command with
        | Raised e => failed_with e
        | Ok (out, err, code) =>
            let printed (b : list Byte.byte) :=
              match b with [] => VStr "" | _ :: _ => VBytes b end in
            value x = Ok (VBool (code =? 0)) /\
            if code =? 0 then
              logged INFO (effects x) = (if logs_summary then [[Arg summary]] else []) /\
              logged CRITICAL (effects x) = []
            else
              logged INFO (effects x) = [] /\
              logged CRITICAL (effects x) =
                match err with
                | _ :: _ =>
                    [[Lit "run failed: stdout "; Arg (printed out);
                      Lit ", stderr "; Arg (VBytes err);
                      Lit ", event "; Arg summary]]
                | [] =>
                    if logs_summary
                    then [[Lit "run failed: stdout "; Arg (printed out);
                           Lit ", stderr "; Arg (VStr "");
                           Lit ", exitcode "; Arg (VInt code);
                           Lit ", event "; Arg summary]]
                    else []
                end
        end
      else failed_with (Exn "Exception" "runner did not return a command")
  end.
Proof.
  pose proof (attempt_some E ev w) as Ha.
  pose proof (self_run_effects E ev w) as Ht0.
  destruct (self_run E ev w) as [[[r ev1] w1] t0].
  cbv zeta in Ha |- *. cbn [snd] in Ht0.
  assert (logged INFO t0 = [] /\ logged CRITICAL t0 = []) as (Hi0 & Hc0)
    by (destruct Ht0 as [-> | ->]; split; reflexivity).
  assert (forall e w' t, attempt E (Some ev) w = (Ok (excepted e, Some ev1), w', t) ->
            w' = w1 -> logged INFO t = [] -> logged CRITICAL t = [] ->
            value (run_decided E (Some ev) w) = Ok (VBool false) /\
            logged INFO (effects (run_decided E (Some ev) w)) = [] /\
            logged CRITICAL (effects (run_decided E (Some ev) w)) =
              if String.eqb (exn_str e) "" then
                if truthy (baseclass_logs_summary (w_self w1))
                then [[Lit "run failed: stdout "; Arg (VStr "");
                       Lit ", stderr "; Arg (VStr "");
                       Lit ", exitcode "; Arg (VInt 0);
                       Lit ", event "; Arg (_summary ev1)]]
                else []
              else [[Lit "run failed: exception <"; Arg (VStr (exn_str e));
                     Lit ">, event was <"; Arg (_summary ev1); Lit ">"]]) as Hexc.
  { intros e w' t Hatt -> Hi Hc.
    destruct (run_decided_after_attempt E _ _ _ _ _ _ Hatt) as (Hv & _ & Hi' & Hc').
    rewrite Hv, Hi', Hc', Hi, Hc. cbn.
    destruct (String.eqb (exn_str e) ""); cbn; auto. }
  assert (forall e w' t, attempt E (Some ev) w = (Raised e, w', t) ->
            logged INFO t = [] -> logged CRITICAL t = [] ->
            value (run_decided E (Some ev) w) = Raised e /\
            logged INFO (effects (run_decided E (Some ev) w)) = [] /\
            logged CRITICAL (effects (run_decided E (Some ev) w)) = []) as Hpass.
  { intros e w' t Hatt Hi Hc. rewrite (run_decided_passes E _ _ _ _ _ Hatt). auto. }
  destruct r as [command|e].
  - destruct (truthy command).
    + destruct (subprocess E command) as [[[out err] code]|e].
      * destruct (run_decided_after_attempt E _ _ _ _ _ _ Ha) as (Hv & _ & Hi & Hc).
        cbn [success stdout stderr exit_code decide_exception_msg w_self] in *.
        rewrite Hv, Hi, Hc, !logged_app, Hi0, Hc0.
        destruct (code =? 0); cbn; [auto|].
        destruct err; destruct out; cbn; auto.
      * destruct (is_Exception e).
        -- apply (Hexc e _ _ Ha); auto; now rewrite logged_app, ?Hi0, ?Hc0.
        -- apply (Hpass e _ _ Ha); now rewrite logged_app, ?Hi0, ?Hc0.
    + apply (Hexc (Exn "Exception" "runner did not return a command") _ _ Ha); auto.
  - destruct (is_Exception e).
    + apply (Hexc e _ _ Ha); auto.
    + apply (Hpass e _ _ Ha); auto.
Qed.

(** C4, as the code has it.  When the command exits with a code other than
    0, [run_decided] returns [False] and logs at most one CRITICAL line: with
    stderr output, one line with stdout, stderr and summary, without the exit
    code; without stderr output, one line with stdout, stderr, exit code and
    summary if the base class still logs summaries, and no line if not. *)
Theorem run_decided_nonzero_exit
  (E : Env) (ev ev1 : DecidedEvent) (w w1 : world) (t0 : list effect)
  (command : pyval) (out err : list Byte.byte) (code : Z) :
  self_run E ev w = (Ok command, ev1, w1, t0) ->
  truthy command = true ->
  subprocess E command = Ok (out, err, code) ->
  code <> 0 ->
  let x := run_decided E (Some ev) w in
  let with_stderr := failed_stderr_line (VBytes out) (VBytes err) (_summary ev1) in
  let with_exitcode := failed_exitcode_line (VBytes out) (VBytes err) code (_summary ev1) in
  value x = Ok (VBool false) /\
  logged CRITICAL (effects x) =
    (if truthy (VBytes err) then [with_stderr]
     else if truthy (baseclass_logs_summary (w_self w1)) then [with_exitcode]
     else []) /\
  (mentions (or_empty (VBytes out)) with_stderr /\
   mentions (or_empty (VBytes err)) with_stderr /\
   mentions (_summary ev1) with_stderr) /\
  (mentions (VInt code) with_exitcode /\
   mentions (or_empty (VBytes out)) with_exitcode /\
   mentions (or_empty (VBytes err)) with_exitcode /\
   mentions (_summary ev1) with_exitcode).
Proof.
  intros Hrun Hcmd Hsub Hcode.
  pose proof (attempt_some E ev w) as Ha.
  pose proof (self_run_effects E ev w) as Ht0.
  rewrite Hrun in Ha, Ht0. cbv zeta in Ha. rewrite Hcmd, Hsub in Ha. cbn [snd] in Ht0.
  destruct (run_decided_after_attempt E _ _ _ _ _ _ Ha) as (Hv & _ & _ & Hc).
  apply Z.eqb_neq in Hcode.
  cbn [success stdout stderr exit_code decide_exception_msg w_self] in *.
  rewrite Hcode in Hv, Hc.
  cbv zeta. rewrite Hv, Hc, logged_app.
  assert (logged CRITICAL t0 = []) as -> by (destruct Ht0 as [-> | ->]; reflexivity).
  cbn [logged app truthy level_eqb].
  unfold mentions, failed_stderr_line, failed_exitcode_line. cbn [In].
  repeat split; auto 10.
Qed.

Lemma run_decided_nonzero_exit_witness :
  value (run_decided notify_env (Some cpu_decided) (world_in_state "2")) = Ok (VBool false) /\
  logged CRITICAL (effects (run_decided notify_env (Some cpu_decided) (world_in_state "2"))) =
    [failed_stderr_line (VBytes (list_byte_of_string "tried"))
       (VBytes (list_byte_of_string "no such contact")) (VStr "CPU CRIT -> paging oncall")].
Proof.
  pose proof (run_decided_nonzero_exit notify_env cpu_decided cpu_decided
                (world_in_state "2") (world_in_state "2")
                [Run notify_runner cpu_decided]
                (VStr "notify.sh nobody")
                (list_byte_of_string "tried") (list_byte_of_string "no such contact") 1
                eq_refl eq_refl eq_refl ltac:(discriminate)) as H.
  cbv zeta in H. destruct H as (Hv & Hc & _).
  split; [exact Hv | exact Hc].
Defined.

(** C4 as stated fails: the command exits with 1 and writes to stderr; the
    one CRITICAL line has stdout, stderr and summary, and not the exit code. *)
Lemma run_decided_stderr_line_lacks_exit_code :
  subprocess notify_env (VStr "notify.sh nobody") =
    Ok (list_byte_of_string "tried", list_byte_of_string "no such contact", 1) /\
  In (Popen (VStr "notify.sh nobody"))
    (effects (run_decided notify_env (Some cpu_decided) (world_in_state "2"))) /\
  exists line,
    logged CRITICAL (effects (run_decided notify_env (Some cpu_decided) (world_in_state "2")))
      = [line] /\
    ~ mentions (VInt 1) line.
Proof.
  split; [reflexivity|]. split.
  - vm_compute. auto.
  - eexists. split; [vm_compute; reflexivity|].
    unfold mentions. cbn [In]. intros H.
    repeat (destruct H as [H|H]; [discriminate H|]). exact H.
Qed.

(** After [no_more_logging] a failure without stderr output and without an
    exception leaves no CRITICAL line at all. *)
Example run_decided_after_no_more_logging :
  value (run_decided quiet_env (Some cpu_decided) (world_in_state "2")) = Ok (VBool false) /\
  logged CRITICAL (effects (run_decided quiet_env (Some cpu_decided) (world_in_state "2"))) = [].
Proof. vm_compute. split; reflexivity. Qed.

Lemma no_more_logging_suppresses (self : Runner) :
  truthy (baseclass_logs_summary (no_more_logging self)) = false /\
  attrs (no_more_logging self) = attrs self.
Proof. split; reflexivity. Qed.

Example run_decided_success :
  let w := mkWorld (fun _ => event_in_state "2")
             (snd (overwrite_attributes notify_runner [("contact", VStr "oncall")])) in
  let x := run_decided notify_env (Some cpu_decided) w in
  value x = Ok (VBool true) /\
  logged INFO (effects x) = [[Arg (VStr "CPU CRIT -> paging oncall")]] /\
  logged CRITICAL (effects x) = [].
Proof. vm_compute. repeat split. Qed.

(** A payload that names [run] leaves a value where the method was: the
    call fails inside the [try] statement and is reported. *)
Example run_decided_run_shadowed :
  let w := mkWorld (fun _ => event_in_state "2")
             (snd (overwrite_attributes notify_runner [("run", VStr "x")])) in
  let x := run_decided notify_env (Some cpu_decided) w in
  value x = Ok (VBool false) /\
  no_command (effects x) /\
  logged CRITICAL (effects x) =
    [[Lit "run failed: exception <"; Arg (VStr "'str' object is not callable");
      Lit ">, event was <"; Arg (VStr "CPU CRIT -> paging oncall"); Lit ">"]].
Proof. vm_compute. repeat split. Qed.

(** ** The decide phase *)

Lemma method_is_method {A : Type} (name : string) (body : M A) (w : world) :
  is_method (w_self w) name = true -> method name body w = body w.
Proof.
  unfold is_method, method. now destruct (getattr (w_self w) name) as [[v|m]|].
Qed.

Lemma method_shadowed {A : Type} (name : string) (body : M A) (w : world) :
  is_method (w_self w) name = false ->
  exists v, getattr (w_self w) name = Some (Value v) /\
            method name body w = (Raised (not_callable v), w, []).
Proof.
  unfold is_method, method. destruct (getattr (w_self w) name) as [[v|m]|]; try discriminate.
  intros _. now exists v.
Qed.

Lemma not_callable_is_Exception (v : pyval) : is_Exception (not_callable v) = true.
Proof. reflexivity. Qed.

Section Handle.

Variable E : Env.

Lemma new_decider_loaded (w : world) (name : string) (d : Decider) :
  getattr (w_self w) "decider_name" = Some (Value (VStr name)) ->
  load_decider E name = Ok d ->
  new_decider E w = (Ok (Some d), w, []).
Proof.
  intros Hn Hl. unfold new_decider, bind, get_self. now rewrite Hn, Hl.
Qed.

Lemma new_decider_except_cases (module_name : pyval) (e : exn) (w : world) :
  (exists msg, new_decider_except module_name e w = (Ok None, w, [Log CRITICAL msg])) \/
  (is_Exception e = false /\ new_decider_except module_name e w = (Raised e, w, [])).
Proof.
  unfold new_decider_except.
  destruct (is_ImportError e); [left; eexists; reflexivity|].
  destruct (is_Exception e); [left; eexists; reflexivity|].
  right. split; reflexivity.
Qed.

(** [new_decider] yields an instance and logs nothing, or [None] after one
    critical line, or lets an exception pass that is not derived from
    [Exception]. *)
Lemma new_decider_cases (w : world) :
  (exists name d,
      getattr (w_self w) "decider_name" = Some (Value (VStr name)) /\
      load_decider E name = Ok d /\
      new_decider E w = (Ok (Some d), w, [])) \/
  (exists msg, new_decider E w = (Ok None, w, [Log CRITICAL msg])) \/
  (exists name e,
      getattr (w_self w) "decider_name" = Some (Value (VStr name)) /\
      load_decider E name = Raised e /\ is_Exception e = false /\
      new_decider E w = (Raised e, w, [])).
Proof.
  unfold new_decider, bind, get_self.
  destruct (getattr (w_self w) "decider_name") as [[[| | |name|]|]|] eqn:Hn;
    try (right; left; eexists; reflexivity).
  destruct (load_decider E name) as [d|e] eqn:Hl.
  - left. exists name, d. auto.
  - destruct (new_decider_except_cases (VStr name) e w) as [(msg & H)|(He & H)].
    + right. left. exists msg. now rewrite H.
    + right. right. exists name, e. rewrite H. auto.
Qed.

(** [self.new_decider()] changes nothing in the world and logs at most one
    line. *)
Lemma self_new_decider_cases (w : world) :
  (exists d, self_new_decider E w = (Ok (Some d), w, [])) \/
  (exists msg, self_new_decider E w = (Ok None, w, [Log CRITICAL msg])) \/
  (exists e, self_new_decider E w = (Raised e, w, [])).
Proof.
  unfold self_new_decider.
  destruct (is_method (w_self w) "new_decider") eqn:Hm.
  - rewrite (method_is_method _ _ _ Hm).
    destruct (new_decider_cases w) as [(name & d & _ & _ & H)|[(msg & H)|(name & e & _ & _ & _ & H)]];
      rewrite H; eauto.
  - destruct (method_shadowed "new_decider" (new_decider E) w Hm) as (v & _ & H).
    rewrite H. eauto.
Qed.

(** [decide_and_prepare_event] once [self.new_decider()] has answered. *)
Lemma decide_and_prepare_event_unfold
  (raw : loc) (w : world) (instance : option Decider) (t0 : list effect) :
  self_new_decider E w = (Ok instance, w, t0) ->
  decide_and_prepare_event E raw w =
  let '(r0, h1) := DecidedEvent_init E raw (stamp E raw (w_heap w)) in
  let caught (e : exn) (h : heap) :=
    if is_Exception e then
      match instance with
      | None =>
          (Raised (AttributeError "NoneType" "__module_file__"), mkWorld h (w_self w), t0)
      | Some d =>
          (Ok None, mkWorld h (w_self w),
           (t0 ++ [Log CRITICAL (decider_error_line E (h raw) d e)])%list)
      end
    else (Raised e, mkWorld h (w_self w), t0) in
  match r0 with
  | Raised e => caught e h1
  | Ok ev0 =>
      match runner_label (w_self w) with
      | Raised e => caught e h1
      | Ok label =>
          match instance with
          | None => caught (AttributeError "NoneType" "runner") h1
          | Some d =>
              match decide_and_prepare d label ev0 h1 with
              | (Ok _, ev1, h2) => (Ok (Some ev1), mkWorld h2 (w_self w), t0)
              | (Raised e, _, h2) => caught e h2
              end
          end
      end
  end.
Proof.
  intros Hn. unfold decide_and_prepare_event, bind at 1. rewrite Hn.
  unfold bind, do_stamp, try_except, new_DecidedEvent, get_self, get_heap, lift,
    call_decider, logger, emit, raise, ret.
  cbn [w_heap w_self fst snd].
  destruct (DecidedEvent_init E raw (stamp E raw (w_heap w))) as [[ev0|e0] h1]; simpl.
  - destruct (runner_label (w_self w)) as [label|e]; simpl.
    + destruct instance as [d|]; simpl.
      * destruct (decide_and_prepare d label ev0 h1) as [[[u|e] ev1] h2];
          simpl; rewrite ?app_nil_r; [reflexivity|].
        destruct (is_Exception e); simpl; rewrite ?app_nil_r; reflexivity.
      * rewrite ?app_nil_r. reflexivity.
    + destruct (is_Exception e); [|rewrite ?app_nil_r; reflexivity].
      destruct instance; simpl; rewrite ?app_nil_r; reflexivity.
  - destruct (is_Exception e0); [|rewrite ?app_nil_r; reflexivity].
    destruct instance; simpl; rewrite ?app_nil_r; reflexivity.
Qed.

(** [decide_and_prepare_event] leaves the instance as it is. *)
Lemma decide_and_prepare_event_self (raw : loc) (w : world) :
  w_self (final (decide_and_prepare_event E raw w)) = w_self w.
Proof.
  destruct (self_new_decider_cases w) as [(d & Hn)|[(msg & Hn)|(e & Hn)]].
  - rewrite (decide_and_prepare_event_unfold raw w _ _ Hn).
    destruct (DecidedEvent_init E raw _) as [[ev0|e0] h1]; cbv beta zeta.
    + destruct (runner_label (w_self w)) as [label|e].
      * destruct (decide_and_prepare d label ev0 h1) as [[[u|e] ev1] h2]; [reflexivity|].
        destruct (is_Exception e); reflexivity.
      * destruct (is_Exception e); reflexivity.
    + destruct (is_Exception e0); reflexivity.
  - rewrite (decide_and_prepare_event_unfold raw w _ _ Hn).
    destruct (DecidedEvent_init E raw _) as [[ev0|e0] h1]; cbv beta zeta.
    + destruct (runner_label (w_self w)) as [label|e]; [reflexivity|].
      destruct (is_Exception e); reflexivity.
    + destruct (is_Exception e0); reflexivity.
  - unfold decide_and_prepare_event, bind at 1. now rewrite Hn.
Qed.

(** When the decider hands an event back, nothing was logged. *)
Lemma decide_and_prepare_event_some (raw : loc) (w : world) (ev : DecidedEvent) :
  value (decide_and_prepare_event E raw w) = Ok (Some ev) ->
  effects (decide_and_prepare_event E raw w) = [].
Proof.
  destruct (self_new_decider_cases w) as [(d & Hn)|[(msg & Hn)|(e & Hn)]].
  - rewrite (decide_and_prepare_event_unfold raw w _ _ Hn).
    destruct (DecidedEvent_init E raw _) as [[ev0|e0] h1]; cbv beta zeta.
    + destruct (runner_label (w_self w)) as [label|e].
      * destruct (decide_and_prepare d label ev0 h1) as [[[u|e] ev1] h2]; [reflexivity|].
        destruct (is_Exception e); discriminate.
      * destruct (is_Exception e); discriminate.
    + destruct (is_Exception e0); discriminate.
  - rewrite (decide_and_prepare_event_unfold raw w _ _ Hn).
    destruct (DecidedEvent_init E raw _) as [[ev0|e0] h1]; cbv beta zeta.
    + destruct (runner_label (w_self w)) as [label|e]; [discriminate|].
      destruct (is_Exception e); discriminate.
    + destruct (is_Exception e0); discriminate.
  - unfold decide_and_prepare_event, bind at 1. rewrite Hn. discriminate.
Qed.

(** The same for the call [self.decide_and_prepare_event(raw_event)], which
    then is a call of the method. *)
Lemma self_decide_and_prepare_event_some (raw : loc) (w : world) (ev : DecidedEvent) :
  value (self_decide_and_prepare_event E raw w) = Ok (Some ev) ->
  self_decide_and_prepare_event E raw w = decide_and_prepare_event E raw w /\
  effects (self_decide_and_prepare_event E raw w) = [] /\
  w_self (final (self_decide_and_prepare_event E raw w)) = w_self w.
Proof.
  unfold self_decide_and_prepare_event.
  destruct (is_method (w_self w) "decide_and_prepare_event") eqn:Hm.
  - rewrite (method_is_method _ _ _ Hm). intros Hv. split; [reflexivity|]. split.
    + now apply decide_and_prepare_event_some with ev.
    + apply decide_and_prepare_event_self.
  - destruct (method_shadowed "decide_and_prepare_event" (decide_and_prepare_event E raw) w Hm)
      as (v & _ & H).
    rewrite H. discriminate.
Qed.

Lemma self_decide_and_prepare_event_self (raw : loc) (w : world) :
  w_self (final (self_decide_and_prepare_event E raw w)) = w_self w.
Proof.
  unfold self_decide_and_prepare_event.
  destruct (is_method (w_self w) "decide_and_prepare_event") eqn:Hm.
  - rewrite (method_is_method _ _ _ Hm). apply decide_and_prepare_event_self.
  - destruct (method_shadowed "decide_and_prepare_event" (decide_and_prepare_event E raw) w Hm)
      as (v & _ & H).
    now rewrite H.
Qed.

(** The [if]/[elif] of [handle] inside its [try]. *)
Lemma inspect_decided_guarded (raw : loc) (de : option DecidedEvent) (w : world) :
  try_except (inspect_decided E raw de) (fun _ => ret None) w =
  match de with
  | None => (Ok None, w, [])
  | Some ev =>
      if _discarded ev then
        (Ok None, w,
         if _discarded_silently ev then []
         else [Log INFO (discarded_line
                           (if truthy (_summary ev) then _summary ev
                            else VStr (str_dict E (w_heap w raw))))])
      else if is_complete ev then (Ok (Some ev), w, [])
      else (Ok None, w, [Log CRITICAL policy_error_line])
  end.
Proof.
  unfold try_except, inspect_decided.
  destruct de as [ev|]; [|reflexivity].
  destruct (_discarded ev).
  - destruct (_discarded_silently ev); [reflexivity|].
    cbn. destruct (truthy (_summary ev)); reflexivity.
  - destruct (is_complete ev); reflexivity.
Qed.

(** The [try] statement of [handle]. *)
Lemma decide_phase_unfold (raw : loc) (w : world) :
  decide_phase E raw w =
  match self_decide_and_prepare_event E raw w with
  | (Ok de, w1, t1) =>
      let '(r, w2, t2) := try_except (inspect_decided E raw de) (fun _ => ret None) w1 in
      (r, w2, (t1 ++ t2)%list)
  | (Raised e, w1, t1) =>
      if is_Exception e
      then (Ok None, w1,
            (t1 ++ [Log CRITICAL (raw_event_error_line E (w_heap w1 raw) e)])%list)
      else (Raised e, w1, t1)
  end.
Proof.
  unfold decide_phase, try_except at 1, bind at 1.
  destruct (self_decide_and_prepare_event E raw w) as [[[de|e] w1] t1].
  - rewrite inspect_decided_guarded.
    destruct de as [ev|]; [|reflexivity].
    destruct (_discarded ev); [reflexivity|].
    destruct (is_complete ev); reflexivity.
  - destruct (is_Exception e); reflexivity.
Qed.

(** The [try] statement of [handle] leaves the instance as it is. *)
Lemma decide_phase_self (raw : loc) (w : world) :
  w_self (final (decide_phase E raw w)) = w_self w.
Proof.
  rewrite decide_phase_unfold.
  pose proof (self_decide_and_prepare_event_self raw w) as Hs.
  destruct (self_decide_and_prepare_event E raw w) as [[[de|e] w1] t1];
    cbn [final fst snd] in Hs.
  - rewrite inspect_decided_guarded.
    destruct de as [ev|]; [|exact Hs].
    destruct (_discarded ev); [exact Hs|].
    destruct (is_complete ev); exact Hs.
  - destruct (is_Exception e); exact Hs.
Qed.

(** How the [try] statement of [handle] ends: with [decided_event] bound,
    or with an exception that is not derived from [Exception].  An event it
    lets through is complete and not discarded, and is the one the decider
    handed back. *)
Lemma decide_phase_result (raw : loc) (w : world) :
  match value (decide_phase E raw w) with
  | Ok de =>
      forall ev, de = Some ev ->
        _discarded ev = false /\ is_complete ev = true /\
        decide_phase E raw w = self_decide_and_prepare_event E raw w /\
        value (self_decide_and_prepare_event E raw w) = Ok (Some ev)
  | Raised e =>
      is_Exception e = false /\
      decide_phase E raw w = self_decide_and_prepare_event E raw w
  end.
Proof.
  rewrite decide_phase_unfold.
  destruct (self_decide_and_prepare_event E raw w) as [[[de|e] w1] t1].
  - rewrite inspect_decided_guarded.
    destruct de as [ev|].
    + destruct (_discarded ev) eqn:Hd.
      * cbn. discriminate.
      * destruct (is_complete ev) eqn:Hc.
        -- cbn. intros ev' [= <-]. rewrite app_nil_r. auto.
        -- cbn. discriminate.
    + cbn. discriminate.
  - destruct (is_Exception e) eqn:He; cbn; [discriminate|auto].
Qed.

(** What the decide phase leaves in the trace: log lines. *)
Lemma decide_phase_no_command (raw : loc) (w : world) :
  no_command (effects (decide_phase E raw w)).
Proof.
  rewrite decide_phase_unfold.
  assert (no_command (effects (self_decide_and_prepare_event E raw w))) as Hd.
  { unfold self_decide_and_prepare_event.
    destruct (is_method (w_self w) "decide_and_prepare_event") eqn:Hm.
    - rewrite (method_is_method _ _ _ Hm).
      destruct (self_new_decider_cases w) as [(d & Hn)|[(msg & Hn)|(e & Hn)]].
      + rewrite (decide_and_prepare_event_unfold raw w _ _ Hn).
        destruct (DecidedEvent_init E raw _) as [[ev0|e0] h1]; cbv beta zeta.
        * destruct (runner_label (w_self w)) as [label|e].
          -- destruct (decide_and_prepare d label ev0 h1) as [[[u|e] ev1] h2]; [reflexivity|].
             destruct (is_Exception e); reflexivity.
          -- destruct (is_Exception e); reflexivity.
        * destruct (is_Exception e0); reflexivity.
      + rewrite (decide_and_prepare_event_unfold raw w _ _ Hn).
        destruct (DecidedEvent_init E raw _) as [[ev0|e0] h1]; cbv beta zeta.
        * destruct (runner_label (w_self w)) as [label|e]; [reflexivity|].
          destruct (is_Exception e); reflexivity.
        * destruct (is_Exception e0); reflexivity.
      + unfold decide_and_prepare_event, bind at 1. now rewrite Hn.
    - destruct (method_shadowed "decide_and_prepare_event" (decide_and_prepare_event E raw) w Hm)
        as (v & _ & H).
      now rewrite H. }
  destruct (self_decide_and_prepare_event E raw w) as [[[de|e] w1] t1];
    cbn [effects snd] in Hd.
  - rewrite inspect_decided_guarded.
    destruct de as [ev|]; cbn [effects snd].
    + destruct (_discarded ev).
      * apply no_command_app. split; auto. now destruct (_discarded_silently ev).
      * destruct (is_complete ev); apply no_command_app; split; auto; reflexivity.
    + apply no_command_app. split; auto. reflexivity.
  - destruct (is_Exception e); cbn [effects snd]; auto.
    apply no_command_app. split; auto. reflexivity.
Qed.

(** [handle] after its [try] statement. *)
Lemma handle_unfold (raw : loc) (w : world) :
  handle E raw w =
  match decide_phase E raw w with
  | (Ok (Some ev), w1, t1) =>
      match getattr (w_self w1) "overwrite_attributes" with
      | Some (Value v) => (Raised (not_callable v), w1, t1)
      | _ =>
          match _payload ev with
          | None => (Raised (TypeError "'NoneType' object is not iterable"), w1, t1)
          | Some payload =>
              match overwrite_attributes (w_self w1) payload with
              | (Some e, self2) => (Raised e, mkWorld (w_heap w1) self2, t1)
              | (None, self2) =>
                  let w2 := mkWorld (w_heap w1) self2 in
                  match getattr self2 "run_decided" with
                  | Some (Value v) => (Raised (not_callable v), w2, t1)
                  | _ =>
                      let '(r, w3, t3) := run_decided E (Some ev) w2 in
                      (match r with Ok _ => Ok VNone | Raised e => Raised e end, w3,
                       (t1 ++ t3)%list)
                  end
              end
          end
      end
  | (Ok None, w1, t1) => (Ok VNone, w1, t1)
  | (Raised e, w1, t1) => (Raised e, w1, t1)
  end.
Proof.
  unfold handle, bind at 1.
  destruct (decide_phase E raw w) as [[[[ev|]|e] w1] t1]; try reflexivity.
  - unfold bind, self_overwrite_attributes, self_run_decided, method, do_overwrite_attributes.
    destruct (getattr (w_self w1) "overwrite_attributes") as [[v|m]|];
      [now rewrite app_nil_r| |].
    all: destruct (_payload ev) as [payload|]; [|unfold raise; now rewrite app_nil_r].
    all: destruct (overwrite_attributes (w_self w1) payload) as [[e|] self2];
      [now rewrite app_nil_r|].
    all: cbn [w_self w_heap].
    all: destruct (getattr self2 "run_decided") as [[v|m']|];
      [cbn; now rewrite app_nil_r| |].
    all: destruct (run_decided E (Some ev) _) as [[[v|e] w3] t3]; cbn;
      rewrite ?app_nil_r; reflexivity.
  - cbn. now rewrite app_nil_r.
Qed.

End Handle.

(** ** handle *)

(** C1. When the decider hands back an event it has discarded, [handle]
    runs no command and logs no CRITICAL line, whether or not the event has
    payload and summary; its only possible line is the INFO line of an event
    that was not discarded silently.  [handle] returns [None]. *)
Theorem handle_discarded (E : Env) (raw : loc) (w : world) (ev : DecidedEvent) :
  value (self_decide_and_prepare_event E raw w) = Ok (Some ev) ->
  _discarded ev = true ->
  value (handle E raw w) = Ok VNone /\
  no_command (effects (handle E raw w)) /\
  logged CRITICAL (effects (handle E raw w)) = [] /\
  ~ In policy_error_line (logged CRITICAL (effects (handle E raw w))) /\
  logged INFO (effects (handle E raw w)) =
    if _discarded_silently ev then []
    else [discarded_line
            (if truthy (_summary ev) then _summary ev
             else VStr (str_dict E
                          (w_heap (final (self_decide_and_prepare_event E raw w)) raw)))].
Proof.
  intros Hv Hd.
  destruct (self_decide_and_prepare_event_some E raw w ev Hv) as (_ & Ht & _).
  rewrite handle_unfold, decide_phase_unfold.
  destruct (self_decide_and_prepare_event E raw w) as [[r w1] t1].
  cbn [value effects final fst snd] in *. subst r t1.
  rewrite inspect_decided_guarded, Hd.
  destruct (_discarded_silently ev); cbn; repeat split; auto.
Qed.

Lemma handle_discarded_witness :
  value (self_decide_and_prepare_event notify_env 0%nat (world_in_state "0"))
    = Ok (Some (mkDecidedEvent 0%nat None (VStr "{...}") [] true false None)) /\
  is_complete (mkDecidedEvent 0%nat None (VStr "{...}") [] true false None) = false /\
  no_command (effects (handle notify_env 0%nat (world_in_state "0"))) /\
  logged CRITICAL (effects (handle notify_env 0%nat (world_in_state "0"))) = [] /\
  logged INFO (effects (handle notify_env 0%nat (world_in_state "0")))
    = [discarded_line (VStr "{...}")].
Proof.
  pose proof (handle_discarded notify_env 0%nat (world_in_state "0")
                (mkDecidedEvent 0%nat None (VStr "{...}") [] true false None)
                eq_refl eq_refl) as H.
  destruct H as (_ & Hn & Hc & _ & Hi).
  repeat split; auto.
Defined.

(** C2, as the code has it.  Take a world in which [handle] comes to call
    the decider.  When the decider raises an exception derived from
    [Exception], or hands back an event that is neither discarded nor
    complete, [handle] runs no command, logs exactly one CRITICAL line (the
    decider's error with the raw event, or the missing payload and summary)
    and returns [None].  When the decider raises an exception that is not
    derived from [Exception], no [except] clause catches it: [handle] raises
    it to its caller, and logs no CRITICAL line. *)
Theorem handle_decider_error
  (E : Env) (raw : loc) (w : world) (name : string) (d : Decider) (label : attribute)
  (ev0 : DecidedEvent) (h1 : heap) :
  is_method (w_self w) "decide_and_prepare_event" = true ->
  is_method (w_self w) "new_decider" = true ->
  getattr (w_self w) "decider_name" = Some (Value (VStr name)) ->
  load_decider E name = Ok d ->
  DecidedEvent_init E raw (stamp E raw (w_heap w)) = (Ok ev0, h1) ->
  runner_label (w_self w) = Ok label ->
  match decide_and_prepare d label ev0 h1 with
  | (Raised _, _, _) => True
  | (Ok _, ev, _) => _discarded ev = false /\ is_complete ev = false
  end ->
  no_command (effects (handle E raw w)) /\
  match decide_and_prepare d label ev0 h1 with
  | (Raised e, _, h) =>
      if is_Exception e then
        value (handle E raw w) = Ok VNone /\
        logged CRITICAL (effects (handle E raw w)) = [decider_error_line E (h raw) d e]
      else
        value (handle E raw w) = Raised e /\
        logged CRITICAL (effects (handle E raw w)) = []
  | (Ok _, _, _) =>
      value (handle E raw w) = Ok VNone /\
      logged CRITICAL (effects (handle E raw w)) = [policy_error_line]
  end.
Proof.
  intros Hm1 Hm2 Hn Hl Hinit Hlabel Hdec.
  rewrite handle_unfold, decide_phase_unfold.
  unfold self_decide_and_prepare_event. rewrite (method_is_method _ _ _ Hm1).
  assert (self_new_decider E w = (Ok (Some d), w, [])) as Hnd.
  { unfold self_new_decider. rewrite (method_is_method _ _ _ Hm2).
    now apply new_decider_loaded with name. }
  rewrite (decide_and_prepare_event_unfold E raw w _ _ Hnd).
  rewrite Hinit, Hlabel. cbv beta zeta.
  destruct (decide_and_prepare d label ev0 h1) as [[[u|e] ev1] h2].
  - destruct Hdec as (Hd & Hc).
    rewrite inspect_decided_guarded, Hd, Hc. cbn. repeat split.
  - destruct (is_Exception e) eqn:He.
    + rewrite inspect_decided_guarded. cbn. repeat split.
    + cbn. rewrite He. cbn. repeat split.
Qed.

Lemma handle_decider_error_witness :
  decide_and_prepare paging_decider (Value (VStr "notify"))
    (mkDecidedEvent 0%nat None (VStr "{...}") [] false true None)
    (snd (DecidedEvent_init notify_env 0%nat
            (stamp notify_env 0%nat (w_heap (world_in_state "unknown")))))
  = (Raised (Exn "KeyError" "'state'"),
     mkDecidedEvent 0%nat None (VStr "{...}") [] false true None,
     snd (DecidedEvent_init notify_env 0%nat
            (stamp notify_env 0%nat (w_heap (world_in_state "unknown"))))) /\
  value (handle notify_env 0%nat (world_in_state "unknown")) = Ok VNone /\
  no_command (effects (handle notify_env 0%nat (world_in_state "unknown"))) /\
  logged CRITICAL (effects (handle notify_env 0%nat (world_in_state "unknown"))) =
    [[Lit "when deciding based on this "; Arg (VStr "{...}");
      Lit " with this "; Arg (VStr "PagingDecider@/omd/eventhandler/paging/decider.py");
      Lit " there was an error <"; Arg (VStr "'state'"); Lit ">"]].
Proof.
  split; [reflexivity|].
  pose proof (handle_decider_error notify_env 0%nat (world_in_state "unknown")
                "paging" paging_decider (Value (VStr "notify"))
                (mkDecidedEvent 0%nat None (VStr "{...}") [] false true None)
                (snd (DecidedEvent_init notify_env 0%nat
                        (stamp notify_env 0%nat (w_heap (world_in_state "unknown")))))
                eq_refl eq_refl eq_refl eq_refl eq_refl eq_refl I) as (Hn & Hc).
  split; [exact (proj1 Hc)|]. split; [exact Hn|exact (proj2 Hc)].
Defined.

(** C2 as stated fails: a decider that ends with [sys.exit(1)] raises
    [SystemExit] during [decide_and_prepare]; [handle] does not return, it
    raises [SystemExit] to its caller, and it logs no CRITICAL line. *)
Lemma handle_propagates_SystemExit :
  fst (fst (decide_and_prepare exiting_decider (Value (VStr "notify"))
              (mkDecidedEvent 0%nat None (VStr "{...}") [] false true None)
              (snd (DecidedEvent_init notify_env 0%nat (stamp notify_env 0%nat cpu_heap)))))
    = Raised (mkExn "SystemExit" "1" false) /\
  value (handle notify_env 0%nat (mkWorld cpu_heap (notify_with "exiting")))
    = Raised (mkExn "SystemExit" "1" false) /\
  logged CRITICAL (effects (handle notify_env 0%nat (mkWorld cpu_heap (notify_with "exiting"))))
    = [].
Proof. vm_compute. repeat split. Qed.

Example handle_incomplete_event :
  effects (handle notify_env 0%nat (world_in_state "1")) = [Log CRITICAL policy_error_line] /\
  value (handle notify_env 0%nat (world_in_state "1")) = Ok VNone.
Proof. vm_compute. split; reflexivity. Qed.

(** Without a decider module there are two CRITICAL lines: the one of
    [new_decider] and the one of [handle] for the error that follows. *)
Example handle_without_decider :
  length (logged CRITICAL
            (effects (handle notify_env 0%nat (mkWorld cpu_heap (notify_with "none")))))
  = 2%nat.
Proof. vm_compute. reflexivity. Qed.

(** A raw event with a digit that [int] rejects is dropped with one
    CRITICAL line, the decider not being asked. *)
Example handle_unconvertible_digit :
  let w := mkWorld (fun _ => [("perfdata", VStr superscript_two)]) notify_runner in
  value (handle notify_env 0%nat w) = Ok VNone /\
  exists text,
    effects (handle notify_env 0%nat w) =
    [Log CRITICAL
       [Lit "when deciding based on this "; Arg (VStr "{...}");
        Lit " with this "; Arg (VStr "PagingDecider@/omd/eventhandler/paging/decider.py");
        Lit " there was an error <"; Arg (VStr text); Lit ">"]].
Proof. cbv zeta. split; [reflexivity|]. eexists. vm_compute. reflexivity. Qed.

(** C5. When [handle] goes on with an event that is complete and not
    discarded, the payload is laid over the instance before [run] is
    invoked.  Whenever [handle] invokes [run], it is on the instance that
    [overwrite_attributes] has left after going through the whole payload:
    a name the payload has and that was an attribute of the runner holds the
    payload's value, a payload name that was no attribute is none, what the
    payload does not name is as it was, and [hasattr] says of every name what
    it said before.  And [run] is invoked when the three calls find their
    methods: [overwrite_attributes] before the overlay, [run_decided] and
    [run] after it. *)
Theorem handle_overlays_payload (E : Env) (raw : loc) (w : world) (ev : DecidedEvent) :
  value (self_decide_and_prepare_event E raw w) = Ok (Some ev) ->
  _discarded ev = false ->
  is_complete ev = true ->
  exists payload,
    _payload ev = Some payload /\
    (forall self_at_run ev_at_run,
       In (Run self_at_run ev_at_run) (effects (handle E raw w)) ->
       ev_at_run = ev /\
       overwrite_attributes (w_self w) payload = (None, self_at_run) /\
       (forall k v, dict_get payload k = Some v -> hasattr (w_self w) k = true ->
                    instance_attr self_at_run k = Some v) /\
       (forall k, dict_contains payload k = true -> hasattr (w_self w) k = false ->
                  hasattr self_at_run k = false /\ instance_attr self_at_run k = None) /\
       (forall k, dict_contains payload k = false ->
                  instance_attr self_at_run k = instance_attr (w_self w) k) /\
       (forall k, hasattr self_at_run k = hasattr (w_self w) k) /\
       runner_class self_at_run = runner_class (w_self w)) /\
    (forall self',
       is_method (w_self w) "overwrite_attributes" = true ->
       overwrite_attributes (w_self w) payload = (None, self') ->
       is_method self' "run_decided" = true ->
       (exists m, getattr self' "run" = Some (Method m)) ->
       exists rest, effects (handle E raw w) = Run self' ev :: rest).
Proof.
  intros Hv Hd Hc.
  destruct (self_decide_and_prepare_event_some E raw w ev Hv) as (_ & Ht & Hs).
  assert (exists payload, _payload ev = Some payload) as (payload & Hp).
  { unfold is_complete in Hc. destruct (_payload ev); [eauto|discriminate]. }
  exists payload. split; [exact Hp|].
  rewrite handle_unfold, decide_phase_unfold.
  destruct (self_decide_and_prepare_event E raw w) as [[r w1] t1].
  cbn [value effects final fst snd] in *. subst r t1.
  rewrite inspect_decided_guarded, Hd, Hc, Hp, Hs. cbn [app].
  assert (forall self2 s e,
            overwrite_attributes (w_self w) payload = (None, self2) ->
            In (Run s e) (effects (run_decided E (Some ev) (mkWorld (w_heap w1) self2))) ->
            s = self2 /\ e = ev) as Hrun.
  { intros self2 s e _ Hin.
    destruct (run_decided_effects E ev (mkWorld (w_heap w1) self2)) as (t & Heq & Hnot).
    rewrite Heq in Hin. apply in_app_or in Hin. destruct Hin as [Hin|Hin].
    - destruct (self_run_effects E ev (mkWorld (w_heap w1) self2)) as [Ht0|Ht0];
        rewrite Ht0 in Hin; [|contradiction].
      destruct Hin as [[= <- <-]|[]]. auto.
    - now apply Hnot in Hin. }
  split.
  - intros s e Hin.
    assert (exists self2, overwrite_attributes (w_self w) payload = (None, self2) /\
                          s = self2 /\ e = ev) as (self2 & Ho & -> & ->).
    { destruct (getattr (w_self w) "overwrite_attributes") as [[v|m]|];
        [contradiction| |].
      all: destruct (overwrite_attributes (w_self w) payload) as [[e0|] self2] eqn:Ho;
        [contradiction|].
      all: cbv zeta in Hin.
      all: destruct (getattr self2 "run_decided") as [[v|m']|]; [contradiction| |].
      all: exists self2; split; [reflexivity|]; apply (Hrun self2 s e eq_refl).
      all: destruct (run_decided E (Some ev) _) as [[r w3] t3]; exact Hin. }
    split; [reflexivity|]. split; [exact Ho|].
    pose proof (fun k => overwrite_attributes_None _ _ _ k Ho) as Hattr.
    pose proof (overwrite_loop_hasattr payload (dict_keys payload) (w_self w)) as Hhas.
    pose proof (overwrite_loop_class payload (dict_keys payload) (w_self w)) as Hcls.
    unfold overwrite_attributes in Ho. rewrite Ho in Hhas, Hcls. cbn [snd] in Hhas, Hcls.
    split; [|split; [|split; [|split]]]; auto.
    + intros k v Hk Hh. now rewrite (Hattr k), Hh, Hk.
    + intros k Hk Hh. split; [now rewrite Hhas|].
      rewrite (Hattr k), Hh.
      destruct (instance_attr (w_self w) k) as [v|] eqn:Hi; auto.
      rewrite (hasattr_instance _ _ _ Hi) in Hh. discriminate.
    + intros k Hk. rewrite (Hattr k). unfold dict_contains in Hk.
      destruct (dict_get payload k); [discriminate|]. now destruct (hasattr (w_self w) k).
  - intros self' Hm1 Ho Hm2 (m & Hm3).
    unfold is_method in Hm1, Hm2.
    destruct (getattr (w_self w) "overwrite_attributes") as [[v|m1]|]; [discriminate| |].
    all: rewrite Ho; cbv zeta.
    all: destruct (getattr self' "run_decided") as [[v|m2]|]; [discriminate| |].
    all: destruct (run_decided_effects E ev (mkWorld (w_heap w1) self')) as (t & Heq & _).
    all: rewrite (self_run_method E ev (mkWorld (w_heap w1) self') m Hm3) in Heq.
    all: destruct (run_decided E (Some ev) _) as [[r w3] t3].
    all: cbn [effects snd w_self app] in *; subst t3; eexists; reflexivity.
Qed.

Lemma handle_overlays_payload_witness :
  value (self_decide_and_prepare_event notify_env 0%nat (world_in_state "2"))
    = Ok (Some (mkDecidedEvent 0%nat (Some [("contact", VStr "oncall"); ("pager", VInt 7)])
                  (VStr "CPU CRIT -> paging oncall") [] false true None)) /\
  exists self rest,
    effects (handle notify_env 0%nat (world_in_state "2"))
      = Run self (mkDecidedEvent 0%nat (Some [("contact", VStr "oncall"); ("pager", VInt 7)])
                    (VStr "CPU CRIT -> paging oncall") [] false true None) :: rest /\
    instance_attr notify_runner "contact" = Some (VStr "nobody") /\
    instance_attr self "contact" = Some (VStr "oncall") /\
    hasattr self "pager" = false /\
    instance_attr self "runner_name" = Some (VStr "notify").
Proof.
  split; [reflexivity|].
  destruct (handle_overlays_payload notify_env 0%nat (world_in_state "2")
              (mkDecidedEvent 0%nat (Some [("contact", VStr "oncall"); ("pager", VInt 7)])
                 (VStr "CPU CRIT -> paging oncall") [] false true None)
              eq_refl eq_refl eq_refl) as (payload & Hp & Hin & Hex).
  injection Hp as <-.
  destruct (Hex (snd (overwrite_attributes notify_runner
                        [("contact", VStr "oncall"); ("pager", VInt 7)]))
              eq_refl eq_refl eq_refl (ex_intro _ "run" eq_refl)) as (rest & Heq).
  eexists. exists rest. split; [exact Heq|].
  destruct (Hin _ _ ltac:(rewrite Heq; left; reflexivity))
    as (_ & _ & Hset & Hnone & Hkept & _).
  split; [reflexivity|]. split; [|split].
  - apply Hset; reflexivity.
  - apply Hnone; reflexivity.
  - rewrite Hkept; reflexivity.
Defined.

(** C10, as the code has it.  Whenever [handle] returns, it returns [None]:
    the boolean of [run_decided] is not its result.  It raises instead of
    returning in these cases only: an exception that is not derived from
    [Exception] came up; or it went on with an event and one of the two
    calls after its [try] statement failed, because a value shadows
    [overwrite_attributes], because the payload names an attribute that
    [setattr] guards, or because a value shadows [run_decided] once the
    payload is laid over the instance. *)
Theorem handle_returns_None (E : Env) (raw : loc) (w : world) :
  match value (handle E raw w) with
  | Ok v => v = VNone
  | Raised e =>
      is_Exception e = false \/
      exists ev payload,
        value (decide_phase E raw w) = Ok (Some ev) /\
        _payload ev = Some payload /\
        ((exists v, getattr (w_self w) "overwrite_attributes" = Some (Value v) /\
                    e = not_callable v) \/
         (exists k v, dict_get payload k = Some v /\ guarded_name k = true /\
                      e = setattr_error k v) \/
         (exists v, getattr (snd (overwrite_attributes (w_self w) payload)) "run_decided"
                      = Some (Value v) /\
                    e = not_callable v))
  end.
Proof.
  rewrite handle_unfold.
  pose proof (decide_phase_result E raw w) as Hres.
  pose proof (decide_phase_self E raw w) as Hself.
  destruct (decide_phase E raw w) as [[r w1] t1].
  cbn [value final fst snd] in Hres, Hself.
  destruct r as [[ev|]|e]; [|reflexivity|cbn; left; apply Hres].
  destruct (Hres ev eq_refl) as (_ & Hc & _).
  unfold is_complete in Hc.
  destruct (_payload ev) as [payload|] eqn:Hp; [|discriminate].
  rewrite Hself.
  assert (forall x : res pyval * world * list effect,
            x = (let (o, self2) := overwrite_attributes (w_self w) payload in
                 match o with
                 | Some e => (Raised e, mkWorld (w_heap w1) self2, t1)
                 | None =>
                     match getattr self2 "run_decided" with
                     | Some (Value v) =>
                         (Raised (not_callable v), mkWorld (w_heap w1) self2, t1)
                     | _ =>
                         let '(r, w3, t3) :=
                           run_decided E (Some ev) (mkWorld (w_heap w1) self2) in
                         (match r with Ok _ => Ok VNone | Raised e => Raised e end, w3,
                          (t1 ++ t3)%list)
                     end
                 end) ->
            match value x with
            | Ok v => v = VNone
            | Raised e =>
                is_Exception e = false \/
                exists ev0 payload0,
                  Ok (Some ev) = Ok (Some ev0) /\ _payload ev0 = Some payload0 /\
                  ((exists v, getattr (w_self w) "overwrite_attributes" = Some (Value v) /\
                              e = not_callable v) \/
                   (exists k v, dict_get payload0 k = Some v /\ guarded_name k = true /\
                                e = setattr_error k v) \/
                   (exists v,
                      getattr (snd (overwrite_attributes (w_self w) payload0)) "run_decided"
                        = Some (Value v) /\
                      e = not_callable v))
            end) as Hrest.
  { intros x ->.
    destruct (overwrite_attributes (w_self w) payload) as [[e|] self2] eqn:Ho.
    - cbn. right. exists ev, payload. split; [reflexivity|]. split; [exact Hp|].
      right. left. unfold overwrite_attributes in Ho.
      destruct (overwrite_loop_Some _ _ _ _ _ Ho) as (k & v & _ & Hg & Hk & ->).
      exists k, v. auto.
    - cbn [snd].
      assert (match value (let '(r, w3, t3) :=
                             run_decided E (Some ev) (mkWorld (w_heap w1) self2) in
                           (match r with Ok _ => Ok VNone | Raised e => Raised e end, w3,
                            (t1 ++ t3)%list)) with
              | Ok v => v = VNone
              | Raised e => is_Exception e = false
              end) as Hrd.
      { destruct (run_decided_returns E ev (mkWorld (w_heap w1) self2))
          as [(b & Hb)|(e & He & Hne)];
          destruct (run_decided E (Some ev) _) as [[r w3] t3];
          cbn [value fst] in *; subst r; auto. }
      destruct (getattr self2 "run_decided") as [[v|m]|] eqn:Hrd'.
      + cbn. right. exists ev, payload. split; [reflexivity|]. split; [exact Hp|].
        right. right. exists v. rewrite Ho. auto.
      + revert Hrd. match goal with |- context [value ?x] => destruct (value x) end; auto.
      + revert Hrd. match goal with |- context [value ?x] => destruct (value x) end; auto. }
  destruct (getattr (w_self w) "overwrite_attributes") as [[v|m]|] eqn:Hoa.
  - cbn. right. exists ev, payload. split; [reflexivity|]. split; [exact Hp|].
    left. exists v. auto.
  - apply Hrest. reflexivity.
  - apply Hrest. reflexivity.
Qed.

(** C10 as stated fails: the decider hands back a complete event whose
    payload has the key [run_decided].  [overwrite_attributes] stores the
    payload's string under that name, and the call of [run_decided] that
    follows raises TypeError to the caller of [handle]: no command is built
    or executed, and the instance keeps the string. *)
Lemma handle_raises_TypeError :
  value (self_decide_and_prepare_event notify_env 0%nat
           (mkWorld cpu_heap (notify_with "shadowing")))
    = Ok (Some (mkDecidedEvent 0%nat (Some [("run_decided", VStr "x")])
                  (VStr "CPU CRIT") [] false true None)) /\
  value (handle notify_env 0%nat (mkWorld cpu_heap (notify_with "shadowing")))
    = Raised (TypeError "'str' object is not callable") /\
  effects (handle notify_env 0%nat (mkWorld cpu_heap (notify_with "shadowing"))) = [] /\
  instance_attr
    (w_self (final (handle notify_env 0%nat (mkWorld cpu_heap (notify_with "shadowing")))))
    "run_decided" = Some (VStr "x").
Proof. vm_compute. repeat split. Qed.

Example handle_end_to_end :
  value (handle notify_env 0%nat (world_in_state "2")) = Ok VNone /\
  logged INFO (effects (handle notify_env 0%nat (world_in_state "2")))
    = [[Arg (VStr "CPU CRIT -> paging oncall")]] /\
  logged CRITICAL (effects (handle notify_env 0%nat (world_in_state "2"))) = [] /\
  In (Popen (VStr "notify.sh oncall")) (effects (handle notify_env 0%nat (world_in_state "2"))).
Proof. vm_compute. repeat split. auto. Qed.

(** ** The timeout decorator *)

Lemma run_call_with_timeout_handler
  (func : Signal.call) (e : exn) (seconds : nat) :
  Signal.run_call func (Signal.mkSig (Signal.Handler (Some e)) seconds) =
  if (0 <? seconds)%nat && (seconds <=? Signal.duration func)%nat
  then (Signal.outcome_of (Signal.interrupted func e),
        Signal.mkSig (Signal.Handler (Some e)) 0)
  else (Signal.undisturbed func,
        Signal.mkSig (Signal.Handler (Some e)) (seconds - Signal.duration func)).
Proof.
  unfold Signal.run_call. cbn [Signal.pending Signal.sigalrm].
  now destruct ((0 <? seconds)%nat && (seconds <=? Signal.duration func)%nat).
Qed.

Lemma outcome_of_not_terminated (r : res pyval) :
  Signal.outcome_of r <> Signal.Terminated.
Proof. destruct r; discriminate. Qed.

Lemma signal_alarm_in_range (n : Z) (s : Signal.sigstate) :
  - 2 ^ 31 <= n < 2 ^ 31 ->
  Signal.signal_alarm n s =
  (Ok (Signal.pending s), Signal.mkSig (Signal.sigalrm s) (Z.to_nat (n mod 2 ^ 32))).
Proof.
  intros Hn. unfold Signal.signal_alarm.
  assert ((n <? - 2 ^ 31) || (2 ^ 31 <=? n) = false) as ->; [|reflexivity].
  apply orb_false_iff. split; [apply Z.ltb_ge|apply Z.leb_gt]; lia.
Qed.

(** What one wrapped call does, by the range of [seconds]. *)
Lemma timeout_unfold
  (seconds : Z) (error_message : string) (func : Signal.call) (s : Signal.sigstate) :
  let handler := Signal.Handler (Some (Signal.RunnerTimeoutError error_message)) in
  let alarm := Z.to_nat (seconds mod 2 ^ 32) in
  Signal.timeout seconds error_message func s =
  if (seconds <? - 2 ^ 31) || (2 ^ 31 <=? seconds) then
    (Signal.Raises Signal.OverflowError, Signal.mkSig handler (Signal.pending s),
     [Signal.SetHandler handler; Signal.Alarm seconds])
  else
    (if (0 <? alarm)%nat && (alarm <=? Signal.duration func)%nat
     then Signal.outcome_of
            (Signal.interrupted func (Signal.RunnerTimeoutError error_message))
     else Signal.undisturbed func,
     Signal.mkSig (Signal.sigalrm s) 0,
     [Signal.SetHandler handler; Signal.Alarm seconds; Signal.Call;
      Signal.SetHandler (Signal.sigalrm s); Signal.Alarm 0]).
Proof.
  cbv zeta.
  unfold Signal.timeout, Signal.timeout_around, Signal.signal_signal, Signal.signal_alarm.
  cbn [Signal.pending Signal.sigalrm].
  destruct ((seconds <? - 2 ^ 31) || (2 ^ 31 <=? seconds)); [reflexivity|].
  rewrite run_call_with_timeout_handler.
  destruct ((0 <? Z.to_nat (seconds mod 2 ^ 32))%nat &&
            (Z.to_nat (seconds mod 2 ^ 32) <=? Signal.duration func)%nat).
  - pose proof (outcome_of_not_terminated
                  (Signal.interrupted func (Signal.RunnerTimeoutError error_message))) as Hu.
    destruct (Signal.outcome_of _); try contradiction; reflexivity.
  - pose proof (outcome_of_not_terminated (Signal.completes func)) as Hu.
    unfold Signal.undisturbed.
    destruct (Signal.outcome_of _); try contradiction; reflexivity.
Qed.

(** C8, as the code has it.  For [seconds] in the range of a C int: when
    [seconds], taken as an unsigned number, is positive and the call is not
    done before that many seconds have passed,
    [RunnerTimeoutError(error_message)] is raised in the call, and the
    wrapped call ends as the function ends on that exception (raising it,
    unless the function catches it); otherwise it ends as the function does.
    Whether the function returns, raises or is timed out, the steps after it
    are one [signal.signal] with the handler found at the start and one
    [signal.alarm(0)]: the previous handler is installed again and no alarm is
    pending, whatever alarm was pending before.  For [seconds] outside that
    range [signal.alarm(seconds)] raises OverflowError before the [try]
    statement: the function is not called and the handler of the timeout
    stays installed. *)
Theorem timeout_restores_handler
  (seconds : Z) (error_message : string) (func : Signal.call) (s : Signal.sigstate) :
  let x := Signal.timeout seconds error_message func s in
  let handler := Signal.Handler (Some (Signal.RunnerTimeoutError error_message)) in
  let alarm := Z.to_nat (seconds mod 2 ^ 32) in
  if (seconds <? - 2 ^ 31) || (2 ^ 31 <=? seconds) then
    fst (fst x) = Signal.Raises Signal.OverflowError /\
    Signal.sigalrm (snd (fst x)) = handler /\
    Signal.pending (snd (fst x)) = Signal.pending s /\
    snd x = [Signal.SetHandler handler; Signal.Alarm seconds]
  else
    fst (fst x) =
      (if (0 <? alarm)%nat && (alarm <=? Signal.duration func)%nat
       then match Signal.interrupted func (Signal.RunnerTimeoutError error_message) with
            | Ok v => Signal.Returned v
            | Raised e => Signal.Raises e
            end
       else match Signal.completes func with
            | Ok v => Signal.Returned v
            | Raised e => Signal.Raises e
            end) /\
    Signal.sigalrm (snd (fst x)) = Signal.sigalrm s /\
    Signal.pending (snd (fst x)) = 0%nat /\
    Signal.after_call (snd x) = [Signal.SetHandler (Signal.sigalrm s); Signal.Alarm 0].
Proof.
  cbv zeta. rewrite timeout_unfold. cbv zeta.
  destruct ((seconds <? - 2 ^ 31) || (2 ^ 31 <=? seconds)); repeat split.
Qed.

(** C8 as stated fails.  An alarm with 100 seconds left is pending when a
    function wrapped with a timeout of 5 seconds is called and returns after
    one second: afterwards no alarm is pending.  And with a timeout of 0
    seconds no alarm is set: a call of any length returns normally. *)
Lemma timeout_does_not_restore_pending_alarm :
  Signal.pending
    (snd (fst (Signal.timeout 5 "Timeout" (Signal.mkCall 1 (Ok VNone) Raised)
                 (Signal.mkSig Signal.SIG_DFL 100)))) = 0%nat /\
  snd (fst (Signal.timeout 5 "Timeout" (Signal.mkCall 1 (Ok VNone) Raised)
              (Signal.mkSig Signal.SIG_DFL 100)))
    <> Signal.mkSig Signal.SIG_DFL 100 /\
  snd (fst (Signal.timeout 5 "Timeout" (Signal.mkCall 1 (Ok VNone) Raised)
              (Signal.mkSig Signal.SIG_DFL 100)))
    <> Signal.mkSig Signal.SIG_DFL 99 /\
  fst (fst (Signal.timeout 0 "Timeout" (Signal.mkCall 10 (Ok VNone) Raised)
              (Signal.mkSig Signal.SIG_DFL 0)))
    = Signal.Returned VNone.
Proof. repeat split; try reflexivity; vm_compute; discriminate. Qed.

Example timeout_overrun :
  Signal.timeout 5 "Timeout" (Signal.mkCall 8 (Ok (VInt 1)) Raised)
    (Signal.mkSig (Signal.Handler None) 0) =
  (Signal.Raises (Signal.RunnerTimeoutError "Timeout"),
   Signal.mkSig (Signal.Handler None) 0,
   [Signal.SetHandler (Signal.Handler (Some (Signal.RunnerTimeoutError "Timeout")));
    Signal.Alarm 5; Signal.Call;
    Signal.SetHandler (Signal.Handler None); Signal.Alarm 0]).
Proof. reflexivity. Qed.

(** A function that catches every [Exception] returns what its handler
    gives, also on the timeout. *)
Example timeout_caught :
  fst (fst (Signal.timeout 5 "Timeout"
              (Signal.mkCall 8 (Ok (VInt 1)) (fun _ => Ok (VStr "gave up")))
              (Signal.mkSig (Signal.Handler None) 0)))
  = Signal.Returned (VStr "gave up").
Proof. reflexivity. Qed.

(** A number of seconds that is no C int: the function is not called and
    the handler of the timeout stays. *)
Example timeout_overflow :
  Signal.timeout (2 ^ 31) "Timeout" (Signal.mkCall 1 (Ok VNone) Raised)
    (Signal.mkSig Signal.SIG_DFL 0) =
  (Signal.Raises Signal.OverflowError,
   Signal.mkSig (Signal.Handler (Some (Signal.RunnerTimeoutError "Timeout"))) 0,
   [Signal.SetHandler (Signal.Handler (Some (Signal.RunnerTimeoutError "Timeout")));
    Signal.Alarm (2 ^ 31)]).
Proof. reflexivity. Qed.

(** * Further properties *)

(** ** DecidedEvent: what the constructor leaves *)

Lemma DecidedEvent_init_Ok_not_digit_string
  (P : Python) (raw : loc) (h h' : heap) (ev : DecidedEvent) (k s : string) :
  DecidedEvent_init P raw h = (Ok ev, h') ->
  dict_get (h' raw) k = Some (VStr s) ->
  str_isdigit P s = false.
Proof.
  intros Hinit. destruct (DecidedEvent_init_Ok P _ _ _ _ Hinit) as (_ & Hv & Hget).
  rewrite Hget.
  destruct (dict_get (h raw) k) as [v|] eqn:Hg; [|discriminate].
  intros [= Hs]. apply (coerced_Ok_not_digit_string P v). rewrite (Hv k v Hg). now f_equal.
Qed.

(** When [DecidedEvent(raw)] returns, no value of [eventopts] is a string
    that [isdigit] accepts, whatever the raw event held. *)
Theorem DecidedEvent_init_no_digit_string
  (P : Python) (raw : loc) (h h' : heap) (ev : DecidedEvent) (k s : string) :
  DecidedEvent_init P raw h = (Ok ev, h') ->
  dict_get (eventopts ev h') k = Some (VStr s) ->
  str_isdigit P s = false.
Proof.
  intros Hinit. destruct (DecidedEvent_init_Ok P _ _ _ _ Hinit) as (-> & _).
  unfold eventopts. cbn [_eventopts].
  now apply DecidedEvent_init_Ok_not_digit_string with h (mkDecidedEvent raw None (VStr (str_dict P (h' raw))) [] false true None).
Qed.

Lemma DecidedEvent_init_no_digit_string_witness :
  dict_get (cpu_heap 0%nat) "state" = Some (VStr "2") /\
  str_isdigit cpython "2" = true /\
  dict_get (snd (DecidedEvent_init cpython 0%nat cpu_heap) 0%nat) "output" = Some (VStr "CRIT") /\
  str_isdigit cpython "CRIT" = false.
Proof.
  split; [reflexivity|]. split; [reflexivity|]. split; [reflexivity|].
  exact (DecidedEvent_init_no_digit_string cpython 0%nat cpu_heap
           (snd (DecidedEvent_init cpython 0%nat cpu_heap))
           (mkDecidedEvent 0%nat None (VStr "{...}") [] false true None)
           "output" "CRIT" eq_refl eq_refl).
Defined.

Lemma coerce_loop_fixed (P : Python) (l : loc) (ks : list string) (h : heap) :
  (forall k s, dict_get (h l) k = Some (VStr s) -> str_isdigit P s = false) ->
  coerce_loop P l ks h = (None, h).
Proof.
  intros Hh. induction ks as [|k0 ks IH]; simpl; auto.
  assert (coerce_item P l h k0 = Ok h) as ->; [|exact IH].
  unfold coerce_item.
  destruct (dict_get (h l) k0) as [[| | |s|]|] eqn:Hg; auto.
  now rewrite (Hh k0 s Hg).
Qed.

(** Constructing a second event from a raw event that an event was already
    constructed from succeeds and changes nothing in the store: the coercion
    is done once. *)
Theorem DecidedEvent_init_twice
  (P : Python) (raw : loc) (h h' : heap) (ev : DecidedEvent) :
  DecidedEvent_init P raw h = (Ok ev, h') ->
  exists ev', DecidedEvent_init P raw h' = (Ok ev', h') /\ _summary ev' = _summary ev.
Proof.
  intros Hinit.
  assert (coerce_loop P raw (dict_keys (h' raw)) h' = (None, h')) as Hloop.
  { apply coerce_loop_fixed. intros k s Hg.
    now apply (DecidedEvent_init_Ok_not_digit_string P raw h h' ev k s Hinit). }
  unfold DecidedEvent_init at 1. rewrite Hloop. eexists. split; [reflexivity|].
  destruct (DecidedEvent_init_Ok P _ _ _ _ Hinit) as (-> & _). reflexivity.
Qed.

Lemma DecidedEvent_init_twice_witness :
  exists ev',
    DecidedEvent_init cpython 0%nat (snd (DecidedEvent_init cpython 0%nat cpu_heap))
    = (Ok ev', snd (DecidedEvent_init cpython 0%nat cpu_heap)).
Proof.
  destruct (DecidedEvent_init_twice cpython 0%nat cpu_heap
              (snd (DecidedEvent_init cpython 0%nat cpu_heap))
              (mkDecidedEvent 0%nat None (VStr "{...}") [] false true None)
              eq_refl) as (ev' & H & _).
  exists ev'. exact H.
Defined.

Lemma dict_get_map_values (f : pyval -> pyval) (d : pydict) (k : string) :
  dict_get (map (fun kv => (fst kv, f (snd kv))) d) k = f <$> dict_get d k.
Proof.
  induction d as [|[k0 v0] r IH]; simpl; auto.
  destruct (String.eqb k0 k); auto.
Qed.

Lemma dict_get_not_key (d : pydict) (k : string) :
  ~ In k (dict_keys d) -> dict_get d k = None.
Proof.
  induction d as [|[k0 v0] r IH]; simpl; auto.
  intros Hn. destruct (String.eqb k0 k) eqn:Hk.
  - apply String.eqb_eq in Hk. tauto.
  - apply IH. tauto.
Qed.

(** Two dicts with the same keys in the same order, each key once, and the
    same value at every key are the same list. *)
Lemma dict_ext (d1 d2 : pydict) :
  List.NoDup (dict_keys d1) ->
  dict_keys d1 = dict_keys d2 ->
  (forall k, dict_get d1 k = dict_get d2 k) ->
  d1 = d2.
Proof.
  revert d2. induction d1 as [|[k1 v1] r1 IH]; intros [|[k2 v2] r2] Hnd Hk Hg;
    try discriminate; auto.
  simpl in Hk. injection Hk as Hk1 Hk. subst k2.
  inversion Hnd as [|? ? Hnot Hnd']; subst.
  pose proof (Hg k1) as H1. simpl in H1. rewrite String.eqb_refl in H1.
  injection H1 as <-. f_equal.
  apply IH; auto.
  intros k. specialize (Hg k). simpl in Hg.
  destruct (String.eqb k1 k) eqn:Hkk; auto.
  apply String.eqb_eq in Hkk. subst k.
  rewrite (dict_get_not_key r1 k1 Hnot).
  rewrite Hk in Hnot. now rewrite (dict_get_not_key r2 k1 Hnot).
Qed.

Lemma dict_get_entry (d : pydict) (k : string) (v : pyval) :
  List.NoDup (dict_keys d) -> In (k, v) d -> dict_get d k = Some v.
Proof.
  induction d as [|[k0 v0] r IH]; simpl; [contradiction|].
  intros Hnd [[= -> ->]|Hin].
  - now rewrite String.eqb_refl.
  - inversion Hnd as [|? ? Hnot Hnd']; subst.
    destruct (String.eqb k0 k) eqn:Hk; [|auto].
    apply String.eqb_eq in Hk. subst k0. exfalso. apply Hnot.
    unfold dict_keys. apply in_map_iff. now exists (k, v).
Qed.

(** On a raw event whose keys are distinct (as the keys of a dict are),
    when the constructor returns it leaves the raw event with every value
    coerced, entry by entry and in the same order: [int] accepted every
    string of the raw event that [isdigit] accepts. *)
Theorem DecidedEvent_init_entries
  (P : Python) (raw : loc) (h h' : heap) (ev : DecidedEvent) :
  List.NoDup (dict_keys (h raw)) ->
  DecidedEvent_init P raw h = (Ok ev, h') ->
  Forall2 (fun before after =>
             fst after = fst before /\ coerced P (snd before) = Ok (snd after))
    (h raw) (h' raw).
Proof.
  intros Hnd Hinit.
  destruct (DecidedEvent_init_Ok P _ _ _ _ Hinit) as (_ & Hv & Hget).
  assert (h' raw = map (fun kv => (fst kv, coerced_value P (snd kv))) (h raw)) as ->.
  { symmetry. apply dict_ext.
    - unfold dict_keys. rewrite map_map. exact Hnd.
    - pose proof (coerce_loop_keys P raw (dict_keys (h raw)) h) as Hk.
      rewrite <- DecidedEvent_init_snd, Hinit in Hk. cbn [snd] in Hk. rewrite Hk.
      unfold dict_keys. rewrite map_map. reflexivity.
    - intros k. now rewrite Hget, dict_get_map_values. }
  assert (forall kv, In kv (h raw) -> coerced P (snd kv) = Ok (coerced_value P (snd kv))) as Hall.
  { intros [k v] Hin. apply (Hv k). now apply dict_get_entry. }
  clear -Hall. induction (h raw) as [|kv d IH]; simpl; constructor.
  - split; [reflexivity|]. apply Hall. now left.
  - apply IH. intros kv' Hin. apply Hall. now right.
Qed.

Lemma DecidedEvent_init_entries_witness :
  List.NoDup (dict_keys (cpu_heap 0%nat)) /\
  Forall2 (fun before after =>
             fst after = fst before /\ coerced cpython (snd before) = Ok (snd after))
    [("service_description", VStr "CPU"); ("state", VStr "2"); ("output", VStr "CRIT")]
    [("service_description", VStr "CPU"); ("state", VInt 2); ("output", VStr "CRIT")].
Proof.
  assert (List.NoDup (dict_keys (cpu_heap 0%nat))) as Hnd.
  { repeat constructor; simpl; intuition discriminate. }
  split; [exact Hnd|].
  exact (DecidedEvent_init_entries cpython 0%nat cpu_heap
           (snd (DecidedEvent_init cpython 0%nat cpu_heap))
           (mkDecidedEvent 0%nat None (VStr "{...}") [] false true None)
           Hnd eq_refl).
Defined.

(** ** DecidedEvent: what a decider can do to it *)

(** Nothing undoes a discard: after any sequence of setter calls and
    discards the event is discarded exactly if it was before or the sequence
    has a discard. *)
Theorem discard_is_final (self : DecidedEvent) (ops : list event_op) :
  _discarded (apply_ops self ops) = _discarded self || existsb is_Discard ops.
Proof.
  unfold apply_ops. revert self.
  induction ops as [|op ops IH]; intros self; simpl.
  - now rewrite orb_false_r.
  - rewrite IH. destruct op; simpl; auto.
    now rewrite orb_true_r.
Qed.

(** [is_heartbeat] can be read only after it was set: on a new event, and
    after any calls that do not set it, reading it raises AttributeError. *)
Theorem is_heartbeat_unset_until_set
  (P : Python) (raw : loc) (h h' : heap) (ev : DecidedEvent) (ops : list event_op) :
  DecidedEvent_init P raw h = (Ok ev, h') ->
  match get_is_heartbeat (apply_ops ev ops) with
  | Ok _ => existsb is_SetIsHeartbeat ops = true
  | Raised e =>
      existsb is_SetIsHeartbeat ops = false /\
      e = AttributeError "DecidedEvent" "_is_heartbeat"
  end.
Proof.
  intros Hinit.
  assert (forall ev,
             match get_is_heartbeat (apply_ops ev ops) with
             | Ok _ => existsb is_SetIsHeartbeat ops = true \/ _is_heartbeat ev <> None
             | Raised e =>
                 existsb is_SetIsHeartbeat ops = false /\ _is_heartbeat ev = None /\
                 e = AttributeError "DecidedEvent" "_is_heartbeat"
             end) as Hgen.
  { clear. unfold apply_ops. induction ops as [|op ops IH]; intros ev; simpl.
    - unfold get_is_heartbeat. destruct (_is_heartbeat ev); auto.
    - specialize (IH (apply_op ev op)).
      destruct (get_is_heartbeat (fold_left apply_op ops (apply_op ev op))).
      + destruct op; simpl in *; auto; destruct IH as [->|IH]; auto;
          rewrite ?orb_true_r; auto.
      + destruct IH as (Hops & Hev & He).
        destruct op; simpl in *; auto; discriminate. }
  specialize (Hgen ev).
  destruct (DecidedEvent_init_Ok P _ _ _ _ Hinit) as (Hev & _).
  destruct (get_is_heartbeat _).
  - destruct Hgen as [H|H]; auto. subst ev. now contradiction H.
  - tauto.
Qed.

Lemma is_heartbeat_unset_until_set_witness :
  get_is_heartbeat (mkDecidedEvent 0%nat None (VStr "{...}") [] false true None)
    = Raised (AttributeError "DecidedEvent" "_is_heartbeat") /\
  existsb is_SetIsHeartbeat [SetSummary (VStr "s"); SetIsHeartbeat (VBool true)] = true.
Proof.
  split; [reflexivity|].
  exact (is_heartbeat_unset_until_set cpython 0%nat cpu_heap
           (snd (DecidedEvent_init cpython 0%nat cpu_heap))
           (mkDecidedEvent 0%nat None (VStr "{...}") [] false true None)
           [SetSummary (VStr "s"); SetIsHeartbeat (VBool true)] eq_refl).
Defined.

(** ** EventhandlerRunner: attributes *)

Lemma init_loop_class (opts : pydict) (ks : list string) (self self' : Runner) :
  init_loop opts ks self = Ok self' -> runner_class self' = runner_class self.
Proof.
  revert self. induction ks as [|k0 ks IH]; intros self; simpl.
  - now intros [= <-].
  - destruct (dict_get opts k0) as [v|]; [|apply IH].
    unfold setattr. destruct (guarded_name k0); [discriminate|].
    intros H. rewrite (IH _ H). apply runner_class_set.
Qed.

Lemma init_loop_Ok (opts : pydict) (ks : list string) (self self' : Runner) (k : string) :
  init_loop opts ks self = Ok self' ->
  instance_attr self' k =
  if existsb (fun k0 => String.eqb k0 k) ks
  then match dict_get opts k with Some v => Some v | None => instance_attr self k end
  else instance_attr self k.
Proof.
  revert self. induction ks as [|k0 ks IH]; intros self; simpl.
  - now intros [= <-].
  - destruct (dict_get opts k0) as [v0|] eqn:Hd0.
    + unfold setattr. destruct (guarded_name k0); [discriminate|].
      intros H. rewrite (IH _ H), instance_attr_set.
      destruct (String.eqb k0 k) eqn:Hk; simpl.
      * apply String.eqb_eq in Hk. subst k0. rewrite Hd0. now destruct (existsb _ ks).
      * reflexivity.
    + intros H. rewrite (IH _ H).
      destruct (String.eqb k0 k) eqn:Hk; simpl; auto.
      apply String.eqb_eq in Hk. subst k0. rewrite Hd0. now destruct (existsb _ ks).
Qed.

Lemma init_loop_Raised (opts : pydict) (ks : list string) (self : Runner) (e : exn) :
  init_loop opts ks self = Raised e ->
  exists k v, dict_get opts k = Some v /\ guarded_name k = true /\ e = setattr_error k v.
Proof.
  revert self. induction ks as [|k0 ks IH]; intros self; simpl; [discriminate|].
  destruct (dict_get opts k0) as [v0|] eqn:Hd0; [|apply IH].
  unfold setattr. destruct (guarded_name k0) eqn:Hg.
  - intros [= <-]. exists k0, v0. auto.
  - apply IH.
Qed.

(** After [__init__(opts)] the instance holds the options, each with its
    value, and [baseclass_logs_summary], which is [True] unless the options
    give it another value; it holds nothing else.  The constructor raises
    only for an option with a name that [setattr] guards. *)
Theorem EventhandlerRunner_init_attributes (cls : pyclass) (opts : pydict) :
  match EventhandlerRunner_init cls opts with
  | Ok self =>
      runner_class self = cls /\
      forall k,
        instance_attr self k =
        match dict_get opts k with
        | Some v => Some v
        | None => if String.eqb k "baseclass_logs_summary" then Some (VBool true) else None
        end
  | Raised e =>
      exists k v, dict_get opts k = Some v /\ guarded_name k = true /\ e = setattr_error k v
  end.
Proof.
  unfold EventhandlerRunner_init.
  destruct (init_loop opts (dict_keys opts) (mkRunner cls (VBool true) ∅)) as [self|e] eqn:Hl.
  - split; [now rewrite (init_loop_class _ _ _ _ Hl)|].
    intros k. rewrite (init_loop_Ok _ _ _ _ k Hl).
    assert (instance_attr (mkRunner cls (VBool true) ∅) k =
            if String.eqb k "baseclass_logs_summary" then Some (VBool true) else None) as Hbase.
    { unfold instance_attr. cbn [baseclass_logs_summary attrs].
      destruct (String.eqb k "baseclass_logs_summary"); auto. }
    rewrite Hbase.
    destruct (dict_get opts k) as [v|] eqn:Hd.
    + now rewrite (dict_get_in_keys _ _ _ Hd).
    + now destruct (existsb _ _).
  - now apply init_loop_Raised with (dict_keys opts) (mkRunner cls (VBool true) ∅).
Qed.

Example EventhandlerRunner_init_examples :
  (exists self, EventhandlerRunner_init NotifyRunner [("contact", VStr "nobody")] = Ok self /\
                instance_attr self "contact" = Some (VStr "nobody") /\
                getattr self "run" = Some (Method "run") /\
                getattr self "handle" = Some (Method "handle") /\
                hasattr self "__class__" = true /\
                hasattr self "pager" = false) /\
  (exists e, EventhandlerRunner_init NotifyRunner [("__dict__", VInt 1)] = Raised e /\
             exn_class e = "TypeError").
Proof.
  split.
  - eexists. split; [reflexivity|]. vm_compute. repeat split.
  - eexists. split; reflexivity.
Qed.

Lemma overwrite_loop_guarded
  (payload : pydict) (ks : list string) (self : Runner) (k : string) (v : pyval) :
  In k ks -> guarded_name k = true -> dict_get payload k = Some v ->
  fst (overwrite_loop payload ks self) <> None.
Proof.
  revert self. induction ks as [|k0 ks IH]; intros self; simpl; [contradiction|].
  intros Hin Hg Hp.
  destruct (String.eqb k0 k) eqn:Hk.
  - apply String.eqb_eq in Hk. subst k0.
    rewrite (guarded_name_hasattr self k Hg), Hp. unfold setattr. rewrite Hg. discriminate.
  - destruct Hin as [->|Hin]; [now rewrite String.eqb_refl in Hk|].
    destruct (hasattr self k0); [|now apply IH].
    destruct (dict_get payload k0) as [v0|]; [|now apply IH].
    unfold setattr. destruct (guarded_name k0); [discriminate|]. now apply IH.
Qed.

(** [overwrite_attributes] changes what [hasattr] says of no name, whether
    it returns or raises, and the class of the instance stays.  When it
    returns, doing it a second time with the same payload returns as well
    and changes no value. *)
Theorem overwrite_attributes_names_kept (self : Runner) (payload : pydict) :
  (forall k, hasattr (snd (overwrite_attributes self payload)) k = hasattr self k) /\
  runner_class (snd (overwrite_attributes self payload)) = runner_class self /\
  (forall self',
     overwrite_attributes self payload = (None, self') ->
     exists self'',
       overwrite_attributes self' payload = (None, self'') /\
       forall k, instance_attr self'' k = instance_attr self' k).
Proof.
  split; [|split].
  - intros k. apply overwrite_loop_hasattr.
  - apply overwrite_loop_class.
  - intros self' Ho.
    destruct (overwrite_attributes self' payload) as [[e|] self''] eqn:Ho'.
    + exfalso. unfold overwrite_attributes in Ho, Ho'.
      destruct (overwrite_loop_Some _ _ _ _ _ Ho') as (k & v & Hin & Hg & Hp & _).
      apply (overwrite_loop_guarded payload (dict_keys payload) self k v Hin Hg Hp).
      now rewrite Ho.
    + exists self''. split; [reflexivity|]. intros k.
      rewrite (overwrite_attributes_None _ _ _ k Ho'), (overwrite_attributes_None _ _ _ k Ho).
      pose proof (overwrite_loop_hasattr payload (dict_keys payload) self k) as Hh.
      unfold overwrite_attributes in Ho. rewrite Ho in Hh. cbn [snd] in Hh. rewrite Hh.
      destruct (hasattr self k); auto. now destruct (dict_get payload k).
Qed.

(** ** new_decider and the stamps of decide_and_prepare_event *)

(** [new_decider] leaves the store and the instance as they are.  It yields
    an instance, of the module that [decider_name] names, without a log line;
    or [None] with exactly one CRITICAL line; or it lets an exception of the
    import or of the decider's constructor pass that is not derived from
    [Exception], without a log line. *)
Theorem new_decider_outcomes (E : Env) (w : world) :
  final (new_decider E w) = w /\
  match value (new_decider E w) with
  | Ok (Some d) =>
      effects (new_decider E w) = [] /\
      exists name,
        getattr (w_self w) "decider_name" = Some (Value (VStr name)) /\
        load_decider E name = Ok d
  | Ok None => exists msg, effects (new_decider E w) = [Log CRITICAL msg]
  | Raised e =>
      effects (new_decider E w) = [] /\ is_Exception e = false /\
      exists name,
        getattr (w_self w) "decider_name" = Some (Value (VStr name)) /\
        load_decider E name = Raised e
  end.
Proof.
  destruct (new_decider_cases E w)
    as [(name & d & Hn & Hl & ->)|[(msg & ->)|(name & e & Hn & Hl & He & ->)]]; cbn.
  - split; auto. split; auto. exists name. auto.
  - split; auto. exists msg. auto.
  - split; auto. split; auto. split; auto. exists name. auto.
Qed.

Example new_decider_examples :
  value (new_decider notify_env (mkWorld cpu_heap (notify_with "paging"))) = Ok (Some paging_decider) /\
  new_decider notify_env (mkWorld cpu_heap (notify_with "none")) =
    (Ok None, mkWorld cpu_heap (notify_with "none"),
     [Log CRITICAL [Lit "found no decider module "; Arg (VStr "none")]]).
Proof. split; reflexivity. Qed.

Lemma stamp_get (E : Env) (raw : loc) (h : heap) (k : string) :
  dict_get (stamp E raw h raw) k =
    (if String.eqb k "omd_originating_timestamp" then Some (VInt (time_time E))
     else if String.eqb k "omd_originating_fqdn" then Some (VStr (getfqdn E))
     else if String.eqb k "omd_originating_host" then Some (VStr (gethostname E))
     else if String.eqb k "omd_site" then
       Some (match dict_get (h raw) "omd_site" with
             | Some site => site
             | None => VStr (default "get https://omd.consol.de/docs/omd" (environ_OMD_SITE E))
             end)
     else dict_get (h raw) k).
Proof.
  unfold stamp. rewrite !heap_setitem_same, !dict_get_set.
  rewrite !(String.eqb_sym _ k).
  destruct (String.eqb k "omd_originating_timestamp"); auto.
  destruct (String.eqb k "omd_originating_fqdn"); auto.
  destruct (String.eqb k "omd_originating_host"); auto.
  unfold dict_contains.
  destruct (dict_get (h raw) "omd_site") as [site|] eqn:Hs.
  - destruct (String.eqb k "omd_site") eqn:Hk; auto.
    apply String.eqb_eq in Hk. subst k. auto.
  - rewrite heap_setitem_same, dict_get_set, (String.eqb_sym _ k).
    destruct (String.eqb k "omd_site"); auto.
Qed.

Lemma stamp_frame (E : Env) (raw l : loc) (h : heap) :
  l <> raw -> stamp E raw h l = h l.
Proof.
  intros Hl. unfold stamp.
  rewrite !heap_setitem_other by congruence.
  destruct (dict_contains (h raw) "omd_site"); auto.
  now rewrite heap_setitem_other by congruence.
Qed.

(** The raw event after the stamps: the originating host, domain name and
    time stamp are written over whatever the caller gave, [omd_site] is
    written only if the caller gave none, every other key keeps its value,
    and no other mapping of the store is touched. *)
Theorem stamp_contents (E : Env) (raw : loc) (h : heap) (k : string) (l : loc) :
  dict_get (stamp E raw h raw) k =
    (if String.eqb k "omd_originating_timestamp" then Some (VInt (time_time E))
     else if String.eqb k "omd_originating_fqdn" then Some (VStr (getfqdn E))
     else if String.eqb k "omd_originating_host" then Some (VStr (gethostname E))
     else if String.eqb k "omd_site" then
       Some (match dict_get (h raw) "omd_site" with
             | Some site => site
             | None => VStr (default "get https://omd.consol.de/docs/omd" (environ_OMD_SITE E))
             end)
     else dict_get (h raw) k) /\
  stamp E raw h l = if Nat.eqb l raw then stamp E raw h raw else h l.
Proof.
  split; [apply stamp_get|].
  destruct (Nat.eqb l raw) eqn:Hl.
  - apply Nat.eqb_eq in Hl. now subst.
  - apply Nat.eqb_neq in Hl. now apply stamp_frame.
Qed.

(** What the decider finds under the stamps: the constructor coerces them
    like any other value, so a host name or domain name that [isdigit]
    accepts reaches the decider as an integer (or stops the constructor, if
    [int] does not accept it). *)
Theorem stamps_are_coerced
  (E : Env) (raw : loc) (h h' : heap) (ev : DecidedEvent) :
  DecidedEvent_init E raw (stamp E raw h) = (Ok ev, h') ->
  exists host fqdn,
    coerced E (VStr (gethostname E)) = Ok host /\
    coerced E (VStr (getfqdn E)) = Ok fqdn /\
    dict_get (eventopts ev h') "omd_originating_host" = Some host /\
    dict_get (eventopts ev h') "omd_originating_fqdn" = Some fqdn /\
    dict_get (eventopts ev h') "omd_originating_timestamp" = Some (VInt (time_time E)).
Proof.
  intros Hinit.
  destruct (DecidedEvent_init_Ok E _ _ _ _ Hinit) as (-> & Hv & Hget).
  unfold eventopts. cbn [_eventopts].
  exists (coerced_value E (VStr (gethostname E))), (coerced_value E (VStr (getfqdn E))).
  rewrite !Hget, !stamp_get. cbn [String.eqb Ascii.eqb Bool.eqb fmap option_fmap option_map].
  split; [|split]; [| |repeat split].
  - apply (Hv "omd_originating_host"). now rewrite stamp_get.
  - apply (Hv "omd_originating_fqdn"). now rewrite stamp_get.
Qed.

Lemma stamps_are_coerced_witness :
  gethostname (mkEnv cpython None "4711" "4711.example.org" 1700000000
                 (load_decider notify_env) (run notify_env) (subprocess notify_env)) = "4711" /\
  dict_get
    (snd (DecidedEvent_init cpython 0%nat
            (stamp (mkEnv cpython None "4711" "4711.example.org" 1700000000
                      (load_decider notify_env) (run notify_env) (subprocess notify_env))
               0%nat cpu_heap)) 0%nat)
    "omd_originating_host" = Some (VInt 4711).
Proof.
  split; [reflexivity|].
  destruct (stamps_are_coerced
              (mkEnv cpython None "4711" "4711.example.org" 1700000000
                 (load_decider notify_env) (run notify_env) (subprocess notify_env))
              0%nat cpu_heap _ _ eq_refl) as (host & fqdn & Hh & _ & Hg & _).
  vm_compute in Hh. injection Hh as <-. exact Hg.
Defined.

(** ** handle and run_decided on every input *)

Lemma runner_label_Exception (self : Runner) (e : exn) :
  runner_label self = Raised e -> is_Exception e = true.
Proof.
  unfold runner_label.
  destruct (getattr self "tag") as [tag|].
  - destruct (getattr self "runner_name") as [[[| | |runner_name|b]|m]|];
      try (intros [= <-]; reflexivity).
    + destruct tag as [[| | |tag|]|]; try (intros [= <-]; reflexivity).
      destruct (endswith runner_name ("_" +:+ tag)); discriminate.
    + destruct tag as [[| | |tag|]|]; intros [= <-]; reflexivity.
  - destruct (getattr self "runner_name"); [discriminate|].
    intros [= <-]. reflexivity.
Qed.

Section Pipeline.

Variable E : Env.

(** The ways [self.decide_and_prepare_event(raw_event)] can end: with the
    event of the decider and no line; with [None] and one CRITICAL line; with
    an exception derived from [Exception] after at most one CRITICAL line;
    with another exception and no line. *)
Lemma self_decide_and_prepare_event_shape (raw : loc) (w : world) :
  exists r w1 t1,
    self_decide_and_prepare_event E raw w = (r, w1, t1) /\
    ((exists ev, r = Ok (Some ev) /\ t1 = []) \/
     (r = Ok None /\ exists m, t1 = [Log CRITICAL m]) \/
     (exists e, r = Raised e /\ is_Exception e = true /\
                (t1 = [] \/ exists m, value (self_new_decider E w) = Ok None /\
                                      t1 = [Log CRITICAL m])) \/
     (exists e, r = Raised e /\ is_Exception e = false /\ t1 = [])).
Proof.
  unfold self_decide_and_prepare_event.
  destruct (is_method (w_self w) "decide_and_prepare_event") eqn:Hm.
  - rewrite (method_is_method _ _ _ Hm).
    destruct (self_new_decider_cases E w) as [(d & Hn)|[(msg & Hn)|(e & Hn)]].
    + rewrite (decide_and_prepare_event_unfold E raw w _ _ Hn).
      destruct (DecidedEvent_init E raw _) as [[ev0|e0] h1] eqn:Hinit; cbv beta zeta.
      * destruct (runner_label (w_self w)) as [label|e] eqn:Hlabel.
        -- destruct (decide_and_prepare d label ev0 h1) as [[[u|e] ev1] h2].
           ++ do 3 eexists. split; [reflexivity|]. left. eauto.
           ++ destruct (is_Exception e) eqn:He; do 3 eexists; (split; [reflexivity|]).
              ** right. left. split; eauto.
              ** do 3 right. eauto.
        -- rewrite (runner_label_Exception _ _ Hlabel).
           do 3 eexists. split; [reflexivity|]. right. left. split; eauto.
      * destruct (DecidedEvent_init_Raised E _ _ _ _ Hinit) as (_ & ->).
        do 3 eexists. split; [reflexivity|]. right. left. split; eauto.
    + rewrite (decide_and_prepare_event_unfold E raw w _ _ Hn).
      destruct (DecidedEvent_init E raw _) as [[ev0|e0] h1] eqn:Hinit; cbv beta zeta.
      * destruct (runner_label (w_self w)) as [label|e] eqn:Hlabel.
        -- do 3 eexists. split; [reflexivity|]. right. right. left.
           eexists. split; [reflexivity|]. split; [reflexivity|].
           right. exists msg. now rewrite Hn.
        -- rewrite (runner_label_Exception _ _ Hlabel).
           do 3 eexists. split; [reflexivity|]. right. right. left.
           eexists. split; [reflexivity|]. split; [reflexivity|].
           right. exists msg. now rewrite Hn.
      * destruct (DecidedEvent_init_Raised E _ _ _ _ Hinit) as (_ & ->).
        do 3 eexists. split; [reflexivity|]. right. right. left.
        eexists. split; [reflexivity|]. split; [reflexivity|].
        right. exists msg. now rewrite Hn.
    + unfold decide_and_prepare_event, bind at 1. rewrite Hn.
      do 3 eexists. split; [reflexivity|].
      destruct (is_Exception e) eqn:He.
      * right. right. left. eauto 6.
      * do 3 right. eauto.
  - destruct (method_shadowed "decide_and_prepare_event" (decide_and_prepare_event E raw) w Hm)
      as (v & _ & H).
    rewrite H. do 3 eexists. split; [reflexivity|]. right. right. left.
    eexists. split; [reflexivity|]. split; [reflexivity|]. now left.
Qed.

(** The ways the [try] statement of [handle] can end. *)
Lemma decide_phase_shape (raw : loc) (w : world) :
  exists r w1 t1,
    decide_phase E raw w = (r, w1, t1) /\
    w_self w1 = w_self w /\
    ((exists ev, r = Ok (Some ev) /\ t1 = []) \/
     ((r = Ok None \/ exists e, r = Raised e /\ is_Exception e = false) /\
      (t1 = [] \/ (exists m, t1 = [Log INFO m]) \/ (exists m, t1 = [Log CRITICAL m]) \/
       (exists m1 m2,
           value (self_new_decider E w) = Ok None /\
           t1 = [Log CRITICAL m1; Log CRITICAL m2])))).
Proof.
  rewrite decide_phase_unfold.
  pose proof (self_decide_and_prepare_event_self E raw w) as Hself.
  destruct (self_decide_and_prepare_event_shape raw w) as (r & w1 & t1 & Heq & Hshape).
  rewrite Heq in *. cbn [final fst snd] in Hself.
  destruct Hshape as [(ev & -> & ->)|[(-> & m & ->)|[(e & -> & He & Ht)|(e & -> & He & ->)]]].
  - rewrite inspect_decided_guarded.
    destruct (_discarded ev).
    + destruct (_discarded_silently ev); do 3 eexists; (split; [reflexivity|]);
        (split; [exact Hself|]); right; split; eauto 6.
    + destruct (is_complete ev); do 3 eexists; (split; [reflexivity|]);
        (split; [exact Hself|]).
      * left. eexists. split; reflexivity.
      * right. split; eauto 6.
  - rewrite inspect_decided_guarded. do 3 eexists. split; [reflexivity|].
    split; [exact Hself|]. right. split; eauto 6.
  - rewrite He. do 3 eexists. split; [reflexivity|]. split; [exact Hself|].
    right. split; [now left|].
    destruct Ht as [->|(m & Hn & ->)]; cbn; eauto 8.
  - rewrite He. do 3 eexists. split; [reflexivity|]. split; [exact Hself|].
    right. split; eauto.
Qed.

(** The ways [run_decided] can go on an event: the call of [run], if [run]
    is found; then the command, if one was returned, in a debug line and
    started; then the report, unless an exception passes. *)
Lemma run_decided_shape (ev : DecidedEvent) (w : world) :
  exists r command report,
    run_decided E (Some ev) w =
      (r, snd (fst (self_run E ev w)), (snd (self_run E ev w) ++ command ++ report)%list) /\
    ((exists b, r = Ok (VBool b)) \/ (exists e, r = Raised e /\ is_Exception e = false /\ report = [])) /\
    match fst (fst (fst (self_run E ev w))) with
    | Ok c =>
        if truthy c
        then command = [Log DEBUG [Lit "command is "; Arg c]; Popen c]
        else command = []
    | Raised _ => command = []
    end /\
    (report = [] \/
     (exists m d, report = [Log INFO m; Log DEBUG d]) \/
     (exists m, report = [Log CRITICAL m])).
Proof.
  pose proof (attempt_some E ev w) as Ha.
  destruct (self_run E ev w) as [[[r0 ev1] w1] t0]. cbv beta zeta in Ha. cbn [fst snd].
  assert (forall l command,
            attempt E (Some ev) w = (Ok (l, Some ev1), w1, (t0 ++ command)%list) ->
            exists r report,
              run_decided E (Some ev) w = (r, w1, (t0 ++ command ++ report)%list) /\
              (exists b, r = Ok (VBool b)) /\
              (report = [] \/
               (exists m d, report = [Log INFO m; Log DEBUG d]) \/
               (exists m, report = [Log CRITICAL m]))) as Hafter.
  { intros l command Hatt. unfold run_decided, bind. rewrite Hatt. cbn [get_self].
    destruct (success l); destruct (truthy (baseclass_logs_summary (w_self w1)));
      try destruct (truthy (stderr l)); try destruct (truthy (decide_exception_msg l));
      cbn; rewrite <- ?app_assoc; do 2 eexists;
      (split; [reflexivity|]); (split; [eexists; reflexivity|]); eauto 6. }
  destruct r0 as [c|e0].
  - destruct (truthy c).
    + destruct (subprocess E c) as [[[out err] code]|e0].
      * destruct (Hafter _ _ Ha) as (r & report & Heq & Hb & Hr).
        exists r, [Log DEBUG [Lit "command is "; Arg c]; Popen c], report. auto.
      * destruct (is_Exception e0) eqn:He.
        -- destruct (Hafter _ _ Ha) as (r & report & Heq & Hb & Hr).
           exists r, [Log DEBUG [Lit "command is "; Arg c]; Popen c], report. auto.
        -- rewrite (run_decided_passes E _ _ _ _ _ Ha).
           exists (Raised e0), [Log DEBUG [Lit "command is "; Arg c]; Popen c], [].
           rewrite app_nil_r. split; [reflexivity|]. split; [right; eauto|]. auto.
    + rewrite <- (app_nil_r t0) in Ha.
      destruct (Hafter _ _ Ha) as (r & report & Heq & Hb & Hr).
      exists r, [], report. auto.
  - destruct (is_Exception e0) eqn:He.
    + rewrite <- (app_nil_r t0) in Ha.
      destruct (Hafter _ _ Ha) as (r & report & Heq & Hb & Hr).
      exists r, [], report. auto.
    + rewrite (run_decided_passes E _ _ _ _ _ Ha).
      exists (Raised e0), [], []. rewrite !app_nil_r.
      split; [reflexivity|]. split; [right; eauto|]. auto.
Qed.

(** When [self.run] did not come to call [run], it raised. *)
Lemma self_run_not_called (ev : DecidedEvent) (w : world) :
  snd (self_run E ev w) = [] ->
  exists e, fst (fst (fst (self_run E ev w))) = Raised e /\ is_Exception e = true /\
            snd (fst (self_run E ev w)) = w.
Proof.
  unfold self_run. destruct (getattr (w_self w) "run") as [[v|m]|].
  - intros _. eexists. repeat split.
  - destruct (run E (w_self w) ev (w_heap w)) as [[[r self1] ev1] h1]. discriminate.
  - intros _. eexists. repeat split.
Qed.

End Pipeline.

(** When no decider instance can be made, [handle] logs two CRITICAL lines,
    the one of [new_decider] and one for the raw event, runs no command,
    leaves the instance as it is and returns [None]. *)
Theorem handle_without_instance (E : Env) (raw : loc) (w : world) :
  is_method (w_self w) "decide_and_prepare_event" = true ->
  value (self_new_decider E w) = Ok None ->
  value (handle E raw w) = Ok VNone /\
  no_command (effects (handle E raw w)) /\
  length (logged CRITICAL (effects (handle E raw w))) = 2%nat /\
  logged INFO (effects (handle E raw w)) = [] /\
  w_self (final (handle E raw w)) = w_self w.
Proof.
  intros Hm Hv.
  destruct (self_new_decider_cases E w) as [(d & Hn)|[(msg & Hn)|(e & Hn)]];
    rewrite Hn in Hv; try discriminate.
  rewrite handle_unfold, decide_phase_unfold.
  unfold self_decide_and_prepare_event. rewrite (method_is_method _ _ _ Hm).
  rewrite (decide_and_prepare_event_unfold E raw w _ _ Hn).
  destruct (DecidedEvent_init E raw _) as [[ev0|e0] h1] eqn:Hinit; cbv beta zeta.
  - destruct (runner_label (w_self w)) as [label|e] eqn:Hlabel.
    + cbn. repeat split.
    + rewrite (runner_label_Exception _ _ Hlabel). cbn. repeat split.
  - destruct (DecidedEvent_init_Raised E _ _ _ _ Hinit) as (_ & ->). cbn. repeat split.
Qed.

Lemma handle_without_instance_witness :
  value (self_new_decider notify_env (mkWorld cpu_heap (notify_with "none"))) = Ok None /\
  length (logged CRITICAL
            (effects (handle notify_env 0%nat (mkWorld cpu_heap (notify_with "none")))))
  = 2%nat.
Proof.
  split; [reflexivity|].
  exact (proj1 (proj2 (proj2
           (handle_without_instance notify_env 0%nat
              (mkWorld cpu_heap (notify_with "none")) eq_refl eq_refl)))).
Defined.

(** When the [runner] attribute for the decider cannot be computed (no
    [runner_name], or a [tag] that is no string), the decider is not asked:
    [handle] logs that error in one CRITICAL line with the stamped raw
    event, and that is all it does. *)
Theorem handle_label_error
  (E : Env) (raw : loc) (w : world) (name : string) (d : Decider) (e : exn)
  (ev0 : DecidedEvent) (h1 : heap) :
  is_method (w_self w) "decide_and_prepare_event" = true ->
  is_method (w_self w) "new_decider" = true ->
  getattr (w_self w) "decider_name" = Some (Value (VStr name)) ->
  load_decider E name = Ok d ->
  DecidedEvent_init E raw (stamp E raw (w_heap w)) = (Ok ev0, h1) ->
  runner_label (w_self w) = Raised e ->
  value (handle E raw w) = Ok VNone /\
  effects (handle E raw w) = [Log CRITICAL (decider_error_line E (h1 raw) d e)] /\
  w_self (final (handle E raw w)) = w_self w.
Proof.
  intros Hm1 Hm2 Hn Hl Hinit Hlabel.
  rewrite handle_unfold, decide_phase_unfold.
  unfold self_decide_and_prepare_event. rewrite (method_is_method _ _ _ Hm1).
  assert (self_new_decider E w = (Ok (Some d), w, [])) as Hnd.
  { unfold self_new_decider. rewrite (method_is_method _ _ _ Hm2).
    now apply new_decider_loaded with name. }
  rewrite (decide_and_prepare_event_unfold E raw w _ _ Hnd).
  rewrite Hinit, Hlabel. cbv beta zeta.
  rewrite (runner_label_Exception _ _ Hlabel), inspect_decided_guarded. cbn. repeat split.
Qed.

Lemma handle_label_error_witness :
  runner_label unnamed_runner = Raised (AttributeError "NotifyRunner" "runner_name") /\
  length (effects (handle notify_env 0%nat (mkWorld cpu_heap unnamed_runner))) = 1%nat.
Proof.
  split; [reflexivity|].
  destruct (handle_label_error notify_env 0%nat (mkWorld cpu_heap unnamed_runner)
              "paging" paging_decider (AttributeError "NotifyRunner" "runner_name")
              (mkDecidedEvent 0%nat None (VStr "{...}") [] false true None)
              (snd (DecidedEvent_init notify_env 0%nat (stamp notify_env 0%nat cpu_heap)))
              eq_refl eq_refl eq_refl eq_refl eq_refl eq_refl) as (_ & Ht & _).
  rewrite Ht. reflexivity.
Defined.

Lemma no_command_logs (t : list effect) :
  t = [] \/ (exists lv m, t = [Log lv m]) \/ (exists lv m lv' m', t = [Log lv m; Log lv' m']) ->
  no_command t.
Proof.
  intros [->|[(lv & m & ->)|(lv & m & lv' & m' & ->)]]; reflexivity.
Qed.

(** [handle] once its [try] statement is over, in terms of what the calls
    after it do. *)
Lemma handle_shape (E : Env) (raw : loc) (w : world) :
  exists t1 t3,
    effects (handle E raw w) = (t1 ++ t3)%list /\
    effects (decide_phase E raw w) = t1 /\
    ((t3 = [] /\
      forall ev, value (decide_phase E raw w) = Ok (Some ev) ->
                 exists e, value (handle E raw w) = Raised e) \/
     (t1 = [] /\
      exists ev self2 command report,
        value (decide_phase E raw w) = Ok (Some ev) /\
        let w2 := mkWorld (w_heap (final (decide_phase E raw w))) self2 in
        t3 = (snd (self_run E ev w2) ++ command ++ report)%list /\
        match fst (fst (fst (self_run E ev w2))) with
        | Ok c =>
            if truthy c
            then command = [Log DEBUG [Lit "command is "; Arg c]; Popen c]
            else command = []
        | Raised _ => command = []
        end /\
        (report = [] \/
         (exists m d, report = [Log INFO m; Log DEBUG d]) \/
         (exists m, report = [Log CRITICAL m])))).
Proof.
  rewrite handle_unfold.
  destruct (decide_phase_shape E raw w) as (r & w1 & t1 & Hdp & _ & Hshape).
  rewrite Hdp. cbn [effects value final fst snd].
  destruct Hshape as [(ev & -> & ->)|([->|(e & -> & He)] & Hlogs)].
  - destruct (getattr (w_self w1) "overwrite_attributes") as [[v|m]|].
    1: { exists [], []. split; [reflexivity|]. split; [reflexivity|]. left.
         split; [reflexivity|]. intros _ _. eauto. }
    all: destruct (_payload ev) as [payload|];
      [|exists [], []; split; [reflexivity|]; split; [reflexivity|]; left;
        split; [reflexivity|]; intros _ _; eauto].
    all: destruct (overwrite_attributes (w_self w1) payload) as [[e|] self2];
      [exists [], []; split; [reflexivity|]; split; [reflexivity|]; left;
       split; [reflexivity|]; intros _ _; eauto|].
    all: cbv zeta.
    all: destruct (getattr self2 "run_decided") as [[v|m']|];
      [exists [], []; split; [reflexivity|]; split; [reflexivity|]; left;
       split; [reflexivity|]; intros _ _; eauto| |].
    all: destruct (run_decided_shape E ev (mkWorld (w_heap w1) self2))
        as (r & command & report & -> & _ & Hc & Hr).
    all: cbn [effects snd app].
    all: eexists [], _; split; [reflexivity|]; split; [reflexivity|]; right.
    all: split; [reflexivity|].
    all: exists ev, self2, command, report; cbv zeta; auto.
  - exists t1, []. rewrite app_nil_r. split; [reflexivity|]. split; [reflexivity|].
    left. split; [reflexivity|]. discriminate.
  - exists t1, []. rewrite app_nil_r. split; [reflexivity|]. split; [reflexivity|].
    left. split; [reflexivity|]. discriminate.
Qed.

(** On every input [handle] builds at most one command and executes at most
    one: its effects are log lines only, or start with the call of [run]
    followed by log lines only, or start with the call of [run], the debug
    line with the command and the start of that command, followed by log
    lines only. *)
Theorem handle_one_command (E : Env) (raw : loc) (w : world) :
  no_command (effects (handle E raw w)) \/
  (exists self ev report,
      effects (handle E raw w) = Run self ev :: report /\ no_command report) \/
  (exists self ev c report,
      effects (handle E raw w) =
        Run self ev :: Log DEBUG [Lit "command is "; Arg c] :: Popen c :: report /\
      no_command report).
Proof.
  destruct (handle_shape E raw w) as (t1 & t3 & -> & Ht1 & Hcases).
  pose proof (decide_phase_no_command E raw w) as Hn1. rewrite Ht1 in Hn1.
  destruct Hcases as [(-> & _)|(-> & ev & self2 & command & report & _ & Hrest)].
  - left. now rewrite app_nil_r.
  - cbv zeta in Hrest. destruct Hrest as (-> & Hc & Hr). cbn [app].
    assert (no_command report) as Hnr.
    { apply no_command_logs.
      destruct Hr as [->|[(m & d & ->)|(m & ->)]]; eauto 8. }
    destruct (self_run_effects E ev (mkWorld (w_heap (final (decide_phase E raw w))) self2))
      as [Ht0|Ht0].
    + rewrite Ht0. cbn [app].
      destruct (fst (fst (fst (self_run E ev _)))) as [c|e].
      * destruct (truthy c); subst command.
        -- right. right. do 4 eexists. split; [reflexivity|exact Hnr].
        -- right. left. do 3 eexists. split; [reflexivity|exact Hnr].
      * subst command. right. left. do 3 eexists. split; [reflexivity|exact Hnr].
    + destruct (self_run_not_called E ev _ Ht0) as (e & He & _).
      rewrite Ht0, He in *. subst command. left. exact Hnr.
Qed.

(** On every input [handle] logs at most one INFO line and at most two
    CRITICAL lines, and never both an INFO line and a CRITICAL line. *)
Theorem handle_log_lines (E : Env) (raw : loc) (w : world) :
  (length (logged INFO (effects (handle E raw w))) <= 1)%nat /\
  (length (logged CRITICAL (effects (handle E raw w))) <= 2)%nat /\
  (logged INFO (effects (handle E raw w)) = [] \/
   logged CRITICAL (effects (handle E raw w)) = []).
Proof.
  destruct (handle_shape E raw w) as (t1 & t3 & -> & Ht1 & Hcases).
  destruct Hcases as [(-> & _)|(-> & ev & self2 & command & report & _ & Hrest)].
  - rewrite app_nil_r.
    destruct (decide_phase_shape E raw w) as (r & w1 & t1' & Hdp & _ & Hshape).
    rewrite Hdp in Ht1. cbn [effects snd] in Ht1. subst t1'.
    destruct Hshape as [(ev & _ & ->)|(_ & Hlogs)]; [cbn; auto|].
    destruct Hlogs as [->|[(m & ->)|[(m & ->)|(m1 & m2 & _ & ->)]]]; cbn; auto.
  - cbv zeta in Hrest. destruct Hrest as (-> & Hc & Hr). cbn [app].
    assert (logged INFO command = [] /\ logged CRITICAL command = []) as (Hci & Hcc).
    { destruct (fst (fst (fst (self_run E ev _)))) as [c|e];
        [destruct (truthy c)|]; subst command; split; reflexivity. }
    assert (logged INFO (snd (self_run E ev
                                (mkWorld (w_heap (final (decide_phase E raw w))) self2))) = [] /\
            logged CRITICAL (snd (self_run E ev
                                    (mkWorld (w_heap (final (decide_phase E raw w))) self2))) = [])
      as (Hri & Hrc).
    { destruct (self_run_effects E ev (mkWorld (w_heap (final (decide_phase E raw w))) self2))
        as [-> | ->]; split; reflexivity. }
    rewrite !logged_app, Hci, Hcc, Hri, Hrc. cbn [app].
    destruct Hr as [->|[(m & d & ->)|(m & ->)]]; cbn; auto.
Qed.

(** The instance changes only once [handle] goes on with an event: when its
    [try] statement ends without one (the event was discarded or incomplete,
    or deciding failed), the instance it leaves is the instance it found. *)
Theorem handle_keeps_instance (E : Env) (raw : loc) (w : world) :
  (forall ev, value (decide_phase E raw w) <> Ok (Some ev)) ->
  w_self (final (handle E raw w)) = w_self w.
Proof.
  intros Hno. rewrite handle_unfold.
  pose proof (decide_phase_self E raw w) as Hself.
  destruct (decide_phase E raw w) as [[[[ev|]|e] w1] t1]; cbn [value final fst snd] in *; auto.
  now contradiction (Hno ev).
Qed.

Lemma handle_keeps_instance_witness :
  value (decide_phase notify_env 0%nat (world_in_state "0")) = Ok None /\
  w_self (final (handle notify_env 0%nat (world_in_state "0"))) = notify_runner.
Proof.
  split; [reflexivity|].
  apply (handle_keeps_instance notify_env 0%nat (world_in_state "0")).
  intros ev. vm_compute. discriminate.
Defined.

(** [handle] does not undo the overlay.  When it goes on with an event, the
    instance it leaves has the payload laid over it, as far as
    [overwrite_attributes] came: if that raised, or if a value then shadows
    [run_decided], [handle] raises and leaves the instance at that; otherwise
    it leaves the instance as [self.run] left it. *)
Theorem handle_overlay_stays (E : Env) (raw : loc) (w : world) (ev : DecidedEvent) :
  value (self_decide_and_prepare_event E raw w) = Ok (Some ev) ->
  _discarded ev = false ->
  is_complete ev = true ->
  is_method (w_self w) "overwrite_attributes" = true ->
  exists payload,
    _payload ev = Some payload /\
    let h1 := w_heap (final (self_decide_and_prepare_event E raw w)) in
    match overwrite_attributes (w_self w) payload with
    | (Some e, self2) =>
        value (handle E raw w) = Raised e /\ final (handle E raw w) = mkWorld h1 self2
    | (None, self2) =>
        if is_method self2 "run_decided"
        then final (handle E raw w) = snd (fst (self_run E ev (mkWorld h1 self2)))
        else (exists v, value (handle E raw w) = Raised (not_callable v)) /\
             final (handle E raw w) = mkWorld h1 self2
    end.
Proof.
  intros Hv Hd Hc Hm.
  destruct (self_decide_and_prepare_event_some E raw w ev Hv) as (_ & Ht & Hs).
  rewrite handle_unfold, decide_phase_unfold.
  destruct (self_decide_and_prepare_event E raw w) as [[r w1] t1].
  cbn [value effects final fst snd] in *. subst r t1.
  rewrite inspect_decided_guarded, Hd, Hc.
  assert (exists payload, _payload ev = Some payload) as (payload & Hp).
  { unfold is_complete in Hc. destruct (_payload ev); [eauto|discriminate]. }
  rewrite Hp, Hs. cbv zeta. exists payload. split; auto.
  unfold is_method in Hm.
  destruct (getattr (w_self w) "overwrite_attributes") as [[v|m]|]; [discriminate| |].
  all: destruct (overwrite_attributes (w_self w) payload) as [[e|] self2]; [split; reflexivity|].
  all: unfold is_method.
  all: destruct (getattr self2 "run_decided") as [[v|m']|]; [split; eauto| |].
  all: destruct (run_decided_shape E ev (mkWorld (w_heap w1) self2))
      as (r & command & report & -> & _); reflexivity.
Qed.

Lemma handle_overlay_stays_witness :
  instance_attr (w_self (world_in_state "2")) "contact" = Some (VStr "nobody") /\
  instance_attr (w_self (final (handle notify_env 0%nat (world_in_state "2")))) "contact"
    = Some (VStr "oncall").
Proof.
  split; [reflexivity|].
  destruct (handle_overlay_stays notify_env 0%nat (world_in_state "2")
              (mkDecidedEvent 0%nat (Some [("contact", VStr "oncall"); ("pager", VInt 7)])
                 (VStr "CPU CRIT -> paging oncall") [] false true None)
              eq_refl eq_refl eq_refl eq_refl) as (payload & Hp & Hf).
  injection Hp as <-.
  rewrite (Hf : final (handle notify_env 0%nat (world_in_state "2")) =
                snd (fst (self_run notify_env
                            (mkDecidedEvent 0%nat
                               (Some [("contact", VStr "oncall"); ("pager", VInt 7)])
                               (VStr "CPU CRIT -> paging oncall") [] false true None)
                            (mkWorld
                               (w_heap (final (self_decide_and_prepare_event notify_env 0%nat
                                                 (world_in_state "2"))))
                               (snd (overwrite_attributes notify_runner
                                       [("contact", VStr "oncall"); ("pager", VInt 7)])))))).
  reflexivity.
Defined.

(** [run_decided(None)] runs nothing.  It returns [True] when the base class
    no longer logs summaries, and raises AttributeError when it does,
    because it then asks [None] for its summary. *)
Theorem run_decided_None (E : Env) (w : world) :
  run_decided E None w =
  if truthy (baseclass_logs_summary (w_self w))
  then (Raised (AttributeError "NoneType" "summary"), w, [])
  else (Ok (VBool true), w, []).
Proof.
  unfold run_decided, attempt, bind, ret, get_self. cbn [success].
  destruct (truthy (baseclass_logs_summary (w_self w))); reflexivity.
Qed.

(** [run_decided] starts a subprocess exactly for the value the call of
    [run] returned, if that is not empty; when the call raises or returns
    nothing, nothing is started. *)
Theorem run_decided_executes_what_run_returns
  (E : Env) (ev : DecidedEvent) (w : world) (c : pyval) :
  In (Popen c) (effects (run_decided E (Some ev) w)) <->
  fst (fst (fst (self_run E ev w))) = Ok c /\ truthy c = true.
Proof.
  destruct (run_decided_shape E ev w) as (r & command & report & -> & _ & Hc & Hr).
  cbn [effects snd].
  assert (~ In (Popen c) report) as Hnr.
  { destruct Hr as [->|[(m & d & ->)|(m & ->)]]; cbn; intuition discriminate. }
  assert (~ In (Popen c) (snd (self_run E ev w))) as Hn0.
  { destruct (self_run_effects E ev w) as [-> | ->]; cbn; intuition discriminate. }
  rewrite !in_app_iff.
  destruct (fst (fst (fst (self_run E ev w)))) as [c'|e].
  - destruct (truthy c') eqn:Ht; subst command; cbn.
    + split.
      * intros [H|[[H|[H|H]]|H]]; try discriminate; try contradiction.
        injection H as ->. auto.
      * intros ([= ->] & _). auto.
    + split.
      * intros [H|[H|H]]; contradiction.
      * intros ([= ->] & Ht'). congruence.
  - subst command. cbn. split.
    + intros [H|[H|H]]; contradiction.
    + intros (H & _). discriminate.
Qed.

(** ** Nested timeouts *)

(** A wrapped function that calls another wrapped function loses its own
    deadline.  Let it work for a while without reaching its deadline, then
    call a function wrapped with a timeout of its own, which returns in
    time: from then on no alarm is pending, and the rest of its body runs to
    its end however long it takes, beyond any deadline.  The handler found at
    the start is installed at the end. *)
Theorem nested_timeout_loses_outer_deadline
  (outer_seconds inner_seconds : Z) (outer_message inner_message : string)
  (before inner rest : Signal.call) (s : Signal.sigstate) (v v' : pyval) :
  0 <= outer_seconds < 2 ^ 31 ->
  0 <= inner_seconds < 2 ^ 31 ->
  (outer_seconds = 0 \/ Z.of_nat (Signal.duration before) < outer_seconds) ->
  Signal.completes before = Ok v ->
  (inner_seconds = 0 \/ Z.of_nat (Signal.duration inner) < inner_seconds) ->
  Signal.completes inner = Ok v' ->
  fst (Signal.timeout_around outer_seconds outer_message
         (Signal.nested before inner_seconds inner_message inner rest) s) =
  (Signal.undisturbed rest, Signal.mkSig (Signal.sigalrm s) 0).
Proof.
  intros Ho Hi Hbefore Hv Hinner Hv'.
  assert (forall n d, 0 <= n < 2 ^ 31 -> (n = 0 \/ Z.of_nat d < n) ->
                      (0 <? Z.to_nat (n mod 2 ^ 32))%nat &&
                      (Z.to_nat (n mod 2 ^ 32) <=? d)%nat = false) as Hnot.
  { intros n d Hn Hd. rewrite Z.mod_small by lia.
    apply andb_false_iff. destruct Hd as [->|Hd].
    - left. reflexivity.
    - right. apply Nat.leb_gt. lia. }
  unfold Signal.timeout_around at 1, Signal.signal_signal.
  rewrite signal_alarm_in_range by lia. cbn [Signal.pending Signal.sigalrm].
  unfold Signal.nested.
  rewrite run_call_with_timeout_handler, (Hnot _ _ Ho Hbefore).
  unfold Signal.undisturbed at 1. rewrite Hv. cbn [Signal.outcome_of].
  rewrite timeout_unfold. cbv zeta.
  assert ((inner_seconds <? - 2 ^ 31) || (2 ^ 31 <=? inner_seconds) = false) as ->.
  { apply orb_false_iff. split; [apply Z.ltb_ge|apply Z.leb_gt]; lia. }
  rewrite (Hnot _ _ Hi Hinner).
  unfold Signal.undisturbed at 1. rewrite Hv'. cbn [Signal.outcome_of Signal.sigalrm].
  unfold Signal.run_call. cbn [Signal.pending Signal.sigalrm Nat.ltb Nat.leb andb Nat.sub].
  pose proof (outcome_of_not_terminated (Signal.completes rest)) as Hu.
  unfold Signal.undisturbed.
  destruct (Signal.outcome_of (Signal.completes rest)); try contradiction; reflexivity.
Qed.

Lemma nested_timeout_loses_outer_deadline_witness :
  fst (Signal.timeout_around 10 "outer"
         (Signal.nested (Signal.mkCall 5 (Ok VNone) Raised) 60 "inner"
            (Signal.mkCall 1 (Ok VNone) Raised)
            (Signal.mkCall 500 (Ok (VInt 1)) Raised))
         (Signal.mkSig Signal.SIG_DFL 0))
  = (Signal.Returned (VInt 1), Signal.mkSig Signal.SIG_DFL 0).
Proof.
  exact (nested_timeout_loses_outer_deadline 10 60 "outer" "inner"
           (Signal.mkCall 5 (Ok VNone) Raised) (Signal.mkCall 1 (Ok VNone) Raised)
           (Signal.mkCall 500 (Ok (VInt 1)) Raised) (Signal.mkSig Signal.SIG_DFL 0)
           VNone VNone ltac:(lia) ltac:(lia) ltac:(right; reflexivity) eq_refl
           ltac:(right; reflexivity) eq_refl).
Defined.

(** Without an inner timeout the same body is stopped at its deadline. *)
Example timeout_without_nesting :
  fst (fst (Signal.timeout 10 "outer" (Signal.mkCall 506 (Ok (VInt 1)) Raised)
              (Signal.mkSig Signal.SIG_DFL 0)))
  = Signal.Raises (Signal.RunnerTimeoutError "outer").
Proof. reflexivity. Qed.

(** ** Names of modules and classes *)

Lemma string_length_app (a b : string) :
  String.length (a +:+ b) = (String.length a + String.length b)%nat.
Proof. induction a as [|c a IH]; simpl; auto. Qed.

Lemma substring_whole (s : string) : substring 0 (String.length s) s = s.
Proof. induction s as [|c s IH]; simpl; auto. now rewrite IH. Qed.

Lemma substring_prefix (a b : string) : substring 0 (String.length a) (a +:+ b) = a.
Proof.
  induction a as [|c a IH]; simpl.
  - now destruct b.
  - now rewrite IH.
Qed.

Lemma substring_suffix (a b : string) :
  substring (String.length a) (String.length b) (a +:+ b) = b.
Proof.
  induction a as [|c a IH]; simpl; auto. apply substring_whole.
Qed.

Lemma endswith_app (a suffix : string) : endswith (a +:+ suffix) suffix = true.
Proof.
  unfold endswith. rewrite string_length_app.
  replace (String.length a + String.length suffix - String.length suffix)%nat
    with (String.length a) by lia.
  rewrite substring_suffix, String.eqb_refl, andb_true_r.
  apply Nat.leb_le. lia.
Qed.

Lemma drop_last_app (a suffix : string) :
  drop_last (String.length suffix) (a +:+ suffix) = a.
Proof.
  unfold drop_last. rewrite string_length_app.
  replace (String.length a + String.length suffix - String.length suffix)%nat
    with (String.length a) by lia.
  apply substring_prefix.
Qed.

Lemma contains_char_app (c : ascii) (a b : string) :
  contains_char c (a +:+ b) = contains_char c a || contains_char c b.
Proof.
  induction a as [|c' a IH]; simpl; auto. now rewrite IH, orb_assoc.
Qed.

Lemma rsplit1_none (sep : ascii) (s : string) :
  rsplit1 sep s = None -> contains_char sep s = false.
Proof.
  induction s as [|c s IH]; simpl; auto.
  destruct (rsplit1 sep s) as [[before after]|]; [discriminate|].
  destruct (Ascii.eqb c sep); [discriminate|]. intros _. now apply IH.
Qed.

Lemma rsplit1_some (sep : ascii) (s before after : string) :
  rsplit1 sep s = Some (before, after) ->
  before +:+ String sep after = s /\ contains_char sep after = false.
Proof.
  revert before. induction s as [|c s IH]; intros before; simpl; [discriminate|].
  destruct (rsplit1 sep s) as [[before' after']|] eqn:Hr.
  - intros [= <- <-]. destruct (IH before' eq_refl) as (<- & Hc). auto.
  - destruct (Ascii.eqb c sep) eqn:Hc; [|discriminate].
    intros [= <- <-]. apply Ascii.eqb_eq in Hc. subst c.
    split; auto. now apply rsplit1_none.
Qed.

(** [new] always finds a module name and a class name.  A target name with
    a dot is cut at its last dot: module, dot and class give the target name
    back, and the class has no dot.  A target name without a dot is the
    module, and the class is derived from it. *)
Theorem runner_module_and_class_parts (target_name : string) :
  match runner_module_and_class target_name with
  | Ok (module_name, class_name) =>
      if contains_char "." target_name
      then module_name +:+ "." +:+ class_name = target_name /\
           contains_char "." class_name = false
      else module_name = target_name /\ class_name = class_name_of target_name "Runner"
  | Raised _ => False
  end.
Proof.
  unfold runner_module_and_class.
  destruct (contains_char "." target_name) eqn:Hc; [|auto].
  destruct (rsplit1 "." target_name) as [[module_name class_name]|] eqn:Hr.
  - now apply rsplit1_some.
  - apply rsplit1_none in Hr. congruence.
Qed.

Lemma split_pieces (sep : ascii) (s : string) :
  split sep s <> [] /\
  Forall (fun piece => contains_char sep piece = false) (split sep s).
Proof.
  induction s as [|c s (Hne & Hall)]; simpl.
  - split; [discriminate|]. repeat constructor.
  - destruct (Ascii.eqb c sep) eqn:Hc.
    + split; [discriminate|]. constructor; auto.
    + destruct (split sep s) as [|piece pieces]; [contradiction|].
      split; [discriminate|].
      inversion Hall; subst. constructor; auto. simpl. now rewrite Hc.
Qed.

Lemma title_char_underscore (c : ascii) (previous_is_cased : bool) :
  Ascii.eqb (if previous_is_cased then to_lower c else to_upper c) "_" = Ascii.eqb c "_".
Proof.
  destruct previous_is_cased;
    destruct c as [[] [] [] [] [] [] [] []]; reflexivity.
Qed.

Lemma title_from_underscore (s : string) (previous_is_cased : bool) :
  contains_char "_" (title_from previous_is_cased s) = contains_char "_" s.
Proof.
  revert previous_is_cased. induction s as [|c s IH]; intros b; simpl; auto.
  now rewrite title_char_underscore, IH.
Qed.

Lemma contains_char_concat (c : ascii) (l : list string) :
  contains_char c (String.concat "" l) = existsb (contains_char c) l.
Proof.
  induction l as [|x l IH]; auto.
  destruct l as [|y l].
  - simpl. now rewrite orb_false_r.
  - change (String.concat "" (x :: y :: l)) with (x +:+ "" +:+ String.concat "" (y :: l)).
    rewrite contains_char_app.
    change ("" +:+ String.concat "" (y :: l)) with (String.concat "" (y :: l)).
    rewrite IH. reflexivity.
Qed.

Lemma concat_titles_no_underscore (pieces : list string) :
  Forall (fun piece => contains_char "_" piece = false) pieces ->
  contains_char "_" (String.concat "" (map title pieces)) = false.
Proof.
  intros Hall. rewrite contains_char_concat.
  induction Hall as [|piece pieces Hp _ IH]; simpl; auto.
  unfold title at 1. now rewrite title_from_underscore, Hp, IH.
Qed.

(** The class name derived from a module name has no underscore but those
    of its suffix: [NotifyRunner], [PagingDecider] and the like have none,
    wherever the module name has its underscores. *)
Theorem class_name_has_no_underscore (name suffix : string) :
  contains_char "_" (class_name_of name suffix) = contains_char "_" suffix.
Proof.
  unfold class_name_of. rewrite contains_char_app.
  rewrite concat_titles_no_underscore; auto.
  apply split_pieces.
Qed.

Example class_name_examples :
  class_name_of "notify" "Runner" = "NotifyRunner" /\
  class_name_of "send_to_snow" "Runner" = "SendToSnowRunner" /\
  class_name_of "mySQL_check" "Decider" = "MysqlCheckDecider" /\
  runner_module_and_class "sms.gateway.SmsRunner" = Ok ("sms.gateway", "SmsRunner").
Proof. repeat split; reflexivity. Qed.

(** ** new *)

Lemma string_app_empty (s : string) : s +:+ "" = s.
Proof.
  induction s as [|c s IH]; [reflexivity|].
  change (String c (s +:+ "") = String c s). now rewrite IH.
Qed.

Lemma new_ok
  (H : Host) (target_name : string) (tag : option string) (decider : pyval)
  (verbose debug : bool) (runneropts : pydict) (setup : option LogSetup) (instance : Runner) :
  new H target_name tag decider verbose debug runneropts = (setup, Ok instance) ->
  exists runner_class constructed,
    construct runner_class runneropts = Ok constructed /\
    is_class runner_class = true /\
    is_EventhandlerRunner runner_class = true /\
    instance = new_attributes constructed (runner_module_file runner_class)
                 target_name tag decider.
Proof.
  unfold new. destruct (new_log_levels verbose debug) as [scrn txt].
  destruct (environ_OMD_ROOT H) as [root|]; [|discriminate].
  destruct (setup_logging H _) as [u|e]; [|discriminate].
  destruct (new_try H target_name tag decider runneropts) as [[runner_class inst]|e] eqn:Ht;
    [|destruct (is_Exception e); discriminate].
  unfold new_else.
  destruct (is_class runner_class) eqn:Hcls; [|discriminate].
  destruct (is_EventhandlerRunner runner_class) eqn:Hsub; [|discriminate].
  intros [= _ <-].
  unfold new_try in Ht.
  destruct (runner_module_and_class target_name) as [[module_name class_name]|e];
    [|discriminate].
  destruct (import_runner H _ _) as [cls|e]; [|discriminate].
  destruct (construct cls runneropts) as [constructed|e] eqn:Hc; [|discriminate].
  injection Ht as <- <-. eauto 6.
Qed.

(** The instance [new] returns carries the target name as [name] and the
    decider's name as [decider_name], whatever the options held under these
    names, and the [runner] attribute computed from it for the decider is the
    target name again, with the tag stripped.  Without a tag this holds when
    neither an option nor the class made [tag] an attribute of the
    instance. *)
Theorem new_runner_label
  (H : Host) (target_name : string) (tag : option string) (decider : pyval)
  (verbose debug : bool) (runneropts : pydict) (setup : option LogSetup) (instance : Runner) :
  new H target_name tag decider verbose debug runneropts = (setup, Ok instance) ->
  (tag_given tag = None -> getattr instance "tag" = None) ->
  instance_attr instance "name" = Some (VStr target_name) /\
  instance_attr instance "decider_name" = Some decider /\
  instance_attr instance "runner_name" = Some (VStr (new_runner_name target_name tag)) /\
  runner_label instance = Ok (Value (VStr target_name)).
Proof.
  intros Hnew Htag.
  destruct (new_ok _ _ _ _ _ _ _ _ _ Hnew) as (cls & constructed & _ & _ & _ & ->).
  unfold runner_label, new_attributes, new_runner_name in *.
  destruct (tag_given tag) as [t|];
    rewrite ?getattr_set, ?instance_attr_set in *;
    cbn [String.eqb Ascii.eqb Bool.eqb] in *.
  - repeat split. now rewrite endswith_app, drop_last_app.
  - rewrite (Htag eq_refl). repeat split.
    now rewrite string_app_empty.
Qed.

Lemma new_runner_label_witness :
  fst (new omd_host "notify" (Some "emea") (VStr "paging") false false
         [("contact", VStr "nobody"); ("name", VStr "other")])
    = Some (mkLogSetup "/omd/sites/mon/var/log" "eventhandler_notify_emea.log" 100 20) /\
  exists instance,
    snd (new omd_host "notify" (Some "emea") (VStr "paging") false false
           [("contact", VStr "nobody"); ("name", VStr "other")]) = Ok instance /\
    instance_attr instance "name" = Some (VStr "notify") /\
    instance_attr instance "runner_name" = Some (VStr "notify_emea") /\
    runner_label instance = Ok (Value (VStr "notify")).
Proof.
  split; [reflexivity|].
  eexists. split; [reflexivity|].
  pose proof (new_runner_label omd_host "notify" (Some "emea") (VStr "paging") false false
                [("contact", VStr "nobody"); ("name", VStr "other")] _ _ eq_refl) as Hl.
  destruct Hl as (Hname & _ & Hrn & Hlabel); [discriminate|].
  repeat split; assumption.
Defined.

Example new_notify :
  new omd_host "notify" None (VStr "paging") false false [("contact", VStr "nobody")] =
  (Some (mkLogSetup "/omd/sites/mon/var/log" "eventhandler_notify.log" 100 20),
   Ok notify_runner).
Proof. reflexivity. Qed.

(** Once logging is set up, what fails in [new] reaches the caller as an
    ImportError (a module or class that is missing, a constructor that
    raises, a class that is no runner), with two exceptions: an exception of
    the [try] block that is not derived from [Exception] passes as it is, and
    a callable that is no class makes [issubclass] raise TypeError.  Before
    that, a missing [OMD_ROOT] is a KeyError and an error of [setup_logging]
    is passed on. *)
Theorem new_errors
  (H : Host) (target_name : string) (tag : option string) (decider : pyval)
  (verbose debug : bool) (runneropts : pydict) :
  match new H target_name tag decider verbose debug runneropts with
  | (Some _, Raised e) =>
      exn_class e = "ImportError" \/
      (is_Exception e = false /\
       new_try H target_name tag decider runneropts = Raised e) \/
      (e = TypeError "issubclass() arg 1 must be a class" /\
       exists runner_class instance,
         new_try H target_name tag decider runneropts = Ok (runner_class, instance) /\
         is_class runner_class = false)
  | (None, Raised e) =>
      (environ_OMD_ROOT H = None /\ e = Exn "KeyError" "'OMD_ROOT'") \/
      (exists setup, setup_logging H setup = Raised e)
  | (Some _, Ok _) => True
  | (None, Ok _) => False
  end.
Proof.
  unfold new. destruct (new_log_levels verbose debug) as [scrn txt].
  destruct (environ_OMD_ROOT H) as [root|]; [|auto].
  destruct (setup_logging H _) as [u|e] eqn:Hs; [|eauto].
  destruct (new_try H target_name tag decider runneropts) as [[runner_class inst]|e].
  - unfold new_else. destruct (is_class runner_class) eqn:Hcls.
    + destruct (is_EventhandlerRunner runner_class); auto.
    + right. right. split; [reflexivity|]. eauto.
  - destruct (is_Exception e) eqn:He; auto.
Qed.

Example new_factory_function :
  exists setup,
    new omd_host "factory.NotifyRunner" None (VStr "paging") false false [] =
    (Some setup, Raised (TypeError "issubclass() arg 1 must be a class")).
Proof. eexists. reflexivity. Qed.

(** The logging [new] sets up: the file is named after the runner and its
    tag, the file always takes INFO records, and the screen never shows a
    record that the file leaves out. *)
Theorem new_log_setup
  (H : Host) (target_name : string) (tag : option string) (decider : pyval)
  (verbose debug : bool) (runneropts : pydict) :
  match fst (new H target_name tag decider verbose debug runneropts) with
  | Some setup =>
      logfile setup = "eventhandler_" +:+ new_runner_name target_name tag +:+ ".log" /\
      txtloglevel setup <= logging_INFO /\
      txtloglevel setup <= scrnloglevel setup /\
      (if debug then scrnloglevel setup = logging_DEBUG
       else scrnloglevel setup = if verbose then logging_INFO else 100)
  | None => True
  end.
Proof.
  unfold new, new_log_levels, logging_INFO, logging_DEBUG.
  destruct debug, verbose;
    (destruct (environ_OMD_ROOT H) as [root|]; [|exact I]);
    (destruct (setup_logging H _) as [u|e]; [|exact I]);
    (destruct (new_try H target_name tag decider runneropts) as [[runner_class inst]|e];
     [|destruct (is_Exception e)]);
    cbn; repeat split; lia.
Qed.

(** ** DecidedEvent: completeness *)

Lemma apply_ops_summary_kept (self : DecidedEvent) (ops : list event_op) :
  existsb is_SetSummary ops = false ->
  _summary (apply_ops self ops) = _summary self.
Proof.
  unfold apply_ops. revert self.
  induction ops as [|op ops IH]; intros self; simpl; auto.
  intros Hs. apply orb_false_iff in Hs as (Hop & Hs).
  rewrite (IH _ Hs). destruct op; simpl in *; auto. discriminate.
Qed.

(** A new event has its summary from the start (the text of its mapping), so
    as long as the decider does not set the summary, the event is complete
    exactly when it has a payload: a new event is not complete, and setting
    the payload alone completes it. *)
Theorem complete_when_payload_set
  (P : Python) (raw : loc) (h h' : heap) (ev : DecidedEvent) (ops : list event_op) :
  DecidedEvent_init P raw h = (Ok ev, h') ->
  existsb is_SetSummary ops = false ->
  is_complete ev = false /\
  is_complete (apply_ops ev ops) =
  match _payload (apply_ops ev ops) with
  | Some _ => true
  | None => false
  end.
Proof.
  intros Hinit Hs.
  destruct (DecidedEvent_init_Ok P _ _ _ _ Hinit) as (-> & _).
  split; [reflexivity|].
  unfold is_complete.
  rewrite (apply_ops_summary_kept _ _ Hs). cbn [_summary].
  now destruct (_payload _).
Qed.

Lemma complete_when_payload_set_witness :
  is_complete (mkDecidedEvent 0%nat None (VStr "{...}") [] false true None) = false /\
  is_complete
    (apply_ops (mkDecidedEvent 0%nat None (VStr "{...}") [] false true None)
       [SetIsHeartbeat (VBool false); SetPayload (Some [("contact", VStr "oncall")])]) = true.
Proof.
  destruct (complete_when_payload_set cpython 0%nat cpu_heap
              (snd (DecidedEvent_init cpython 0%nat cpu_heap))
              (mkDecidedEvent 0%nat None (VStr "{...}") [] false true None)
              [SetIsHeartbeat (VBool false); SetPayload (Some [("contact", VStr "oncall")])]
              eq_refl eq_refl) as (Hnew & Hops).
  split; [exact Hnew|]. rewrite Hops. reflexivity.
Defined.

(** ** The constructor on plain text *)

Lemma coerce_loop_all_Ok (P : Python) (l : loc) (ks : list string) (h : heap) :
  (forall k v, dict_get (h l) k = Some v -> exists v', coerced P v = Ok v') ->
  fst (coerce_loop P l ks h) = None.
Proof.
  intros Hall.
  destruct (coerce_loop P l ks h) as [[e|] h'] eqn:Hloop; [|reflexivity].
  destruct (coerce_loop_Some _ _ _ _ _ _ Hloop) as (k & v & _ & Hg & Hc).
  destruct (Hall k v Hg) as (v' & Hv'). congruence.
Qed.

(** On a raw event whose strings are ASCII text and no longer than the
    number of digits [int] converts, the constructor returns and leaves the
    mapping normalized: the same keys in the same order; at a key whose value
    was a string of decimal digits (at least one) the integer that string
    denotes; at every other key the value it had. *)
Theorem DecidedEvent_init_normalizes_ascii
  (P : Python) (raw : loc) (h : heap) (k : string) :
  (forall k s, dict_get (h raw) k = Some (VStr s) ->
               is_ascii s = true /\
               match int_max_str_digits P with
               | Some limit => (String.length s <= limit)%nat
               | None => True
               end) ->
  exists ev h',
    DecidedEvent_init P raw h = (Ok ev, h') /\
    dict_keys (eventopts ev h') = dict_keys (h raw) /\
    dict_get (eventopts ev h') k =
      match dict_get (h raw) k with
      | Some (VStr s) => Some (if isdigit s then VInt (decimal_value s) else VStr s)
      | other => other
      end.
Proof.
  intros Hascii.
  assert (forall k v, dict_get (h raw) k = Some v ->
            coerced P v = Ok (match v with
                              | VStr s => if isdigit s then VInt (decimal_value s) else VStr s
                              | _ => v
                              end)) as Hc.
  { intros k0 v Hg. destruct v as [| | |s|]; try reflexivity.
    destruct (Hascii k0 s Hg) as (Ha & Hlimit).
    unfold coerced, str_isdigit, int_str. rewrite Ha.
    destruct (isdigit s); [|reflexivity].
    rewrite int_decimal.
    destruct (int_max_str_digits P) as [limit|]; [|reflexivity].
    assert ((limit <? String.length s)%nat = false) as -> by (apply Nat.ltb_ge; lia).
    reflexivity. }
  destruct (DecidedEvent_init P raw h) as [[ev|e] h'] eqn:Hinit.
  - exists ev, h'. split; [reflexivity|].
    pose proof (coerce_loop_keys P raw (dict_keys (h raw)) h) as Hk.
    rewrite <- DecidedEvent_init_snd, Hinit in Hk. cbn [snd] in Hk.
    destruct (DecidedEvent_init_Ok P _ _ _ _ Hinit) as (-> & _ & Hget).
    unfold eventopts. cbn [_eventopts]. split; [exact Hk|].
    rewrite Hget. destruct (dict_get (h raw) k) as [v|] eqn:Hg; [|reflexivity].
    cbn. rewrite (coerced_value_Ok P _ _ (Hc k v Hg)). now destruct v.
  - exfalso. unfold DecidedEvent_init in Hinit.
    pose proof (coerce_loop_all_Ok P raw (dict_keys (h raw)) h) as Hnone.
    destruct (coerce_loop P raw (dict_keys (h raw)) h) as [[e0|] h1]; [|discriminate].
    cbn [fst] in Hnone. discriminate Hnone. intros k0 v Hg. eauto.
Qed.

Lemma DecidedEvent_init_normalizes_ascii_witness :
  exists ev h',
    DecidedEvent_init cpython 0%nat cpu_heap = (Ok ev, h') /\
    dict_get (eventopts ev h') "state" = Some (VInt 2).
Proof.
  destruct (DecidedEvent_init_normalizes_ascii cpython 0%nat cpu_heap "state")
    as (ev & h' & Hinit & _ & Hget).
  - intros k s Hg. unfold cpu_heap, cpu_event in Hg. cbn in Hg.
    repeat match type of Hg with
           | (if ?b then _ else _) = _ => destruct b
           end; try discriminate; injection Hg as <-; (split; [reflexivity|cbn; lia]).
  - exists ev, h'. split; [exact Hinit|exact Hget].
Defined.
